(** * URScript extension: the regex-driven source analyser

    Shallow embedding of [src/features/signatureHelpProvider.ts] and of the
    code parser that follows it in the same source file ([parseDocParam],
    [findDoc], [parseCmpItem], [parseHover], [parseSignature] and the text,
    file and workspace scan drivers), together with the fragment of the
    JavaScript string and regular-expression semantics those functions use.

    Conventions.
    - A JavaScript string is a [string]; a code unit is an [ascii]
      (code units below 256).
    - Indices that the source lets go negative ([indexOf], cursor
      arithmetic) are [Z]; indices into a subject string are [nat].
    - [undefined] / [null] results are [None]. *)

From Stdlib Require Import List String Ascii Bool Arith ZArith Lia.
From Stdlib Require Import DecimalString.
Import ListNotations.
Local Open Scope string_scope.
Local Open Scope bool_scope.
Local Open Scope nat_scope.

(* ================================================================== *)
(** * JavaScript string primitives *)
(* ================================================================== *)

Module JS.

(** Code units removed by [String.prototype.trim] and matched by [\s]:
    TAB, LF, VT, FF, CR, SPACE and NBSP. *)
Definition isWhiteSpace (c : ascii) : bool :=
  let n := nat_of_ascii c in
  ((9 <=? n) && (n <=? 13)) || (n =? 32) || (n =? 160).

(** Code units matched by [\w]. *)
Definition isWordChar (c : ascii) : bool :=
  let n := nat_of_ascii c in
  ((48 <=? n) && (n <=? 57)) || ((65 <=? n) && (n <=? 90))
  || ((97 <=? n) && (n <=? 122)) || (n =? 95).

(** Code units matched by [.] (everything but LF and CR). *)
Definition isNotLineTerminator (c : ascii) : bool :=
  let n := nat_of_ascii c in
  negb ((n =? 10) || (n =? 13)).

Fixpoint trimStart (s : string) : string :=
  match s with
  | EmptyString => EmptyString
  | String c s' => if isWhiteSpace c then trimStart s' else s
  end.

Fixpoint trimEnd (s : string) : string :=
  match s with
  | EmptyString => EmptyString
  | String c s' =>
      match trimEnd s' with
      | EmptyString => if isWhiteSpace c then EmptyString else String c EmptyString
      | t => String c t
      end
  end.

(** [s.trim()] *)
Definition trim (s : string) : string := trimEnd (trimStart s).

(** [s.startsWith(p)] *)
Definition startsWith (p s : string) : bool := String.prefix p s.

Fixpoint drop (n : nat) (s : string) : string :=
  match n, s with
  | 0, _ => s
  | S n', String _ s' => drop n' s'
  | S _, EmptyString => EmptyString
  end.

(** [s.endsWith(p)] *)
Definition endsWith (p s : string) : bool :=
  (String.length p <=? String.length s)
  && String.eqb (drop (String.length s - String.length p) s) p.

(** [s.replace(p, r)] with a string pattern: only the first occurrence
    of [p] is replaced. *)
Fixpoint replaceFirst (p r s : string) : string :=
  if String.prefix p s then r ++ drop (String.length p) s
  else match s with
       | EmptyString => EmptyString
       | String c s' => String c (replaceFirst p r s')
       end.

(** [s.replace(/c/g, '')] for a one-character pattern. *)
Fixpoint removeAll (c : ascii) (s : string) : string :=
  match s with
  | EmptyString => EmptyString
  | String d s' => if Ascii.eqb d c then removeAll c s' else String d (removeAll c s')
  end.

(** [s.split(sep)] for a one-character separator string. *)
Fixpoint split (sep : ascii) (s : string) : list string :=
  match s with
  | EmptyString => [EmptyString]
  | String c s' =>
      if Ascii.eqb c sep then EmptyString :: split sep s'
      else match split sep s' with
           | h :: t => String c h :: t
           | [] => [String c EmptyString]
           end
  end.

(** [a.join(sep)] *)
Definition join (sep : string) (a : list string) : string := String.concat sep a.

(** [s.indexOf(c, from)] for a one-character search string; [-1] when
    absent.  A negative [from] is clamped to 0. *)
Fixpoint indexOfFrom (c : ascii) (s : string) (pos : Z) (from : Z) : Z :=
  match s with
  | EmptyString => (-1)%Z
  | String d s' =>
      if (from <=? pos)%Z && Ascii.eqb d c then pos
      else indexOfFrom c s' (pos + 1)%Z from
  end.

Definition indexOf (c : ascii) (s : string) (from : Z) : Z :=
  indexOfFrom c s 0%Z from.

(** [s.substr(start, len)] for [0 <= start]; a non-positive [len] gives
    the empty string. *)
Definition substr (s : string) (start len : Z) : string :=
  String.substring (Z.to_nat start) (Z.to_nat len) s.

(** Decimal rendering of a number inside a template literal. *)
Definition numToString (n : nat) : string :=
  NilZero.string_of_uint (Nat.to_uint n).

(** JavaScript truthiness of a string value. *)
Definition truthy (s : string) : bool := negb (String.eqb s EmptyString).

End JS.

(* ================================================================== *)
(** * Regular expressions

    A backtracking matcher in continuation-passing style, after the
    matcher semantics of the language standard, for the pattern
    constructs that occur in the source. *)
(* ================================================================== *)

Module Regex.

Inductive regex : Type :=
| Eps : regex
| Chr : ascii -> regex                  (* a literal character *)
| Cls : (ascii -> bool) -> regex        (* a character class *)
| Seq : regex -> regex -> regex
| Alt : regex -> regex -> regex
| Star : bool -> regex -> regex         (* [r*] (true) or [r*?] (false) *)
| Grp : nat -> regex -> regex           (* capture group number n *)
| WordB : regex                         (* [\b] *)
| NegLook : regex -> regex.             (* [(?!r)] *)

(** The literal pattern denoted by a string without pattern
    metacharacters. *)
Fixpoint Lit (s : string) : regex :=
  match s with
  | EmptyString => Eps
  | String c s' => Seq (Chr c) (Lit s')
  end.

(** [r+] *)
Definition Plus (r : regex) : regex := Seq r (Star true r).

Fixpoint Cat (l : list regex) : regex :=
  match l with
  | [] => Eps
  | [r] => r
  | r :: l' => Seq r (Cat l')
  end.

Definition captures := list (nat * (nat * nat)).

Fixpoint getCap (n : nat) (c : captures) : option (nat * nat) :=
  match c with
  | [] => None
  | (k, v) :: t => if k =? n then Some v else getCap n t
  end.

Fixpoint groupsOf (r : regex) : list nat :=
  match r with
  | Seq a b | Alt a b => groupsOf a ++ groupsOf b
  | Star _ a | NegLook a => groupsOf a
  | Grp n a => n :: groupsOf a
  | _ => []
  end.

Definition clearCaps (gs : list nat) (c : captures) : captures :=
  filter (fun kv => negb (existsb (Nat.eqb (fst kv)) gs)) c.

Definition wordAt (s : string) (i : nat) : bool :=
  match String.get i s with
  | Some c => JS.isWordChar c
  | None => false
  end.

(** [\b] holds at [i] when exactly one of the code units before and at
    [i] is a word character. *)
Definition isWordBoundary (s : string) (i : nat) : bool :=
  xorb (match i with 0 => false | S j => wordAt s j end) (wordAt s i).

Definition orElse {A} (x : option A) (y : option A) : option A :=
  match x with
  | Some _ => x
  | None => y
  end.

Definition cont (R : Type) : Type := nat -> captures -> option R.

(** The iteration of [r*]: [body] matches one round of [r].  A round
    that consumes nothing is rejected, so that at most [length s] rounds
    happen and the counter [n], started above that, never reaches 0. *)
Fixpoint starLoop {R : Type} (body : nat -> captures -> cont R -> option R)
         (greedy : bool) (k : cont R) (n : nat) (i : nat) (c : captures)
         {struct n} : option R :=
  match n with
  | 0 => k i c
  | S n' =>
      let iter := body i c (fun j c' => if j =? i then None
                                        else starLoop body greedy k n' j c') in
      if greedy then orElse iter (k i c) else orElse (k i c) iter
  end.

(** [m s r i c k]: match [r] against [s] at index [i] with captures
    [c], then continue with [k]; alternatives are tried in the
    standard's priority order.  Each round of a star starts with the
    captures of the groups inside it cleared. *)
Fixpoint m (s : string) (r : regex) {R : Type} (i : nat) (c : captures)
         (k : cont R) {struct r} : option R :=
  match r with
  | Eps => k i c
  | Chr a =>
      match String.get i s with
      | Some b => if Ascii.eqb b a then k (S i) c else None
      | None => None
      end
  | Cls p =>
      match String.get i s with
      | Some b => if p b then k (S i) c else None
      | None => None
      end
  | Seq a b => m s a i c (fun j c' => m s b j c' k)
  | Alt a b => orElse (m s a i c k) (m s b i c k)
  | Star greedy a =>
      starLoop (fun i' c' k' => m s a i' (clearCaps (groupsOf a) c') k')
               greedy k (S (String.length s)) i c
  | Grp n a => m s a i c (fun j c' => k j ((n, (i, j)) :: c'))
  | WordB => if isWordBoundary s i then k i c else None
  | NegLook a =>
      match m s a i c (fun _ _ => Some tt) with
      | Some _ => None
      | None => k i c
      end
  end.

(** One attempt of the pattern at index [i]: the end index and the
    captures of the first successful alternative. *)
Definition matchAt (r : regex) (s : string) (i : nat) : option (nat * captures) :=
  m s r i [] (fun j c => Some (j, c)).

(** The attempts at [i], [i+1], ..., [i+n]; the first success wins. *)
Fixpoint searchFrom (r : regex) (s : string) (n i : nat) : option (nat * nat * captures) :=
  match matchAt r s i with
  | Some (e, c) => Some (i, e, c)
  | None =>
      match n with
      | 0 => None
      | S n' => searchFrom r s n' (S i)
      end
  end.

(** The array returned by [exec]: element 0 is the matched text, element
    [g] the text of capture group [g] or [undefined]; [index] is where
    the match starts. *)
Record RegExpExecArray : Type := mkExec {
  elems : list (option string);
  index : nat
}.

Definition slice (s : string) (a b : nat) : string := String.substring a (b - a) s.

Definition mkArray (r : regex) (s : string) (i e : nat) (c : captures) : RegExpExecArray :=
  {| elems := Some (slice s i e)
              :: map (fun g => option_map (fun ab => slice s (fst ab) (snd ab)) (getCap g c))
                     (seq 1 (List.length (groupsOf r)));
     index := i |}.

(** [a[0]] *)
Definition matched (a : RegExpExecArray) : string :=
  match elems a with
  | Some t :: _ => t
  | _ => EmptyString
  end.

(** [r.exec(s)] for a pattern without the [g] flag: the search always
    starts at index 0 and leaves no state behind. *)
Definition exec (r : regex) (s : string) : option RegExpExecArray :=
  match searchFrom r s (String.length s) 0 with
  | Some (i, e, c) => Some (mkArray r s i e c)
  | None => None
  end.

(** [r.exec(s)] for a pattern with the [g] flag.  The search starts at
    the pattern object's [lastIndex]; a success stores the end of the
    match in [lastIndex], a failure resets it to 0.  The second
    component is the new [lastIndex]. *)
Definition execG (r : regex) (lastIndex : nat) (s : string) : option RegExpExecArray * nat :=
  if String.length s <? lastIndex then (None, 0)
  else match searchFrom r s (String.length s - lastIndex) lastIndex with
       | Some (i, e, c) => (Some (mkArray r s i e c), e)
       | None => (None, 0)
       end.

(** [r.test(s)] for a pattern without the [g] flag. *)
Definition test (r : regex) (s : string) : bool :=
  match exec r s with
  | Some _ => true
  | None => false
  end.

(** [s.split(r)] for a pattern without capture groups: the pattern is
    tried at each index [q] in turn; a match that ends at the start [p]
    of the pending piece is skipped.  (A match makes [q] advance after
    at most two rounds, hence the counter.) *)
Fixpoint splitLoop (r : regex) (s : string) (fuel p q : nat) (acc : list string)
  : list string :=
  match fuel with
  | 0 => acc ++ [slice s p (String.length s)]
  | S fuel' =>
      if q <? String.length s then
        match matchAt r s q with
        | None => splitLoop r s fuel' p (S q) acc
        | Some (e, _) =>
            let e := Nat.min e (String.length s) in
            if e =? p then splitLoop r s fuel' p (S q) acc
            else splitLoop r s fuel' e e (acc ++ [slice s p q])
        end
      else acc ++ [slice s p (String.length s)]
  end.

Definition splitRe (r : regex) (s : string) : list string :=
  if String.length s =? 0 then
    match matchAt r s 0 with
    | Some _ => []
    | None => [s]
    end
  else splitLoop r s (2 * String.length s + 2) 0 0 [].

End Regex.

Import Regex.

(* ================================================================== *)
(** * The patterns of the code parser *)
(* ================================================================== *)

Definition keywords3 : regex := Alt (Lit "def") (Alt (Lit "thread") (Lit "global")).

Definition anyChar : regex := Cls JS.isNotLineTerminator.

(** [(\(.*\):)*] with its group numbered [g]. *)
Definition headerTail (g : nat) : regex :=
  Star true (Grp g (Cat [Chr "("; Star true anyChar; Chr ")"; Chr ":"])).

(** [namePat = /\b(?!def|thread|global)\w+/] *)
Definition namePat : regex :=
  Cat [WordB; NegLook keywords3; Plus (Cls JS.isWordChar)].

(** [paramPat = /\((.*?)\)/] *)
Definition paramPat : regex :=
  Cat [Chr "("; Grp 1 (Star false anyChar); Chr ")"].

(** [new RegExp(`\b(def|thread|global)\s+${keyword}.*(\(.*\):)*`, "gm")].
    The keyword is spliced into the pattern source.  The embedding reads
    it as a literal, which is what the splice denotes for a keyword made
    of word characters (the word under the cursor). *)
Definition mthdPat (keyword : string) : regex :=
  Cat [WordB; Grp 1 keywords3; Plus (Cls JS.isWhiteSpace); Lit keyword;
       Star true anyChar; headerTail 2].

(** [new RegExp(`\b(def)\s+${keyword}.*(\(.*\):)*`, "gm")] of
    [getSignatureFromFile]. *)
Definition defPat (keyword : string) : regex :=
  Cat [WordB; Grp 1 (Lit "def"); Plus (Cls JS.isWhiteSpace); Lit keyword;
       Star true anyChar; headerTail 2].

(** Keywords for which the splice is literal. *)
Definition wordKeyword (keyword : string) : bool :=
  forallb JS.isWordChar (list_ascii_of_string keyword).

(** [l.replace(/#/g, '').trim()], the clean-up of a doc line in
    [findDoc]. *)
Definition stripLine (l : string) : string := JS.trim (JS.removeAll "#" l).

(* ================================================================== *)
(** * Data model *)
(* ================================================================== *)

(** The object returned by [parseDocParam]; the fields are the keys
    ["Label"], ["Type"], ["Comment"] and ["Default"]. *)
Record DocParam : Type := mkDocParam {
  paramLabel : string;
  paramType : string;
  paramComment : string;
  paramDefault : string
}.

(** The object returned by [parseDocReturn]: ["ReturnType"], ["Return"]. *)
Record DocReturn : Type := mkDocReturn {
  retReturnType : string;
  retReturn : string
}.

(** The anonymous [info] object that [findDoc] hands to the
    [ScriptMethod] constructor. *)
Record DocInfo : Type := mkDocInfo {
  infoName : string;
  infoReturnType : string;
  infoReturn : string;
  infoDeprecated : string;
  infoComment : string;
  infoParameters : list DocParam
}.

(** The editor's value types, reduced to the fields the source sets. *)
Record MarkdownString : Type := mkMarkdown { value : string }.

Inductive CompletionItemKind : Type := KindFunction | KindVariable.

Inductive InsertText : Type :=
| PlainText : string -> InsertText
| SnippetString : string -> InsertText.

Record CompletionItem : Type := mkCompletionItem {
  label : string;
  kind : CompletionItemKind;
  detail : string;
  insertText : InsertText;
  documentation : option MarkdownString;
  commitCharacters : list string
}.

Inductive MarkedString : Type :=
| Markdown : MarkdownString -> MarkedString
| CodeBlock : string -> string -> MarkedString.   (* language, value *)

Record Hover : Type := mkHover { contents : list MarkedString }.

Record ParameterInformation : Type := mkParameterInformation {
  piLabel : string;
  piDocumentation : MarkdownString
}.

Record SignatureInformation : Type := mkSignatureInformation {
  siLabel : string;
  parameters : list ParameterInformation
}.

Record SignatureHelp : Type := mkSignatureHelp {
  activeParameter : Z;
  activeSignature : Z;
  signatures : list SignatureInformation
}.

Record Position : Type := mkPosition { line : nat; character : Z }.

Record Location : Type := mkLocation { uri : string; range : Position }.

(** ** Collaborators outside the analysed sources

    [str2Type], [type2Str] and the [ScriptMethod] class come from
    [scriptmethod.ts], [isBlank] from [utilities/checkString.ts]; neither
    file is part of the analysed sources, so they are an interface here.
    The development is generic in it. *)
Class Collaborators : Type := {
  Types : Type;
  str2Type : option string -> Types;
  type2Str : Types -> string;
  isBlank : string -> bool;
  ScriptMethod : Type;
  MethodParameter : Type;
  newScriptMethod : DocInfo -> ScriptMethod;
  Name : ScriptMethod -> string;
  Label : ScriptMethod -> string;
  Documentation : ScriptMethod -> MarkdownString;
  Parameters : ScriptMethod -> list MethodParameter;
  ParameterLabel : MethodParameter -> string;
  ParameterDocumentation : MethodParameter -> MarkdownString
}.

(* ================================================================== *)
(** * Doc-comment parser *)
(* ================================================================== *)

Definition sentinel : string := "###".

(** The separator ["  \n"] of the summary lines. *)
Definition summarySeparator : string := "  " ++ String (ascii_of_nat 10) "".

Section Parser.
Context {api : Collaborators}.

(** [parseDocParam(line)] *)
Definition parseDocParam (line : string) : DocParam :=
  let splitted := JS.split " " (JS.trim (JS.replaceFirst "@param" "" line)) in
  (* first = splitted.shift() *)
  let first := hd_error splitted in
  let splitted := tl splitted in
  let label := match first with
               | Some f => if JS.truthy f then f else ""
               | None => ""
               end in
  (* type = str2Type(splitted.shift()) *)
  let type := str2Type (hd_error splitted) in
  let splitted := tl splitted in
  let comment := JS.join " " splitted in
  {| paramLabel := label;
     paramType := type2Str type;
     paramComment := comment;
     paramDefault := "" |}.

(** [parseDocReturn(line?)] *)
Definition parseDocReturn (line : option string) : option DocReturn :=
  match line with
  | Some l =>
      if JS.truthy l then
        let splitted := JS.split " " (JS.trim (JS.replaceFirst "@returns" "" l)) in
        let type := str2Type (hd_error splitted) in
        let splitted := tl splitted in
        let comment := JS.join " " splitted in
        Some {| retReturnType := type2Str type; retReturn := comment |}
      else None
  | None => None
  end.

(** The backward loop of [findDoc]: the largest [idx < n] with
    [lines[idx] === '###']. *)
Fixpoint searchBack (lines : list string) (n : nat) : option nat :=
  match n with
  | 0 => None
  | S idx =>
      match nth_error lines idx with
      | Some l => if String.eqb l sentinel then Some idx else searchBack lines idx
      | None => searchBack lines idx
      end
  end.

(** [findDoc(name, lines?)] up to the construction of the [info]
    object. *)
Definition findDocInfo (name : string) (lines : option (list string)) : option DocInfo :=
  match lines with
  | None => None
  | Some lines =>
      match nth_error lines (List.length lines - 1) with
      | Some l =>
          if String.eqb l sentinel then
            let endIndex := List.length lines - 1 in
            match searchBack lines (List.length lines - 1) with
            | Some startIndex =>
                if startIndex <? endIndex then
                  let doc := map stripLine
                               (firstn (endIndex - (startIndex + 1))
                                  (skipn (startIndex + 1) lines)) in
                  let params := map parseDocParam
                                  (filter (JS.startsWith "@param") doc) in
                  let returns := parseDocReturn
                                   (find (JS.startsWith "@returns") doc) in
                  let summary := JS.join summarySeparator
                                   (filter (fun l => negb (JS.startsWith "@" l)) doc) in
                  Some {| infoName := name;
                          infoReturnType := match returns with
                                            | Some r => retReturnType r
                                            | None => "None"
                                            end;
                          infoReturn := match returns with
                                        | Some r => retReturn r
                                        | None => ""
                                        end;
                          infoDeprecated := "";
                          infoComment := summary;
                          infoParameters := params |}
                else None
            | None => None
            end
          else None
      | None => None
      end
  end.

(** [findDoc(name, lines?)] *)
Definition findDoc (name : string) (lines : option (list string)) : option ScriptMethod :=
  option_map newScriptMethod (findDocInfo name lines).

End Parser.

(* ================================================================== *)
(** * Symbol descriptor builders *)
(* ================================================================== *)

Section Builders.
Context {api : Collaborators}.

(** [param.map(p => `\${${signIdx++}:${p}}`)], [signIdx] starting at
    [n]. *)
Fixpoint placeholders (n : nat) (param : list string) : list string :=
  match param with
  | [] => []
  | p :: rest => ("${" ++ JS.numToString n ++ ":" ++ p ++ "}") :: placeholders (S n) rest
  end.

(** The completion item that [parseCmpItem] builds for a matched text
    [value] with extracted name [name]. *)
Definition buildCmpItem (value name : string) (oldLines : option (list string))
  : CompletionItem :=
  let commit := [String (ascii_of_nat 9) ""; " "; String (ascii_of_nat 10) ""] in
  let doc := findDoc name oldLines in
  let documentation := option_map Documentation doc in
  if test (Lit "global") value then
    {| label := name; kind := KindVariable; detail := "global " ++ name;
       insertText := PlainText name;
       documentation := documentation; commitCharacters := commit |}
  else if test (Lit "thread") value then
    {| label := name; kind := KindVariable; detail := "thread " ++ name;
       insertText := PlainText (name ++ "()");
       documentation := documentation; commitCharacters := commit |}
  else
    match doc with
    | Some d =>
        {| label := name; kind := KindFunction; detail := Label d;
           insertText := SnippetString (Name d);
           documentation := documentation; commitCharacters := commit ++ ["("] |}
    | None =>
        let bare :=
          {| label := name; kind := KindFunction; detail := name;
             insertText := SnippetString (name ++ "()$0");
             documentation := documentation; commitCharacters := commit |} in
        match exec paramPat value with
        | Some paramReg =>
            match nth_error (elems paramReg) 1 with
            | Some (Some p1) =>
                if negb (isBlank p1) then
                  let param := map JS.trim (JS.split "," p1) in
                  let sign := placeholders 1 param in
                  {| label := name; kind := KindFunction;
                     detail := name ++ "(" ++ JS.join ", " param ++ ")";
                     insertText := SnippetString
                                     (name ++ "(" ++ JS.join ", " sign ++ ")$0");
                     documentation := documentation; commitCharacters := commit |}
                else bare
            | _ => bare
            end
        | None => bare
        end
    end.

(** The callback of [matchResult.forEach] in [parseCmpItem]. *)
Definition cmpStep (oldLines : option (list string)) (cmpItems : list CompletionItem)
           (value : option string) : list CompletionItem :=
  match value with
  | Some v =>
      if JS.truthy v then
        match exec namePat v with
        | Some nameReg =>
            let name := matched nameReg in
            if existsb (fun cmp => String.eqb (label cmp) name) cmpItems
            then cmpItems
            else cmpItems ++ [buildCmpItem v name oldLines]
        | None => cmpItems
        end
      else cmpItems
  | None => cmpItems
  end.

(** [parseCmpItem(matchResult, cmpItems, oldLines?)]; the result is the
    collection after the pushes. *)
Definition parseCmpItem (matchResult : option RegExpExecArray)
           (cmpItems : list CompletionItem) (oldLines : option (list string))
  : list CompletionItem :=
  match matchResult with
  | None => cmpItems
  | Some a => fold_left (cmpStep oldLines) (elems a) cmpItems
  end.

(** [parseHover(matchResult, oldLines?)] *)
Definition parseHover (matchResult : option RegExpExecArray)
           (oldLines : option (list string)) : option Hover :=
  match matchResult with
  | None => None
  | Some a =>
      let step := matched a in
      match exec namePat step with
      | Some nameReg =>
          let name := matched nameReg in
          let doc := findDoc name oldLines in
          let items :=
            if test (Lit "global") step then
              [CodeBlock "urscript" ("global " ++ name)]
            else if test (Lit "thread") step then
              [CodeBlock "urscript" ("thread  " ++ name)]
            else
              match doc with
              | Some d => [CodeBlock "urscript" (Label d)]
              | None =>
                  Markdown (mkMarkdown "*user function*")
                  :: match exec paramPat step with
                     | Some paramReg =>
                         match nth_error (elems paramReg) 1 with
                         | Some (Some p1) =>
                             let param := map JS.trim (JS.split "," p1) in
                             [Markdown (mkMarkdown
                                          (name ++ "(" ++ JS.join ", " param ++ ")"))]
                         | _ => [Markdown (mkMarkdown (name ++ "()"))]
                         end
                     | None => [Markdown (mkMarkdown (name ++ "()"))]
                     end
              end in
          Some {| contents := items ++ match doc with
                                       | Some d => [Markdown (Documentation d)]
                                       | None => []
                                       end |}
      | None => None
      end
  end.

(** The [SignatureHelp] that [parseSignature] builds from a found doc. *)
Definition signatureOf (doc : ScriptMethod) : SignatureHelp :=
  let sigPara := map (fun para => {| piLabel := ParameterLabel para;
                                     piDocumentation := ParameterDocumentation para |})
                     (Parameters doc) in
  {| activeParameter := 0;
     activeSignature := 0;
     signatures := [ {| siLabel := Label doc; parameters := sigPara |} ] |}.

(** [parseSignature(matchResult, oldLines?)] *)
Definition parseSignature (matchResult : option RegExpExecArray)
           (oldLines : option (list string)) : option SignatureHelp :=
  match matchResult with
  | None => None
  | Some a =>
      let step := matched a in
      match exec namePat step with
      | Some nameReg =>
          match findDoc (matched nameReg) oldLines with
          | Some doc => Some (signatureOf doc)
          | None => None
          end
      | None => None
      end
  end.

End Builders.

(* ================================================================== *)
(** * Scan drivers *)
(* ================================================================== *)

(** A packet yielded by the line reader: [pkg.line] (absent when falsy)
    and [pkg.lineNo]. *)
Record LinePacket : Type := mkPacket {
  pktLine : option string;
  lineNo : nat
}.

(** The file system as the scans see it: the packets of a readable file
    ([None] for a missing or unreadable one) and the entries of a
    folder ([fs.readdirSync]). *)
Record FileSystem : Type := mkFileSystem {
  fileLines : string -> option (list LinePacket);
  readdirSync : string -> list string
}.

(** Modelled from the spec: the line reader [ReadLinesSync] of
    [utilities/readLines.ts], which is not part of the analysed sources.
    It yields the packets of the file in order, and "a missing or
    unreadable file simply yields an empty result for that file". *)
Definition ReadLinesSync (fs : FileSystem) (fileName : string) : list LinePacket :=
  match fileLines fs fileName with
  | Some pkgs => pkgs
  | None => []
  end.

Record WorkspaceFolder : Type := mkWorkspaceFolder { fsPath : string }.

Definition backslash : string := String (ascii_of_nat 92) "".

(** [/.*[\/|\\]/] *)
Definition separatorPat : regex :=
  Cat [Star true anyChar;
       Cls (fun c => let n := nat_of_ascii c in (n =? 47) || (n =? 124) || (n =? 92))].

(** [explored.split(/.*[\/|\\]/)[1]] *)
Definition exploredName (explored : string) : option string :=
  nth_error (splitRe separatorPat explored) 1.

(** [file !== explored.split(...)[1]] *)
Definition notExplored (explored file : string) : bool :=
  match exploredName explored with
  | Some e => negb (String.eqb file e)
  | None => true
  end.

(** The window update shared by the three file scans:
    [if (oldLines.length > 20) oldLines.shift(); oldLines.push(cur)]. *)
Definition pushWindow (oldLines : list string) (cur : string) : list string :=
  (if 20 <? List.length oldLines then tl oldLines else oldLines) ++ [cur].

Section Drivers.
Context {api : Collaborators}.

(** The [while (match = mthdPat.exec(text))] loop of
    [getCompletionItemsFromText]; [lastIndex] is the state of the
    pattern object. *)
Fixpoint textLoop (fuel : nat) (pat : regex) (text : string) (lastIndex : nat)
         (cmpItems : list CompletionItem) : list CompletionItem :=
  match fuel with
  | 0 => cmpItems
  | S fuel' =>
      match execG pat lastIndex text with
      | (Some a, lastIndex') =>
          textLoop fuel' pat text lastIndex' (parseCmpItem (Some a) cmpItems None)
      | (None, _) => cmpItems
      end
  end.

(** [getCompletionItemsFromText(text, keyword, cmpItems)].  Every match
    consumes at least one character, so the loop runs at most
    [length text] times. *)
Definition getCompletionItemsFromText (text keyword : string)
           (cmpItems : list CompletionItem) : list CompletionItem :=
  textLoop (S (String.length text)) (mthdPat keyword) text 0 cmpItems.

(** State of the loop of [getCompletionItemsFromFile]. *)
Record CmpScan : Type := mkCmpScan {
  cmpLastIndex : nat;
  cmpOldLines : list string;
  cmpItems : list CompletionItem
}.

Definition cmpFileStep (pat : regex) (st : CmpScan) (pkg : LinePacket) : CmpScan :=
  match pktLine pkg with
  | Some raw =>
      let cur := JS.trim raw in
      let '(mt, lastIndex') := execG pat (cmpLastIndex st) cur in
      {| cmpLastIndex := lastIndex';
         cmpOldLines := pushWindow (cmpOldLines st) cur;
         cmpItems := parseCmpItem mt (cmpItems st) (Some (cmpOldLines st)) |}
  | None => st
  end.

Definition cmpFileScan (fs : FileSystem) (fileName keyword : string)
           (items : list CompletionItem) : CmpScan :=
  fold_left (cmpFileStep (mthdPat keyword)) (ReadLinesSync fs fileName)
            {| cmpLastIndex := 0; cmpOldLines := []; cmpItems := items |}.

(** [getCompletionItemsFromFile(fileName, keyword, cmpItems)] *)
Definition getCompletionItemsFromFile (fs : FileSystem) (fileName keyword : string)
           (items : list CompletionItem) : list CompletionItem :=
  cmpItems (cmpFileScan fs fileName keyword items).

(** [getCompletionItemsFromWorkspace(workspace, keyword, cmpItems)] *)
Definition getCompletionItemsFromWorkspace (fs : FileSystem) (workspace : WorkspaceFolder)
           (keyword : string) (items : list CompletionItem) : list CompletionItem :=
  let files := map (fun file => fsPath workspace ++ backslash ++ file)
                   (filter (JS.endsWith ".script") (readdirSync fs (fsPath workspace))) in
  fold_left (fun acc file => getCompletionItemsFromFile fs file keyword acc) files items.

(** The loop shared by [getHoverFromFile] and [getSignatureFromFile]:
    stop at the first line for which [build] yields a result. *)
Fixpoint scanFirst {A : Type}
         (build : option RegExpExecArray -> option (list string) -> option A)
         (pat : regex) (pkgs : list LinePacket) (lastIndex : nat)
         (oldLines : list string) : option A :=
  match pkgs with
  | [] => None
  | pkg :: rest =>
      match pktLine pkg with
      | Some raw =>
          let cur := JS.trim raw in
          let '(mt, lastIndex') := execG pat lastIndex cur in
          match build mt (Some oldLines) with
          | Some r => Some r
          | None => scanFirst build pat rest lastIndex' (pushWindow oldLines cur)
          end
      | None => scanFirst build pat rest lastIndex oldLines
      end
  end.

(** [getHoverFromText(text, keyword)] *)
Definition getHoverFromText (text keyword : string) : option Hover :=
  parseHover (fst (execG (mthdPat keyword) 0 text)) None.

(** [getHoverFromFile(fileName, keyword)] *)
Definition getHoverFromFile (fs : FileSystem) (fileName keyword : string) : option Hover :=
  scanFirst parseHover (mthdPat keyword) (ReadLinesSync fs fileName) 0 [].

(** [getSignatureFromFile(fileName, keyword)] *)
Definition getSignatureFromFile (fs : FileSystem) (fileName keyword : string)
  : option SignatureHelp :=
  scanFirst parseSignature (defPat keyword) (ReadLinesSync fs fileName) 0 [].

(** The files a lookup scan visits:
    [readdirSync(...).filter(...).map(file => `${fsPath}\\${file}`)]. *)
Definition lookupFiles (fs : FileSystem) (workspace : WorkspaceFolder) (explored : string)
  : list string :=
  map (fun file => fsPath workspace ++ backslash ++ file)
      (filter (fun file => JS.endsWith ".script" file && notExplored explored file)
              (readdirSync fs (fsPath workspace))).

(** [for (const file of files) { r = f(file); if (r) break; }] *)
Fixpoint firstResult {F A : Type} (f : F -> option A) (files : list F) : option A :=
  match files with
  | [] => None
  | file :: rest =>
      match f file with
      | Some r => Some r
      | None => firstResult f rest
      end
  end.

(** [getHoverFromWorkspace(workspace, keyword, explored)] *)
Definition getHoverFromWorkspace (fs : FileSystem) (workspace : WorkspaceFolder)
           (keyword explored : string) : option Hover :=
  firstResult (fun file => getHoverFromFile fs file keyword)
              (lookupFiles fs workspace explored).

(** [getSignatureFromWorkspace(workspace, keyword, explored)] *)
Definition getSignatureFromWorkspace (fs : FileSystem) (workspace : WorkspaceFolder)
           (keyword explored : string) : option SignatureHelp :=
  firstResult (fun file => getSignatureFromFile fs file keyword)
              (lookupFiles fs workspace explored).

(** State of the loop of [getLocationFromFile]: the [lastIndex] of the
    two pattern objects of the function (both carry the [g] flag) and
    the collection. *)
Record LocScan : Type := mkLocScan {
  mthdLastIndex : nat;
  nameLastIndex : nat;
  locColl : list Location
}.

Definition locStep (fileName : string) (pat : regex) (st : LocScan) (ret : LinePacket)
  : LocScan :=
  match pktLine ret with
  | Some raw =>
      match execG pat (mthdLastIndex st) raw with
      | (Some a, mi) =>
          match execG namePat (nameLastIndex st) (matched a) with
          | (Some nameReg, ni) =>
              {| mthdLastIndex := mi;
                 nameLastIndex := ni;
                 locColl := locColl st
                            ++ [ {| uri := fileName;
                                    range := {| line := lineNo ret;
                                                character := Z.of_nat (index nameReg) |} |} ] |}
          | (None, ni) =>
              {| mthdLastIndex := mi; nameLastIndex := ni; locColl := locColl st |}
          end
      | (None, mi) =>
          {| mthdLastIndex := mi; nameLastIndex := nameLastIndex st; locColl := locColl st |}
      end
  | None => st
  end.

(** [getLocationFromFile(fileName, keyword)] *)
Definition getLocationFromFile (fs : FileSystem) (fileName keyword : string)
  : list Location :=
  locColl (fold_left (locStep fileName (mthdPat keyword)) (ReadLinesSync fs fileName)
                     {| mthdLastIndex := 0; nameLastIndex := 0; locColl := [] |}).

(** [getLocationFromWorkspace(workspace, keyword, explored)] *)
Definition getLocationFromWorkspace (fs : FileSystem) (workspace : WorkspaceFolder)
           (keyword explored : string) : list Location :=
  fold_left (fun acc file => (acc ++ getLocationFromFile fs file keyword)%list)
            (lookupFiles fs workspace explored) [].

End Drivers.

(* ================================================================== *)
(** * Interactive signature lookup *)
(* ================================================================== *)

(** [document.lineAt(position)] *)
Record TextLine : Type := mkTextLine { text : string; lineNumber : nat }.

Record TextDocument : Type := mkTextDocument {
  fileName : string;
  docLines : list string
}.

(** A reference to a [SignatureHelp] object.  The objects the provider
    itself holds are the [Item]s of its catalog, one per entry, created
    by the constructor of [ScriptSignature]; every other object is built
    by a search of the document or of the workspace and held by the
    editor alone, so that its contents stand for it. *)
Inductive HelpRef : Type :=
| ItemOf (n : nat)                   (* [this.scriptSignatures[n].Item] *)
| Detached (help : SignatureHelp).   (* an object that no catalog entry holds *)

(** [context.activeSignatureHelp] is the object the editor hands back:
    the one a previous call returned, or a copy of it. *)
Record SignatureHelpContext : Type := mkContext {
  isRetrigger : bool;
  activeSignatureHelp : option HelpRef
}.

(** An entry of the built-in catalog: [Name] and [Item]. *)
Record ScriptSignature : Type := mkScriptSignature {
  sigName : string;
  sigItem : SignatureHelp
}.

(** The contents of the object behind a reference, the catalog being
    [sigs]. *)
Definition derefHelp (sigs : list ScriptSignature) (ref : HelpRef) : option SignatureHelp :=
  match ref with
  | ItemOf n => option_map sigItem (nth_error sigs n)
  | Detached help => Some help
  end.

(** What the caller reads in the object a call returned. *)
Definition returnedHelp (result : option HelpRef * list ScriptSignature)
  : option SignatureHelp :=
  match fst result with
  | Some ref => derefHelp (snd result) ref
  | None => None
  end.

(** The index of the element [find] returns. *)
Fixpoint findIndex {A : Type} (f : A -> bool) (l : list A) : nat :=
  match l with
  | [] => 0
  | x :: rest => if f x then 0 else S (findIndex f rest)
  end.

(** [help.activeParameter = index] *)
Definition setActiveParameter (index : Z) (help : SignatureHelp) : SignatureHelp :=
  {| activeParameter := index;
     activeSignature := activeSignature help;
     signatures := signatures help |}.

(** [help.activeParameter = index] where [help] is the [Item] of the
    catalog entry [n]: the entry is changed in place. *)
Fixpoint writeActiveParameter (n : nat) (index : Z) (sigs : list ScriptSignature)
  : list ScriptSignature :=
  match sigs, n with
  | [], _ => []
  | sig :: rest, 0 =>
      {| sigName := sigName sig; sigItem := setActiveParameter index (sigItem sig) |} :: rest
  | sig :: rest, S n' => sig :: writeActiveParameter n' index rest
  end.

(** [document.lineAt(position)]: a line number outside the document
    throws, which the provider's [catch] turns into [undefined]. *)
Definition lineAt (document : TextDocument) (position : Position) : option TextLine :=
  match nth_error (docLines document) (line position) with
  | Some t => Some {| text := t; lineNumber := line position |}
  | None => None
  end.

Definition isSome {A : Type} (o : option A) : bool :=
  match o with
  | Some _ => true
  | None => false
  end.

(** [matched.Item.activeParameter = 0; matched.Item.activeSignature = 0]
    on the first catalog entry named [word], the one [find] returns. *)
Fixpoint resetMatched (word : string) (sigs : list ScriptSignature) : list ScriptSignature :=
  match sigs with
  | [] => []
  | sig :: rest =>
      if String.eqb (sigName sig) word then
        {| sigName := sigName sig;
           sigItem := {| activeParameter := 0; activeSignature := 0;
                         signatures := signatures (sigItem sig) |} |} :: rest
      else sig :: resetMatched word rest
  end.

Section Provider.
  Context {api : Collaborators}.

  (** The editor and the parts of the code parser that are not among the
      analysed sources: [wordBefore document line character] is
      [document.getText(document.getWordRangeAtPosition(new Position(line,
      character)))], [None] when one of these calls throws;
      [getSignatureFromDocument] is imported from the code parser but not
      defined in the analysed part of it. *)
  Variable wordBefore : TextDocument -> nat -> Z -> option string.
  Variable getSignatureFromDocument : TextDocument -> string -> option SignatureHelp.
  Variable fs : FileSystem.

(** [new ScriptSignature(mthd)] *)
Definition newScriptSignature (mthd : ScriptMethod) : ScriptSignature :=
  {| sigName := Name mthd; sigItem := signatureOf mthd |}.

(** [provideSignatureHelp(document, position, token, context)].  The
    catalog [scriptSignatures] is the provider's state, returned with the
    result; [workspaceFolders] is [workspace.workspaceFolders].  The
    result is the object handed to the editor: on a retrigger the very
    object of the context, written to in place (a catalog entry changes
    when the object is its [Item]); on a catalog hit the [Item] of the
    entry found; otherwise the object a search built. *)
Definition provideSignatureHelp
           (scriptSignatures : list ScriptSignature)
           (workspaceFolders : option (list WorkspaceFolder))
           (document : TextDocument) (position : Position)
           (context : SignatureHelpContext)
  : option HelpRef * list ScriptSignature :=
  match lineAt document position with
  | None => (None, scriptSignatures)
  | Some line =>
      let parLeft := JS.indexOf "(" (text line) 0 in
      let parRight := JS.indexOf ")" (text line) parLeft in
      if (character position <? parLeft)%Z || (parRight <? character position)%Z then
        (None, scriptSignatures)
      else
        match (if isRetrigger context then activeSignatureHelp context else None) with
        | Some ref =>
            let paraStr := JS.substr (text line) (parLeft + 1)
                                     (character position - parLeft - 1) in
            let paraAry := JS.split "," paraStr in
            let index := (Z.of_nat (List.length paraAry) - 1)%Z in
            match ref with
            | ItemOf n =>
                (Some (ItemOf n), writeActiveParameter n index scriptSignatures)
            | Detached help =>
                (Some (Detached (setActiveParameter index help)), scriptSignatures)
            end
        | None =>
            match wordBefore document (lineNumber line) (parLeft - 1) with
            | None => (None, scriptSignatures)
            | Some word =>
                let named := fun sig => String.eqb (sigName sig) word in
                match find named scriptSignatures with
                | Some matched =>
                    (Some (ItemOf (findIndex named scriptSignatures)),
                     resetMatched word scriptSignatures)
                | None =>
                    let sigHelp := getSignatureFromDocument document word in
                    match sigHelp, workspaceFolders with
                    | None, Some folders =>
                        (option_map Detached
                           (firstResult
                              (fun fold => getSignatureFromWorkspace fs fold word
                                                                     (fileName document))
                              folders),
                         scriptSignatures)
                    | _, _ => (option_map Detached sigHelp, scriptSignatures)
                    end
                end
            end
        end
  end.

End Provider.

(* ================================================================== *)
(** * A concrete instance of the collaborators, for the examples *)
(* ================================================================== *)

(** Modelled from the spec: the type-normalization table of
    [scriptmethod.ts] ("unrecognized tokens map to a generic/untyped
    sentinel"), with the two type names the spec's examples use, and the
    untyped sentinel ['None'] that [findDoc] itself writes when a block
    has no [@returns] line. *)
Inductive DemoTypes : Type := TNone | TBool | TNumber.

Definition demoStr2Type (o : option string) : DemoTypes :=
  match o with
  | Some t => if String.eqb t "bool" then TBool
              else if String.eqb t "number" then TNumber
              else TNone
  | None => TNone
  end.

Definition demoType2Str (t : DemoTypes) : string :=
  match t with
  | TNone => "None"
  | TBool => "bool"
  | TNumber => "number"
  end.

(** Modelled from the spec: a [ScriptMethod] that keeps the descriptor
    it is built from (name, parameters, summary), and a blank test
    ([utilities/checkString.ts]) that holds of strings of white space. *)
#[local] Instance demoApi : Collaborators := {|
  Types := DemoTypes;
  str2Type := demoStr2Type;
  type2Str := demoType2Str;
  isBlank := fun s => String.eqb (JS.trim s) "";
  ScriptMethod := DocInfo;
  MethodParameter := DocParam;
  newScriptMethod := fun info => info;
  Name := infoName;
  Label := fun d => infoName d ++ "(" ++ JS.join ", " (map paramLabel (infoParameters d)) ++ ")";
  Documentation := fun d => mkMarkdown (infoComment d);
  Parameters := infoParameters;
  ParameterLabel := paramLabel;
  ParameterDocumentation := fun p => mkMarkdown (paramComment p)
|}.

(* ================================================================== *)
(** * Notions used to state the properties *)
(* ================================================================== *)

(** The last [n] elements of a list (all of it when it is shorter). *)
Definition lastn {A : Type} (n : nat) (l : list A) : list A :=
  skipn (List.length l - n) l.

(** The lines a file scan feeds to its window: the trimmed text of the
    packets that carry a line. *)
Definition fedLines (pkgs : list LinePacket) : list string :=
  flat_map (fun pkg => match pktLine pkg with
                       | Some raw => [JS.trim raw]
                       | None => []
                       end) pkgs.

(** The [lastIndex] of a scan's pattern object after the packets [pkgs]. *)
Definition lastIndexAfter (pat : regex) (pkgs : list LinePacket) (lastIndex : nat) : nat :=
  fold_left (fun li pkg => match pktLine pkg with
                           | Some raw => snd (execG pat li (JS.trim raw))
                           | None => li
                           end) pkgs lastIndex.

(** A window holds a documentation block when its last line is the
    sentinel and an earlier line is the sentinel too. *)
Definition hasBlock (lines : list string) : bool :=
  match rev lines with
  | [] => false
  | l :: before => String.eqb l sentinel && existsb (String.eqb sentinel) before
  end.

(** Number of occurrences of a character in a string. *)
Fixpoint countChar (c : ascii) (s : string) : nat :=
  match s with
  | EmptyString => 0
  | String d s' => (if Ascii.eqb d c then 1 else 0) + countChar c s'
  end.

(** [p] occurs in [s]. *)
Fixpoint includes (p s : string) : bool :=
  String.prefix p s
  || match s with
     | EmptyString => false
     | String _ s' => includes p s'
     end.

(** A token of a doc line: not empty, no white space and no [#]. *)
Definition tokenChar (c : ascii) : bool :=
  negb (JS.isWhiteSpace c) && negb (Ascii.eqb c "#").

Fixpoint forallChars (p : ascii -> bool) (s : string) : bool :=
  match s with
  | EmptyString => true
  | String c s' => p c && forallChars p s'
  end.

Definition isToken (t : string) : bool :=
  negb (String.eqb t "") && forallChars tokenChar t.

(** A doc line as it is written in a block: the comment leader, then
    the tokens separated by single spaces. *)
Definition docLine (tokens : list string) : string :=
  "# " ++ JS.join " " tokens.

(** A line of a block that is neither the sentinel nor, once stripped,
    a [@param] or [@returns] line: summary prose or another tag. *)
Definition isOtherLine (l : string) : bool :=
  negb (String.eqb l sentinel)
  && negb (JS.startsWith "@param" (stripLine l))
  && negb (JS.startsWith "@returns" (stripLine l)).

(** The summary [findDoc] makes of such lines. *)
Definition summaryOf (lines : list string) : string :=
  JS.join summarySeparator
          (filter (fun l => negb (JS.startsWith "@" l)) (map stripLine lines)).

Definition readable (fs : FileSystem) (file : string) : bool :=
  isSome (fileLines fs file).

(** ** Example inputs *)

Definition packets (lines : list string) : list LinePacket :=
  map (fun nl => mkPacket (Some (snd nl)) (fst nl))
      (combine (seq 0 (List.length lines)) lines).

(** A file system with the given files (path, lines) and one folder
    listing [dir]. *)
Definition fsOf (files : list (string * list string)) (dir : list string) : FileSystem :=
  {| fileLines := fun path =>
                    option_map (fun kv => packets (snd kv))
                               (find (fun kv => String.eqb (fst kv) path) files);
     readdirSync := fun _ => dir |}.

Definition lines25 : list string :=
  map (fun n => "line" ++ JS.numToString n) (seq 1 25).

Definition fs25 : FileSystem := fsOf [("prog.script", lines25)] ["prog.script"].

(** The session of the spec's example: the cursor sits before the
    closing parenthesis of [add(1,2,)] and the editor retriggers with the
    signature of [add] it showed before. *)
Definition addHelp : SignatureHelp :=
  {| activeParameter := 0;
     activeSignature := 0;
     signatures := [ {| siLabel := "add(a, b)";
                        parameters := [ {| piLabel := "a"; piDocumentation := mkMarkdown "first" |};
                                        {| piLabel := "b"; piDocumentation := mkMarkdown "second" |} ] |} ] |}.

Definition callDocument : TextDocument :=
  {| fileName := "main.script"; docLines := ["add(1,2,)"] |}.

Definition wordAdd : TextDocument -> nat -> Z -> option string :=
  fun _ _ _ => Some "add".

Definition noDocumentSignature : TextDocument -> string -> option SignatureHelp :=
  fun _ _ => None.

Definition emptyFs : FileSystem := fsOf [] [].

(** The retrigger that follows a catalog hit: the editor hands back the
    object the hit returned, the [Item] of the first catalog entry. *)
Definition retrigger : SignatureHelpContext :=
  {| isRetrigger := true; activeSignatureHelp := Some (ItemOf 0) |}.

(** The same retrigger when the editor hands back a copy of that
    signature instead of the catalog's object. *)
Definition retriggerCopy : SignatureHelpContext :=
  {| isRetrigger := true; activeSignatureHelp := Some (Detached addHelp) |}.

Definition freshTrigger : SignatureHelpContext :=
  {| isRetrigger := false; activeSignatureHelp := None |}.

Definition addEntry : ScriptSignature :=
  {| sigName := "add";
     sigItem := {| activeParameter := 1; activeSignature := 0;
                   signatures := signatures addHelp |} |}.

Definition addCatalog : list ScriptSignature := [addEntry].

(** The text of the spec's duplicate-declaration example. *)
Definition duplicateText : string :=
  "def foo(a, b):" ++ String (ascii_of_nat 10) "" ++ "def foo(a, b):".

(** A lower bound on the number of characters a pattern consumes. *)
Fixpoint minLen (r : regex) : nat :=
  match r with
  | Chr _ | Cls _ => 1
  | Seq a b => minLen a + minLen b
  | Alt a b => Nat.min (minLen a) (minLen b)
  | Grp _ a => minLen a
  | _ => 0
  end.

(** A documented [thread] declaration and an undocumented [def]. *)
Definition threadFile : list string :=
  ["###"; "# adds two numbers"; "# @param a number first"; "###"; "thread add():"].

Definition threadFs : FileSystem := fsOf [("prog.script", threadFile)] ["prog.script"].

Definition undocumentedFile : list string := ["x = 1"; "def foo(a, b):"].

Definition undocumentedFs : FileSystem :=
  fsOf [("prog.script", undocumentedFile)] ["prog.script"].

(** A block whose parameter comment holds a [#]. *)
Definition hashBlock : list string :=
  ["###"; "# @param a number item #3"; "# @returns number sum"; "###"].

(** A workspace folder of three script files. *)
Definition wsFolder : WorkspaceFolder := {| fsPath := "ws" |}.

Definition pathIn (file : string) : string := "ws" ++ backslash ++ file.

(** The second file cannot be read; the other two declare [move]. *)
Definition brokenFs : FileSystem :=
  fsOf [(pathIn "a.script", ["def move(p):"]);
        (pathIn "c.script", ["x = 1"; "thread move():"])]
       ["a.script"; "b.script"; "c.script"].

(** Only the second file declares [move], inside the program function,
    hence indented. *)
Definition indentedFs : FileSystem :=
  fsOf [(pathIn "a.script", ["def prog():"; "  x = 1"; "end"]);
        (pathIn "b.script", ["def prog():"; "  def move(p):"; "  end"; "end"]);
        (pathIn "c.script", ["y = 2"])]
       ["a.script"; "b.script"; "c.script"].

(** Two declarations of [move] in one file, at column 0. *)
Definition twiceFs : FileSystem :=
  fsOf [(pathIn "a.script", ["def move(p):"; "x"; "def move(q):"])] ["a.script"].

(** A documented [def] whose block spans [2 + n] lines. *)
Definition longBlockFile (n : nat) : list string :=
  ("###" :: map (fun k => ("# line " ++ JS.numToString k)%string) (seq 1 n)
         ++ ["###"; "def foo():"])%list.

Definition longBlockFs (n : nat) : FileSystem :=
  fsOf [("prog.script", longBlockFile n)] ["prog.script"].

(** The same call without its closing parenthesis. *)
Definition openCallDocument : TextDocument :=
  {| fileName := "main.script"; docLines := ["add(1,2,"] |}.

(** ** Notions for the further properties *)

(** A name as [namePat] extracts it: not empty, word characters only. *)
Definition isIdentifier (t : string) : bool :=
  negb (String.eqb t "") && forallChars JS.isWordChar t.

(** The characters of the class in [separatorPat]: slash, bar and
    backslash. *)
Definition isSeparator (c : ascii) : bool :=
  let n := nat_of_ascii c in (n =? 47) || (n =? 124) || (n =? 92).

(** A string without line terminators. *)
Definition singleLine (s : string) : bool := forallChars JS.isNotLineTerminator s.

(** A window with an older block before the lines of interest. *)
Definition twoBlocks : list string :=
  ["###"; "# old text"; "###"; "x = 1"; "###"].

(** A workspace whose second file documents [add]. *)
Definition documentedFs : FileSystem :=
  fsOf [(pathIn "a.script", ["x = 1"]);
        (pathIn "b.script", ["###"; "# adds two numbers"; "# @param a number first";
                             "# @param b number second"; "# @returns number sum"; "###";
                             "def add(a, b):"])]
       ["a.script"; "b.script"; "notes.txt"].

(** A declaration directly after a longer declaration line. *)
Definition shadowedPackets : list LinePacket :=
  packets ["def foo(a, b):"; "def bar():"].




(* ================================================================== *)
(** * Properties *)
(* ================================================================== *)

(* ================================================================== *)
(** * The line window *)
(* ================================================================== *)

Lemma lastn_all : forall (A : Type) (n : nat) (l : list A),
  List.length l <= n -> lastn n l = l.
Proof.
  intros A n l H. unfold lastn.
  replace (List.length l - n) with 0 by lia. reflexivity.
Qed.

Lemma pushWindow_lastn : forall (u : list string) (x : string),
  pushWindow (lastn 21 u) x = lastn 21 (u ++ [x]).
Proof.
  intros u x. unfold pushWindow, lastn.
  rewrite length_skipn, length_app. simpl.
  destruct (Nat.le_gt_cases (List.length u) 20) as [Hle | Hgt].
  - replace (List.length u - 21) with 0 by lia.
    replace (List.length u + 1 - 21) with 0 by lia.
    simpl. replace (List.length u - 0) with (List.length u) by lia.
    destruct (Nat.ltb_spec 20 (List.length u)); [lia | reflexivity].
  - replace (List.length u - (List.length u - 21)) with 21 by lia.
    replace (List.length u + 1 - 21) with (S (List.length u - 21)) by lia.
    simpl (20 <? 21).
    cbv iota.
    rewrite skipn_app.
    replace (S (List.length u - 21) - List.length u) with 0 by lia.
    simpl (skipn 0 [x]).
    f_equal.
    remember (List.length u - 21) as k eqn:Hk.
    assert (Hlt : k < List.length u) by lia.
    clear Hk Hgt. revert k Hlt.
    induction u as [| a u IH]; intros k Hlt; simpl in *; [lia |].
    destruct k as [| k]; [reflexivity |].
    simpl. apply IH. lia.
Qed.

Lemma fold_pushWindow_lastn : forall (ls u : list string),
  fold_left pushWindow ls (lastn 21 u) = lastn 21 (u ++ ls).
Proof.
  induction ls as [| x ls IH]; intros u; simpl.
  - now rewrite app_nil_r.
  - rewrite pushWindow_lastn, IH, <- app_assoc. reflexivity.
Qed.

Lemma feed_window : forall ls : list string,
  fold_left pushWindow ls [] = lastn 21 ls.
Proof.
  intros ls. change (@nil string) with (lastn 21 (@nil string)).
  now rewrite fold_pushWindow_lastn.
Qed.

Lemma fedLines_app : forall a b, fedLines (a ++ b) = (fedLines a ++ fedLines b)%list.
Proof. intros a b. unfold fedLines. now rewrite flat_map_app. Qed.

Section WindowOfScans.
Context {api : Collaborators}.

Lemma cmpFileStep_window : forall pat pkgs st,
  cmpOldLines (fold_left (cmpFileStep pat) pkgs st)
  = fold_left pushWindow (fedLines pkgs) (cmpOldLines st).
Proof.
  intros pat pkgs. induction pkgs as [| pkg pkgs IH]; intros st; simpl.
  - reflexivity.
  - rewrite IH. unfold cmpFileStep.
    destruct (pktLine pkg) as [raw |]; simpl.
    + destruct (execG pat (cmpLastIndex st) (JS.trim raw)). reflexivity.
    + reflexivity.
Qed.

Lemma scanFirst_app : forall (A : Type) build pat pre post li ol,
  @scanFirst A build pat (pre ++ post) li ol
  = match scanFirst build pat pre li ol with
    | Some r => Some r
    | None => scanFirst build pat post (lastIndexAfter pat pre li)
                        (fold_left pushWindow (fedLines pre) ol)
    end.
Proof.
  intros A build pat pre post. induction pre as [| pkg pre IH]; intros li ol; simpl.
  - reflexivity.
  - unfold lastIndexAfter, fedLines. simpl.
    fold (lastIndexAfter pat pre). fold (fedLines pre).
    destruct (pktLine pkg) as [raw |]; simpl.
    + destruct (execG pat li (JS.trim raw)) as [mt li'] eqn:E. simpl.
      destruct (build mt (Some ol)); [reflexivity |].
      rewrite IH. reflexivity.
    + rewrite IH. reflexivity.
Qed.

End WindowOfScans.

(** C1 (as amended).  The window of the file scans follows a strict
    first-in first-out discipline but keeps up to 21 lines: the test
    [oldLines.length > 20] precedes the push.  After any number of fed
    lines the window of the completion scan holds exactly the last 21 of
    them (all of them when fewer were fed), and the hover and signature
    scans, which share the loop, search for documentation in that same
    window once the lines before have produced no result. *)
Theorem window_keeps_last_21 :
  forall (api : Collaborators),
    (forall fs fileName keyword items,
        cmpOldLines (cmpFileScan fs fileName keyword items)
        = lastn 21 (fedLines (ReadLinesSync fs fileName)))
    /\ (forall (A : Type) (build : option RegExpExecArray -> option (list string) -> option A)
               pat pre post,
           scanFirst build pat (pre ++ post) 0 []
           = match scanFirst build pat pre 0 [] with
             | Some r => Some r
             | None => scanFirst build pat post (lastIndexAfter pat pre 0)
                                 (lastn 21 (fedLines pre))
             end).
Proof.
  intros api. split.
  - intros fs fileName keyword items. unfold cmpFileScan.
    rewrite cmpFileStep_window. simpl. apply feed_window.
  - intros A build pat pre post.
    rewrite scanFirst_app, feed_window. reflexivity.
Qed.

(** C1, counterexample.  After 25 lines the completion scan retains 21
    lines, not 20: the fifth line is still in the window. *)
Lemma window_25_lines_keeps_21 :
  cmpOldLines (cmpFileScan fs25 "prog.script" "" []) = skipn 4 lines25
  /\ List.length (cmpOldLines (cmpFileScan fs25 "prog.script" "" [])) = 21
  /\ In "line5" (cmpOldLines (cmpFileScan fs25 "prog.script" "" []))
  /\ cmpOldLines (cmpFileScan fs25 "prog.script" "" []) <> skipn 5 lines25.
Proof.
  assert (E : cmpOldLines (cmpFileScan fs25 "prog.script" "" []) = skipn 4 lines25)
    by (vm_compute; reflexivity).
  rewrite E. split; [reflexivity |]. split; [reflexivity |].
  split; [vm_compute; tauto | vm_compute; discriminate].
Qed.

(* ================================================================== *)
(** * Interactive signature lookup *)
(* ================================================================== *)

Lemma split_length : forall (c : ascii) (s : string),
  List.length (JS.split c s) = S (countChar c s).
Proof.
  intros c s. induction s as [| d s IH]; simpl.
  - reflexivity.
  - destruct (Ascii.eqb d c); simpl.
    + now rewrite IH.
    + destruct (JS.split c s) as [| h t]; simpl in *; [discriminate | exact IH].
Qed.

Lemma firstResult_first : forall (F A : Type) (f : F -> option A) pre x post r,
  (forall y, In y pre -> f y = None) ->
  f x = Some r ->
  firstResult f (pre ++ x :: post) = Some r.
Proof.
  intros F A f pre x post r Hpre Hx.
  induction pre as [| y pre IH]; simpl.
  - now rewrite Hx.
  - rewrite (Hpre y (or_introl eq_refl)). apply IH.
    intros z Hz. apply Hpre. now right.
Qed.

Lemma firstResult_none : forall (F A : Type) (f : F -> option A) l,
  (forall y, In y l -> f y = None) -> firstResult f l = None.
Proof.
  intros F A f l H. induction l as [| y l IH]; simpl.
  - reflexivity.
  - rewrite (H y (or_introl eq_refl)). apply IH.
    intros z Hz. apply H. now right.
Qed.

Lemma find_resetMatched : forall word sigs matched,
  find (fun sig => String.eqb (sigName sig) word) sigs = Some matched ->
  find (fun sig => String.eqb (sigName sig) word) (resetMatched word sigs)
  = Some {| sigName := sigName matched;
            sigItem := {| activeParameter := 0; activeSignature := 0;
                          signatures := signatures (sigItem matched) |} |}.
Proof.
  intros word sigs matched. induction sigs as [| sig rest IH]; simpl.
  - discriminate.
  - destruct (String.eqb (sigName sig) word) eqn:E; simpl.
    + intros H. injection H as <-. rewrite E. reflexivity.
    + intros H. rewrite E. now apply IH.
Qed.

Lemma find_findIndex : forall (A : Type) (f : A -> bool) (l : list A) (x : A),
  find f l = Some x -> nth_error l (findIndex f l) = Some x.
Proof.
  intros A f l x. induction l as [| y l IH]; simpl; [discriminate |].
  destruct (f y); [intros H; now injection H as -> | exact IH].
Qed.

Lemma resetMatched_at : forall word sigs matched,
  find (fun sig => String.eqb (sigName sig) word) sigs = Some matched ->
  nth_error (resetMatched word sigs)
            (findIndex (fun sig => String.eqb (sigName sig) word) sigs)
  = Some {| sigName := sigName matched;
            sigItem := {| activeParameter := 0; activeSignature := 0;
                          signatures := signatures (sigItem matched) |} |}.
Proof.
  intros word sigs matched. induction sigs as [| sig rest IH]; simpl; [discriminate |].
  destruct (String.eqb (sigName sig) word); [intros H; now injection H as -> | exact IH].
Qed.

Lemma resetMatched_elsewhere : forall word sigs k,
  k <> findIndex (fun sig => String.eqb (sigName sig) word) sigs ->
  nth_error (resetMatched word sigs) k = nth_error sigs k.
Proof.
  intros word sigs. induction sigs as [| sig rest IH]; intros k Hk; simpl in *;
    [reflexivity |].
  destruct (String.eqb (sigName sig) word).
  - destruct k as [| k]; [congruence | reflexivity].
  - destruct k as [| k]; [reflexivity |]. simpl. apply IH. congruence.
Qed.

Lemma writeActiveParameter_at : forall n index sigs,
  nth_error (writeActiveParameter n index sigs) n
  = option_map (fun sig => {| sigName := sigName sig;
                              sigItem := setActiveParameter index (sigItem sig) |})
               (nth_error sigs n).
Proof.
  induction n as [| n IH]; intros index sigs; destruct sigs as [| sig rest];
    try reflexivity.
  simpl. apply IH.
Qed.

Lemma writeActiveParameter_elsewhere : forall n index sigs k,
  k <> n -> nth_error (writeActiveParameter n index sigs) k = nth_error sigs k.
Proof.
  induction n as [| n IH]; intros index sigs k Hk; destruct sigs as [| sig rest];
    try reflexivity.
  - destruct k as [| k]; [congruence | reflexivity].
  - destruct k as [| k]; [reflexivity |]. simpl. apply IH. congruence.
Qed.

Lemma writeActiveParameter_names : forall n index sigs,
  map sigName (writeActiveParameter n index sigs) = map sigName sigs.
Proof.
  induction n as [| n IH]; intros index sigs; destruct sigs as [| sig rest];
    try reflexivity.
  simpl. now rewrite IH.
Qed.

Lemma writeActiveParameter_signatures : forall n index sigs,
  map (fun sig => signatures (sigItem sig)) (writeActiveParameter n index sigs)
  = map (fun sig => signatures (sigItem sig)) sigs.
Proof.
  induction n as [| n IH]; intros index sigs; destruct sigs as [| sig rest];
    try reflexivity.
  simpl. now rewrite IH.
Qed.

(** C2 (as amended).  On a retrigger with a cached active signature and
    the cursor between the parentheses, nothing is resolved again (the
    result does not depend on the word, the document search or the
    workspace): the cached object itself is returned, and what it then
    holds is its signature list and active signature as before, with
    the active-parameter index set to the number of pieces of the typed
    argument text minus one, that is to the number of commas between the
    opening parenthesis and the cursor.  The write is made in place:
    when the cached object is the [Item] of a catalog entry, that entry
    of the catalog carries the new index afterwards, every other entry
    being as before; when it is not, the catalog is unchanged. *)
Theorem retrigger_index_is_comma_count :
  forall (api : Collaborators) wordBefore getSignatureFromDocument fs
         scriptSignatures workspaceFolders document position context line ref help,
    lineAt document position = Some line ->
    (JS.indexOf "(" (text line) 0 <= character position)%Z ->
    (character position <= JS.indexOf ")" (text line) (JS.indexOf "(" (text line) 0))%Z ->
    isRetrigger context = true ->
    activeSignatureHelp context = Some ref ->
    derefHelp scriptSignatures ref = Some help ->
    let commas :=
      Z.of_nat (countChar ","
                  (JS.substr (text line)
                             (JS.indexOf "(" (text line) 0 + 1)
                             (character position - JS.indexOf "(" (text line) 0 - 1))) in
    let updated := {| activeParameter := commas;
                      activeSignature := activeSignature help;
                      signatures := signatures help |} in
    let result := provideSignatureHelp wordBefore getSignatureFromDocument fs
                    scriptSignatures workspaceFolders document position context in
    returnedHelp result = Some updated
    /\ match ref with
       | ItemOf n =>
           fst result = Some (ItemOf n)
           /\ map sigName (snd result) = map sigName scriptSignatures
           /\ forall k, k <> n -> nth_error (snd result) k = nth_error scriptSignatures k
       | Detached _ =>
           fst result = Some (Detached updated) /\ snd result = scriptSignatures
       end
    /\ forall wordBefore' getSignatureFromDocument' fs' workspaceFolders',
         provideSignatureHelp wordBefore' getSignatureFromDocument' fs'
                              scriptSignatures workspaceFolders' document position context
         = result.
Proof.
  intros api wordBefore getSig fs sigs folders document position context line ref help
         Hline Hleft Hright Hre Hhelp Hderef commas updated result.
  assert (E : forall wordBefore' getSig' fs' folders',
             provideSignatureHelp wordBefore' getSig' fs' sigs folders'
                                  document position context
             = match ref with
               | ItemOf n => (Some (ItemOf n), writeActiveParameter n commas sigs)
               | Detached h => (Some (Detached (setActiveParameter commas h)), sigs)
               end).
  { intros wordBefore' getSig' fs' folders'.
    unfold provideSignatureHelp. rewrite Hline. cbv zeta.
    destruct (Z.ltb_spec (character position) (JS.indexOf "(" (text line) 0)); [lia |].
    destruct (Z.ltb_spec (JS.indexOf ")" (text line) (JS.indexOf "(" (text line) 0))
                         (character position)); [lia |].
    simpl orb. cbv iota. rewrite Hre, Hhelp.
    rewrite split_length.
    replace (Z.of_nat (S (countChar "," _)) - 1)%Z with commas by (unfold commas; lia).
    reflexivity. }
  split; [| split].
  - unfold result, returnedHelp. rewrite E.
    destruct ref as [n | h]; cbn [fst snd derefHelp] in *.
    + rewrite writeActiveParameter_at.
      destruct (nth_error sigs n) as [sig |]; [| discriminate].
      injection Hderef as <-. reflexivity.
    + injection Hderef as <-. reflexivity.
  - unfold result. rewrite E. destruct ref as [n | h]; cbn [fst snd derefHelp] in *.
    + split; [reflexivity |]. split; [apply writeActiveParameter_names |].
      intros k Hk. now apply writeActiveParameter_elsewhere.
    + injection Hderef as <-. split; reflexivity.
  - intros wordBefore' getSig' fs' folders'. unfold result. now rewrite !E.
Qed.

Lemma retrigger_index_is_comma_count_witness :
  returnedHelp (provideSignatureHelp wordAdd noDocumentSignature emptyFs addCatalog None
                                     callDocument (mkPosition 0 8) retrigger)
  = Some {| activeParameter := 2; activeSignature := 0; signatures := signatures addHelp |}.
Proof.
  refine (proj1 (@retrigger_index_is_comma_count demoApi wordAdd noDocumentSignature emptyFs
                   addCatalog None callDocument (mkPosition 0 8) retrigger
                   (mkTextLine "add(1,2,)" 0) (ItemOf 0) (sigItem addEntry) _ _ _ _ _ _)).
  - reflexivity.
  - vm_compute; discriminate.
  - vm_compute; discriminate.
  - reflexivity.
  - reflexivity.
  - reflexivity.
Defined.

(** C2, counterexample.  Retriggering after [add(1,2,] (two commas before
    the cursor) sets the active-parameter index to 2, not to 1, whether
    the cached object is the catalog's own or a copy of it. *)
Lemma retrigger_two_commas_gives_2 :
  option_map activeParameter
    (returnedHelp (provideSignatureHelp wordAdd noDocumentSignature emptyFs addCatalog None
                                        callDocument (mkPosition 0 8) retrigger))
  = Some 2%Z
  /\ option_map activeParameter
       (returnedHelp (provideSignatureHelp wordAdd noDocumentSignature emptyFs addCatalog None
                                           callDocument (mkPosition 0 8) retrigger))
     <> Some 1%Z
  /\ option_map activeParameter
       (returnedHelp (provideSignatureHelp wordAdd noDocumentSignature emptyFs addCatalog None
                                           callDocument (mkPosition 0 8) retriggerCopy))
     = Some 2%Z.
Proof.
  split; [vm_compute; reflexivity |].
  split; [vm_compute; discriminate | vm_compute; reflexivity].
Qed.

(** A retrigger that follows a catalog hit writes into the catalog: the
    hit returns the entry's own [Item], the editor hands it back, and
    the entry then carries the index the retrigger computed. *)
Example retrigger_after_hit_changes_the_catalog :
  let hit := provideSignatureHelp (api := demoApi) wordAdd noDocumentSignature emptyFs
               addCatalog None callDocument (mkPosition 0 4) freshTrigger in
  let again := provideSignatureHelp (api := demoApi) wordAdd noDocumentSignature emptyFs
                 (snd hit) None callDocument (mkPosition 0 8)
                 {| isRetrigger := true; activeSignatureHelp := fst hit |} in
  fst hit = Some (ItemOf 0)
  /\ map (fun sig => activeParameter (sigItem sig)) (snd hit) = [0%Z]
  /\ fst again = Some (ItemOf 0)
  /\ map (fun sig => activeParameter (sigItem sig)) (snd again) = [2%Z].
Proof. repeat split. Qed.

(** C7.  On a fresh trigger with the cursor between the parentheses the
    word before the parenthesis is resolved in a fixed order, each stage
    cutting the later ones short: a catalog entry of that exact name
    wins (the object returned is the [Item] of the first such entry, and
    its active-parameter index is reset to 0, in the result and in the
    catalog); failing that, the result of the document search; only
    when that is empty, the first workspace folder, in the order of the
    list, whose search yields a result; and nothing when no folder
    does. *)
Theorem fresh_trigger_resolution_order :
  forall (api : Collaborators) wordBefore getSignatureFromDocument fs
         scriptSignatures workspaceFolders document position context line word,
    lineAt document position = Some line ->
    (JS.indexOf "(" (text line) 0 <= character position)%Z ->
    (character position <= JS.indexOf ")" (text line) (JS.indexOf "(" (text line) 0))%Z ->
    (isRetrigger context = false \/ activeSignatureHelp context = None) ->
    wordBefore document (lineNumber line) (JS.indexOf "(" (text line) 0 - 1)%Z = Some word ->
    let result := provideSignatureHelp wordBefore getSignatureFromDocument fs
                    scriptSignatures workspaceFolders document position context in
    let named := fun sig => String.eqb (sigName sig) word in
    let inFolder := fun fold => getSignatureFromWorkspace fs fold word (fileName document) in
    (forall matched,
        find named scriptSignatures = Some matched ->
        returnedHelp result = Some {| activeParameter := 0; activeSignature := 0;
                                      signatures := signatures (sigItem matched) |}
        /\ find named (snd result)
           = Some {| sigName := sigName matched;
                     sigItem := {| activeParameter := 0; activeSignature := 0;
                                   signatures := signatures (sigItem matched) |} |}
        /\ fst result = Some (ItemOf (findIndex named scriptSignatures))
        /\ nth_error scriptSignatures (findIndex named scriptSignatures) = Some matched)
    /\ (find named scriptSignatures = None ->
        forall h, getSignatureFromDocument document word = Some h ->
                  result = (Some (Detached h), scriptSignatures))
    /\ (find named scriptSignatures = None ->
        getSignatureFromDocument document word = None ->
        forall pre fold post h,
          workspaceFolders = Some (pre ++ fold :: post)%list ->
          (forall f, In f pre -> inFolder f = None) ->
          inFolder fold = Some h ->
          result = (Some (Detached h), scriptSignatures))
    /\ (find named scriptSignatures = None ->
        getSignatureFromDocument document word = None ->
        (workspaceFolders = None
         \/ exists folders, workspaceFolders = Some folders
                            /\ forall f, In f folders -> inFolder f = None) ->
        result = (None, scriptSignatures)).
Proof.
  intros api wordBefore getSig fs sigs folders document position context line word
         Hline Hleft Hright Hfresh Hword result named inFolder.
  assert (E : result
              = match find named sigs with
                | Some matched =>
                    (Some (ItemOf (findIndex named sigs)), resetMatched word sigs)
                | None =>
                    match getSig document word, folders with
                    | None, Some fl => (option_map Detached (firstResult inFolder fl), sigs)
                    | other, _ => (option_map Detached other, sigs)
                    end
                end).
  { unfold result, provideSignatureHelp. rewrite Hline. cbv zeta.
    destruct (Z.ltb_spec (character position) (JS.indexOf "(" (text line) 0)); [lia |].
    destruct (Z.ltb_spec (JS.indexOf ")" (text line) (JS.indexOf "(" (text line) 0))
                         (character position)); [lia |].
    simpl orb. cbv iota.
    assert (Hc : (if isRetrigger context then activeSignatureHelp context else None) = None).
    { destruct Hfresh as [-> | ->]; [reflexivity | now destruct (isRetrigger context)]. }
    rewrite Hc, Hword. fold named.
    destruct (find named sigs); [reflexivity |].
    destruct (getSig document word); destruct folders; reflexivity. }
  rewrite E. split; [| split; [| split]].
  - intros matched H. rewrite H. unfold returnedHelp. cbn [fst snd derefHelp].
    split; [| split; [| split]].
    + unfold named. now rewrite (resetMatched_at word sigs matched H).
    + now apply find_resetMatched.
    + reflexivity.
    + now apply find_findIndex.
  - intros Hnone h Hh. rewrite Hnone, Hh. now destruct folders.
  - intros Hnone Hdoc pre fold post h -> Hpre Hfold.
    rewrite Hnone, Hdoc. now rewrite (firstResult_first _ _ inFolder pre fold post h).
  - intros Hnone Hdoc [-> | [fl [-> Hall]]]; rewrite Hnone, Hdoc.
    + reflexivity.
    + now rewrite firstResult_none.
Qed.

Lemma fresh_trigger_resolution_order_witness :
  returnedHelp (provideSignatureHelp wordAdd noDocumentSignature emptyFs addCatalog None
                                     callDocument (mkPosition 0 4) freshTrigger)
  = Some {| activeParameter := 0; activeSignature := 0; signatures := signatures addHelp |}.
Proof.
  refine (proj1 (proj1 (@fresh_trigger_resolution_order demoApi wordAdd noDocumentSignature
                          emptyFs addCatalog None callDocument (mkPosition 0 4) freshTrigger
                          (mkTextLine "add(1,2,)" 0) "add" _ _ _ _ _) addEntry _)).
  - reflexivity.
  - vm_compute; discriminate.
  - vm_compute; discriminate.
  - left; reflexivity.
  - reflexivity.
  - reflexivity.
Defined.

(* ================================================================== *)
(** * Completion: one entry per name *)
(* ================================================================== *)

Section Completion.
Context {api : Collaborators}.

Lemma buildCmpItem_label : forall value name oldLines,
  label (buildCmpItem value name oldLines) = name.
Proof.
  intros value name oldLines. unfold buildCmpItem.
  destruct (test (Lit "global") value); [reflexivity |].
  destruct (test (Lit "thread") value); [reflexivity |].
  destruct (findDoc name oldLines); [reflexivity |].
  destruct (exec paramPat value) as [paramReg |]; [| reflexivity].
  destruct (nth_error (elems paramReg) 1) as [[p1 |] |]; try reflexivity.
  destruct (negb (isBlank p1)); reflexivity.
Qed.

Lemma existsb_label_false : forall name (items : list CompletionItem),
  existsb (fun cmp => String.eqb (label cmp) name) items = false ->
  ~ In name (map label items).
Proof.
  intros name items. induction items as [| it items IH]; simpl.
  - tauto.
  - intros H. apply orb_false_iff in H. destruct H as [H1 H2].
    intros [E | Hin].
    + rewrite E, String.eqb_refl in H1. discriminate.
    + now apply IH.
Qed.

Lemma NoDup_snoc : forall (A : Type) (l : list A) (x : A),
  NoDup l -> ~ In x l -> NoDup (l ++ [x]).
Proof.
  intros A l x Hl Hx. induction Hl as [| y l Hy Hl IH]; simpl.
  - constructor; [tauto | constructor].
  - constructor.
    + rewrite in_app_iff. simpl. intros [H | [H | []]]; [tauto |].
      subst. apply Hx. now left.
    + apply IH. intros H. apply Hx. now right.
Qed.

Lemma cmpStep_NoDup : forall oldLines items value,
  NoDup (map label items) -> NoDup (map label (cmpStep oldLines items value)).
Proof.
  intros oldLines items value H. unfold cmpStep.
  destruct value as [v |]; [| exact H].
  destruct (JS.truthy v); [| exact H].
  destruct (exec namePat v) as [nameReg |]; [| exact H].
  destruct (existsb _ items) eqn:E; [exact H |].
  rewrite map_app. simpl. rewrite buildCmpItem_label.
  apply NoDup_snoc; [exact H | now apply existsb_label_false].
Qed.

Lemma parseCmpItem_NoDup : forall matchResult items oldLines,
  NoDup (map label items) ->
  NoDup (map label (parseCmpItem matchResult items oldLines)).
Proof.
  intros matchResult items oldLines. unfold parseCmpItem.
  destruct matchResult as [a |]; [| tauto].
  generalize (elems a). intros l. revert items.
  induction l as [| v l IH]; intros items H; simpl; [exact H |].
  apply IH. now apply cmpStep_NoDup.
Qed.


Lemma cmpFileStep_NoDup : forall pat pkgs st,
  NoDup (map label (cmpItems st)) ->
  NoDup (map label (cmpItems (fold_left (cmpFileStep pat) pkgs st))).
Proof.
  intros pat pkgs. induction pkgs as [| pkg pkgs IH]; intros st H; simpl; [exact H |].
  apply IH. unfold cmpFileStep.
  destruct (pktLine pkg) as [raw |]; [| exact H].
  destruct (execG pat (cmpLastIndex st) (JS.trim raw)). simpl.
  now apply parseCmpItem_NoDup.
Qed.

(** The same invariant for the file and the workspace drivers. *)
Lemma completion_file_labels_unique : forall fs fileName keyword items,
  NoDup (map label items) ->
  NoDup (map label (getCompletionItemsFromFile fs fileName keyword items)).
Proof.
  intros. unfold getCompletionItemsFromFile, cmpFileScan.
  now apply cmpFileStep_NoDup.
Qed.

Lemma completion_workspace_labels_unique : forall fs workspace keyword items,
  NoDup (map label items) ->
  NoDup (map label (getCompletionItemsFromWorkspace fs workspace keyword items)).
Proof.
  intros fs workspace keyword items. unfold getCompletionItemsFromWorkspace.
  generalize (map (fun file => fsPath workspace ++ backslash ++ file)
                  (filter (JS.endsWith ".script") (readdirSync fs (fsPath workspace)))).
  intros files. revert items.
  induction files as [| f files IH]; intros items H; simpl; [exact H |].
  apply IH. now apply completion_file_labels_unique.
Qed.

End Completion.

(** The spec's example: two declarations of [foo] give exactly one
    entry, named [foo]. *)
Example completion_duplicate_declaration :
  map label (getCompletionItemsFromText duplicateText "foo" []) = ["foo"]
  /\ map label (getCompletionItemsFromText duplicateText "" []) = ["foo"].
Proof. split; vm_compute; reflexivity. Qed.

(* ================================================================== *)
(** * Facts about the matcher *)
(* ================================================================== *)

(** A successful match hands its continuation an index that lies at
    least [minLen r] characters further on. *)
Lemma starLoop_minLen :
  forall (R : Type) (body : nat -> captures -> cont R -> option R) greedy (k : cont R),
    (forall i c (k' : cont R) x,
        body i c k' = Some x -> exists j c', i <= j /\ k' j c' = Some x) ->
    forall n i c x,
      starLoop body greedy k n i c = Some x ->
      exists j c', i <= j /\ k j c' = Some x.
Proof.
  intros R body greedy k Hbody. induction n as [| n IH]; intros i c x H; simpl in H.
  - exists i, c. split; [lia | exact H].
  - assert (Hiter : forall y,
               body i c (fun j c' => if j =? i then None
                                     else starLoop body greedy k n j c') = Some y ->
               exists j c', i <= j /\ k j c' = Some y).
    { intros y Hy. apply Hbody in Hy. destruct Hy as [j [c' [Hj Hy]]].
      destruct (j =? i); [discriminate |].
      apply IH in Hy. destruct Hy as [j' [c'' [Hj' Hy]]].
      exists j', c''. split; [lia | exact Hy]. }
    unfold orElse in H. destruct greedy.
    + destruct (body i c _) as [y |] eqn:E.
      * rewrite <- H. now apply Hiter.
      * exists i, c. split; [lia | exact H].
    + destruct (k i c) as [y |] eqn:E.
      * exists i, c. split; [lia | now rewrite E].
      * now apply Hiter.
Qed.

Lemma m_minLen : forall (s : string) (r : regex) (R : Type) (i : nat) (c : captures)
                        (k : cont R) (x : R),
  m s r i c k = Some x ->
  exists j c', i + minLen r <= j /\ k j c' = Some x.
Proof.
  intros s r. induction r as [| a | p | a IHa b IHb | a IHa b IHb | g a IHa
                              | n a IHa | | a IHa]; intros R i c k x H; cbn [m minLen] in *.
  - exists i, c. split; [lia | exact H].
  - destruct (String.get i s) as [b |]; [| discriminate].
    destruct (Ascii.eqb b a); [| discriminate].
    exists (S i), c. split; [lia | exact H].
  - destruct (String.get i s) as [b |]; [| discriminate].
    destruct (p b); [| discriminate].
    exists (S i), c. split; [lia | exact H].
  - apply IHa in H. destruct H as [j [c' [Hj H]]].
    apply IHb in H. destruct H as [j' [c'' [Hj' H]]].
    exists j', c''. split; [lia | exact H].
  - unfold orElse in H. destruct (m s a i c k) eqn:E.
    + rewrite <- H in *. apply IHa in E. destruct E as [j [c' [Hj E]]].
      exists j, c'. split; [lia | exact E].
    + apply IHb in H. destruct H as [j [c' [Hj H]]].
      exists j, c'. split; [lia | exact H].
  - apply starLoop_minLen in H.
    + destruct H as [j [c' [Hj H]]]. exists j, c'. split; [lia | exact H].
    + intros i' c' k' y Hy. apply IHa in Hy. destruct Hy as [j [c'' [Hj Hy]]].
      exists j, c''. split; [lia | exact Hy].
  - apply IHa in H. destruct H as [j [c' [Hj H]]].
    exists j, ((n, (i, j)) :: c'). split; [lia | exact H].
  - destruct (isWordBoundary s i); [| discriminate].
    exists i, c. split; [lia | exact H].
  - destruct (m s a i c (fun _ _ => Some tt)); [discriminate |].
    exists i, c. split; [lia | exact H].
Qed.

Lemma matchAt_minLen : forall r s i e c,
  matchAt r s i = Some (e, c) -> i + minLen r <= e.
Proof.
  intros r s i e c H. unfold matchAt in H.
  apply m_minLen in H. destruct H as [j [c' [Hj H]]].
  injection H as <- _. exact Hj.
Qed.

Lemma searchFrom_minLen : forall r s n i i' e c,
  searchFrom r s n i = Some (i', e, c) -> i <= i' /\ i' + minLen r <= e.
Proof.
  intros r s n. induction n as [| n IH]; intros i i' e c H; simpl in H.
  - destruct (matchAt r s i) as [[e0 c0] |] eqn:E; [| discriminate].
    injection H as <- <- <-. split; [lia | now apply matchAt_minLen in E].
  - destruct (matchAt r s i) as [[e0 c0] |] eqn:E.
    + injection H as <- <- <-. split; [lia | now apply matchAt_minLen in E].
    + apply IH in H. lia.
Qed.

(** A match of a pattern with the [g] flag moves [lastIndex] forward by
    at least [minLen r]. *)
Lemma execG_progress : forall r lastIndex s a e,
  execG r lastIndex s = (Some a, e) -> lastIndex + minLen r <= e.
Proof.
  intros r lastIndex s a e H. unfold execG in H.
  destruct (String.length s <? lastIndex); [discriminate |].
  destruct (searchFrom r s (String.length s - lastIndex) lastIndex)
    as [[[i e0] c] |] eqn:E; [| discriminate].
  injection H as _ <-. apply searchFrom_minLen in E. lia.
Qed.

Lemma execG_beyond_end : forall r lastIndex s,
  String.length s < lastIndex -> execG r lastIndex s = (None, 0).
Proof.
  intros r lastIndex s H. unfold execG.
  destruct (Nat.ltb_spec (String.length s) lastIndex); [reflexivity | lia].
Qed.

Lemma minLen_mthdPat : forall keyword, 4 <= minLen (mthdPat keyword).
Proof. intros keyword. simpl. lia. Qed.

Lemma minLen_defPat : forall keyword, 4 <= minLen (defPat keyword).
Proof. intros keyword. simpl. lia. Qed.

Section TextLoop.
Context {api : Collaborators}.

(** The loop of the text scan does not depend on its counter once the
    counter exceeds the distance of [lastIndex] to the end of the text:
    more fuel changes nothing. *)
Lemma textLoop_fuel : forall pat text,
  0 < minLen pat ->
  forall n extra lastIndex items,
    String.length text < n + lastIndex ->
    textLoop (n + extra) pat text lastIndex items = textLoop n pat text lastIndex items.
Proof.
  intros pat text Hpos. induction n as [| n IH]; intros extra lastIndex items Hn.
  - simpl. destruct extra as [| extra]; [reflexivity |]. simpl.
    rewrite execG_beyond_end by lia. reflexivity.
  - simpl. destruct (execG pat lastIndex text) as [[a |] e] eqn:E; [| reflexivity].
    apply IH. apply execG_progress in E. lia.
Qed.

Lemma getCompletionItemsFromText_fuel : forall text keyword items extra,
  textLoop (S (String.length text) + extra) (mthdPat keyword) text 0 items
  = getCompletionItemsFromText text keyword items.
Proof.
  intros text keyword items extra. unfold getCompletionItemsFromText.
  apply textLoop_fuel; [pose proof (minLen_mthdPat keyword); lia | lia].
Qed.

End TextLoop.

(* ================================================================== *)
(** * The signature scan sees [def] only *)
(* ================================================================== *)

Lemma get_three_substring : forall (a b d : ascii) (s : string) (i : nat),
  String.get i s = Some a ->
  String.get (S i) s = Some b ->
  String.get (S (S i)) s = Some d ->
  String.substring i 3 s = String a (String b (String d "")).
Proof.
  intros a b d s. induction s as [| x s IH]; intros i Ha Hb Hd.
  - destruct i; discriminate.
  - destruct i as [| i].
    + simpl in Ha. injection Ha as ->.
      destruct s as [| y s]; [discriminate |].
      simpl in Hb. injection Hb as ->.
      destruct s as [| z s]; [discriminate |].
      simpl in Hd. injection Hd as ->.
      simpl. destruct s; reflexivity.
    + simpl. apply IH; assumption.
Qed.

Lemma substring_includes : forall (p s : string) (i : nat),
  p <> "" ->
  String.substring i (String.length p) s = p -> includes p s = true.
Proof.
  intros p s. induction s as [| x s IH]; intros i Hp H.
  - destruct i, p; simpl in H; congruence.
  - destruct i as [| i].
    + assert (E : String.prefix p (String x s) = true).
      { rewrite <- H at 1. clear. generalize (String x s). generalize (String.length p).
        intros n t. revert n. induction t as [| y t IHt]; intros n.
        - destruct n; reflexivity.
        - destruct n as [| n]; simpl; [reflexivity |].
          destruct (ascii_dec y y); [apply IHt | congruence]. }
      simpl includes. simpl in E. rewrite E. reflexivity.
    + simpl in H. simpl includes. rewrite (IH i Hp H). apply orb_true_r.
Qed.

(** Where the pattern of the signature scan matches, the subject reads
    [def]. *)
Lemma defPat_reads_def : forall keyword s i e c,
  matchAt (defPat keyword) s i = Some (e, c) -> String.substring i 3 s = "def".
Proof.
  intros keyword s i e c H. unfold matchAt, defPat in H. cbn [Cat m Lit] in H.
  destruct (isWordBoundary s i); [| discriminate].
  destruct (String.get i s) as [a |] eqn:Ea; [| discriminate].
  destruct (Ascii.eqb_spec a "d"); [subst a | discriminate].
  destruct (String.get (S i) s) as [b |] eqn:Eb; [| discriminate].
  destruct (Ascii.eqb_spec b "e"); [subst b | discriminate].
  destruct (String.get (S (S i)) s) as [d |] eqn:Ed; [| discriminate].
  destruct (Ascii.eqb_spec d "f"); [subst d | discriminate].
  now apply get_three_substring.
Qed.

Lemma searchFrom_defPat : forall keyword s n i i' e c,
  searchFrom (defPat keyword) s n i = Some (i', e, c) ->
  String.substring i' 3 s = "def".
Proof.
  intros keyword s n. induction n as [| n IH]; intros i i' e c H; simpl in H.
  - destruct (matchAt (defPat keyword) s i) as [[e0 c0] |] eqn:E; [| discriminate].
    injection H as <- <- <-. now apply defPat_reads_def in E.
  - destruct (matchAt (defPat keyword) s i) as [[e0 c0] |] eqn:E.
    + injection H as <- <- <-. now apply defPat_reads_def in E.
    + now apply IH in H.
Qed.

Lemma execG_defPat : forall keyword lastIndex s a e,
  execG (defPat keyword) lastIndex s = (Some a, e) ->
  String.substring (index a) 3 s = "def".
Proof.
  intros keyword lastIndex s a e H. unfold execG in H.
  destruct (String.length s <? lastIndex); [discriminate |].
  destruct (searchFrom (defPat keyword) s (String.length s - lastIndex) lastIndex)
    as [[[i e0] c] |] eqn:E; [| discriminate].
  injection H as <- _. simpl. now apply searchFrom_defPat in E.
Qed.

Lemma execG_defPat_none : forall keyword lastIndex s,
  includes "def" s = false -> fst (execG (defPat keyword) lastIndex s) = None.
Proof.
  intros keyword lastIndex s H.
  destruct (execG (defPat keyword) lastIndex s) as [[a |] e] eqn:E; [| reflexivity].
  apply execG_defPat in E.
  apply (substring_includes "def" s (index a)) in E; [congruence | discriminate].
Qed.

(** Trimming keeps a line free of a given text. *)
Lemma includes_trimStart : forall p s,
  includes p (JS.trimStart s) = true -> includes p s = true.
Proof.
  intros p s. induction s as [| x s IH]; simpl; [tauto |].
  destruct (JS.isWhiteSpace x).
  - intros H. rewrite (IH H). apply orb_true_r.
  - simpl. tauto.
Qed.

Lemma prefix_trimEnd : forall p s,
  String.prefix p (JS.trimEnd s) = true -> String.prefix p s = true.
Proof.
  intros p s. revert p. induction s as [| x s IH]; intros p; simpl; [tauto |].
  destruct (JS.trimEnd s) as [| y t] eqn:E.
  - destruct (JS.isWhiteSpace x).
    + destruct p; simpl; [reflexivity | discriminate].
    + destruct p as [| a p]; simpl; [reflexivity |].
      destruct (ascii_dec a x); [| discriminate].
      destruct p; simpl; [intros _; destruct s; reflexivity | discriminate].
  - destruct p as [| a p]; [intros _; destruct s; reflexivity |].
    change (String.prefix (String a p) (String x (String y t)))
      with (if ascii_dec a x then String.prefix p (String y t) else false).
    change (String.prefix (String a p) (String x s))
      with (if ascii_dec a x then String.prefix p s else false).
    destruct (ascii_dec a x); [apply IH | discriminate].
Qed.

Lemma includes_nil : forall s, includes "" s = true.
Proof. intros s. destruct s; reflexivity. Qed.

Lemma includes_trimEnd : forall p s,
  includes p (JS.trimEnd s) = true -> includes p s = true.
Proof.
  intros p s. induction s as [| x s IH]; [simpl; tauto |].
  intros H.
  destruct p as [| a p]; [apply includes_nil |].
  assert (Hcases : String.prefix (String a p) (JS.trimEnd (String x s)) = true
                   \/ includes (String a p) (JS.trimEnd s) = true).
  { simpl JS.trimEnd in *. destruct (JS.trimEnd s) as [| y t] eqn:E.
    - destruct (JS.isWhiteSpace x).
      + simpl in H. discriminate.
      + change (includes (String a p) (String x ""))
          with (String.prefix (String a p) (String x "") || includes (String a p) "") in H.
        apply orb_true_iff in H. destruct H as [H | H]; [now left | now right].
    - change (includes (String a p) (String x (String y t)))
        with (String.prefix (String a p) (String x (String y t))
              || includes (String a p) (String y t)) in H.
      apply orb_true_iff in H. destruct H as [H | H]; [now left | now right]. }
  change (includes (String a p) (String x s))
    with (String.prefix (String a p) (String x s) || includes (String a p) s).
  destruct Hcases as [Hc | Hc].
  - rewrite (prefix_trimEnd _ _ Hc). reflexivity.
  - rewrite (IH Hc). apply orb_true_r.
Qed.

Lemma includes_trim : forall p s,
  includes p s = false -> includes p (JS.trim s) = false.
Proof.
  intros p s H. destruct (includes p (JS.trim s)) eqn:E; [| reflexivity].
  unfold JS.trim in E. apply includes_trimEnd, includes_trimStart in E. congruence.
Qed.

(* ================================================================== *)
(** * Documentation blocks and the builders *)
(* ================================================================== *)

Lemma scanFirst_inv : forall (A : Type) build pat pkgs li ol (r : A),
  scanFirst build pat pkgs li ol = Some r ->
  exists pre raw n post,
    pkgs = (pre ++ mkPacket (Some raw) n :: post)%list
    /\ scanFirst build pat pre li ol = None
    /\ build (fst (execG pat (lastIndexAfter pat pre li) (JS.trim raw)))
              (Some (fold_left pushWindow (fedLines pre) ol)) = Some r.
Proof.
  intros A build pat pkgs. induction pkgs as [| pkg pkgs IH]; intros li ol r H.
  - discriminate.
  - destruct pkg as [[raw |] n]; simpl in H.
    + destruct (execG pat li (JS.trim raw)) as [mt li'] eqn:E.
      destruct (build mt (Some ol)) as [r' |] eqn:B.
      * injection H as <-. exists [], raw, n, pkgs.
        simpl. rewrite E. simpl. auto.
      * apply IH in H. destruct H as [pre [raw' [n' [post [-> [Hpre Hb]]]]]].
        exists (mkPacket (Some raw) n :: pre), raw', n', post.
        split; [reflexivity |]. split.
        -- simpl. rewrite E, B. exact Hpre.
        -- unfold lastIndexAfter, fedLines. simpl.
           fold (lastIndexAfter pat pre). fold (fedLines pre).
           rewrite E. exact Hb.
    + apply IH in H. destruct H as [pre [raw' [n' [post [-> [Hpre Hb]]]]]].
      exists (mkPacket None n :: pre), raw', n', post.
      split; [reflexivity |]. split; [exact Hpre | exact Hb].
Qed.

Lemma scanFirst_none : forall (A : Type) (build : _ -> _ -> option A) pat pkgs li ol,
  (forall mt w, build mt w = None \/ exists a, mt = Some a) ->
  (forall pkg raw, In pkg pkgs -> pktLine pkg = Some raw ->
                   forall l, fst (execG pat l (JS.trim raw)) = None) ->
  scanFirst build pat pkgs li ol = None.
Proof.
  intros A build pat pkgs li ol Hb. revert li ol.
  induction pkgs as [| pkg pkgs IH]; intros li ol H; simpl; [reflexivity |].
  destruct (pktLine pkg) as [raw |] eqn:P.
  - pose proof (H pkg raw (or_introl eq_refl) P li) as Hn.
    destruct (execG pat li (JS.trim raw)) as [mt li']. simpl in Hn. subst mt.
    destruct (Hb None (Some ol)) as [-> | [a Ha]]; [| discriminate].
    apply IH. intros pkg' raw' Hin. apply H. now right.
  - apply IH. intros pkg' raw' Hin. apply H. now right.
Qed.

Lemma existsb_snoc : forall (A : Type) (f : A -> bool) l x,
  existsb f (l ++ [x]) = existsb f l || f x.
Proof. intros. rewrite existsb_app. simpl. now rewrite orb_false_r. Qed.

Lemma existsb_rev_eq : forall (A : Type) (f : A -> bool) l,
  existsb f (rev l) = existsb f l.
Proof.
  intros A f l. induction l as [| x l IH]; simpl; [reflexivity |].
  rewrite existsb_snoc, IH. apply orb_comm.
Qed.

Section DocBlocks.
Context {api : Collaborators}.

Lemma searchBack_lt : forall lines n idx, searchBack lines n = Some idx -> idx < n.
Proof.
  intros lines n. induction n as [| n IH]; intros idx H; simpl in H; [discriminate |].
  destruct (nth_error lines n) as [l |].
  - destruct (String.eqb l sentinel).
    + injection H as <-. lia.
    + apply IH in H. lia.
  - apply IH in H. lia.
Qed.

Lemma searchBack_existsb : forall init rest,
  isSome (searchBack (init ++ rest) (List.length init))
  = existsb (String.eqb sentinel) init.
Proof.
  intros init. induction init as [| x init IH] using rev_ind; intros rest.
  - reflexivity.
  - rewrite length_app, Nat.add_comm.
    change (List.length [x] + List.length init) with (S (List.length init)).
    cbn [searchBack].
    rewrite <- app_assoc.
    rewrite nth_error_app2 by lia. rewrite Nat.sub_diag.
    change (nth_error ([x] ++ rest) 0) with (Some x).
    rewrite existsb_snoc, (String.eqb_sym sentinel x).
    destruct (String.eqb x sentinel).
    + now rewrite orb_true_r.
    + change ([x] ++ rest)%list with (x :: rest). rewrite IH. now rewrite orb_false_r.
Qed.

(** [findDoc] yields a descriptor exactly when the window holds a
    documentation block. *)
Lemma findDocInfo_hasBlock : forall name lines,
  isSome (findDocInfo name (Some lines)) = hasBlock lines.
Proof.
  intros name lines. destruct lines as [| x0 l0] using rev_ind; [reflexivity |].
  clear IHl0. rename l0 into init, x0 into l.
  unfold hasBlock. rewrite rev_app_distr.
  change (rev [l] ++ rev init)%list with (l :: rev init).
  unfold findDocInfo. rewrite length_app.
  change (List.length [l]) with 1.
  replace (List.length init + 1 - 1) with (List.length init) by lia.
  rewrite nth_error_app2 by lia. rewrite Nat.sub_diag.
  change (nth_error [l] 0) with (Some l). cbv iota.
  destruct (String.eqb l sentinel); [| reflexivity].
  rewrite andb_true_l.
  rewrite existsb_rev_eq, <- (searchBack_existsb init [l]).
  destruct (searchBack (init ++ [l]) (List.length init)) as [idx |] eqn:E; [| reflexivity].
  apply searchBack_lt in E.
  destruct (Nat.ltb_spec idx (List.length init)); [reflexivity | lia].
Qed.

Lemma findDoc_no_block : forall name lines,
  hasBlock lines = false -> findDoc name (Some lines) = None.
Proof.
  intros name lines H. unfold findDoc.
  pose proof (findDocInfo_hasBlock name lines) as E. rewrite H in E.
  destruct (findDocInfo name (Some lines)); [discriminate | reflexivity].
Qed.

Lemma findDoc_some_block : forall name lines doc,
  findDoc name (Some lines) = Some doc -> hasBlock lines = true.
Proof.
  intros name lines doc H. rewrite <- (findDocInfo_hasBlock name lines).
  unfold findDoc in H. destruct (findDocInfo name (Some lines)); [reflexivity | discriminate].
Qed.

Lemma parseSignature_inv : forall matchResult oldLines sh,
  parseSignature matchResult oldLines = Some sh ->
  exists a nameReg doc,
    matchResult = Some a
    /\ exec namePat (matched a) = Some nameReg
    /\ findDoc (matched nameReg) oldLines = Some doc
    /\ sh = signatureOf doc.
Proof.
  intros matchResult oldLines sh H. unfold parseSignature in H.
  destruct matchResult as [a |]; [| discriminate].
  destruct (exec namePat (matched a)) as [nameReg |] eqn:En; [| discriminate].
  destruct (findDoc (matched nameReg) oldLines) as [doc |] eqn:Ed; [| discriminate].
  injection H as <-. exists a, nameReg, doc. auto.
Qed.

End DocBlocks.

(** C5.  The signature builder yields a signature object only from a
    documentation block: with no window, or a window that holds no
    block, it yields nothing (an absent result); and whenever the file
    scan yields a signature, the line that produced it matched the
    declaration pattern, a name was extracted from the match, the window
    of (at most 21) lines before it holds a block, and the signature is
    the one built from that block's descriptor. *)
Theorem signature_only_with_doc_block :
  forall (api : Collaborators),
    (forall a window, hasBlock window = false ->
                      parseSignature (Some a) (Some window) = None)
    /\ (forall matchResult, parseSignature matchResult None = None)
    /\ (forall fs fileName keyword sh,
           getSignatureFromFile fs fileName keyword = Some sh ->
           exists pre raw n post a nameReg doc,
             ReadLinesSync fs fileName = (pre ++ mkPacket (Some raw) n :: post)%list
             /\ fst (execG (defPat keyword) (lastIndexAfter (defPat keyword) pre 0)
                            (JS.trim raw)) = Some a
             /\ exec namePat (matched a) = Some nameReg
             /\ hasBlock (lastn 21 (fedLines pre)) = true
             /\ findDoc (matched nameReg) (Some (lastn 21 (fedLines pre))) = Some doc
             /\ sh = signatureOf doc).
Proof.
  intros api. split; [| split].
  - intros a window H. unfold parseSignature.
    destruct (exec namePat (matched a)) as [nameReg |]; [| reflexivity].
    now rewrite findDoc_no_block.
  - intros matchResult. unfold parseSignature.
    destruct matchResult as [a |]; [| reflexivity].
    destruct (exec namePat (matched a)); reflexivity.
  - intros fs fileName keyword sh H. unfold getSignatureFromFile in H.
    apply scanFirst_inv in H. destruct H as [pre [raw [n [post [Hf [_ Hb]]]]]].
    rewrite feed_window in Hb.
    apply parseSignature_inv in Hb. destruct Hb as [a [nameReg [doc [Ha [Hn [Hd ->]]]]]].
    exists pre, raw, n, post, a, nameReg, doc.
    repeat split; try assumption.
    now apply findDoc_some_block in Hd.
Qed.

Lemma signature_only_with_doc_block_witness :
  parseSignature (api := demoApi) (Some (mkExec [Some "def foo(a, b):"] 0))
                 (Some undocumentedFile) = None.
Proof.
  apply (proj1 (signature_only_with_doc_block demoApi)).
  reflexivity.
Defined.

(** The undocumented declaration of the example file yields no
    signature, the documented [thread] of the other none either. *)
Example signature_of_undocumented_def :
  getSignatureFromFile (api := demoApi) undocumentedFs "prog.script" "foo" = None.
Proof. vm_compute. reflexivity. Qed.

(** C10.  The file scan for signature help matches [def] declarations
    only.  For a keyword made of word characters (for which the pattern
    is the one embedded here): whenever the scan yields a signature, the
    line that produced it reads [def] where the match starts; and a file
    none of whose lines contains [def], whatever [thread] and [global]
    declarations and documentation blocks it holds, yields no signature
    help. *)
Theorem signature_scan_ignores_thread_and_global :
  forall (api : Collaborators) fs fileName keyword,
    wordKeyword keyword = true ->
    (forall sh,
        getSignatureFromFile fs fileName keyword = Some sh ->
        exists pre raw n post a,
          ReadLinesSync fs fileName = (pre ++ mkPacket (Some raw) n :: post)%list
          /\ fst (execG (defPat keyword) (lastIndexAfter (defPat keyword) pre 0)
                         (JS.trim raw)) = Some a
          /\ String.substring (index a) 3 (JS.trim raw) = "def"
          /\ parseSignature (Some a) (Some (lastn 21 (fedLines pre))) = Some sh)
    /\ ((forall pkg raw, In pkg (ReadLinesSync fs fileName) ->
                         pktLine pkg = Some raw -> includes "def" raw = false) ->
        getSignatureFromFile fs fileName keyword = None).
Proof.
  intros api fs fileName keyword _. split.
  - intros sh H. unfold getSignatureFromFile in H.
    apply scanFirst_inv in H. destruct H as [pre [raw [n [post [Hf [_ Hb]]]]]].
    rewrite feed_window in Hb.
    destruct (execG (defPat keyword) (lastIndexAfter (defPat keyword) pre 0) (JS.trim raw))
      as [[a |] e] eqn:E; simpl in Hb; [| discriminate].
    exists pre, raw, n, post, a. rewrite E. simpl.
    repeat split; try assumption.
    now apply execG_defPat in E.
  - intros H. unfold getSignatureFromFile. apply scanFirst_none.
    + intros [a |] w; [right; now exists a | left; reflexivity].
    + intros pkg raw Hin Hp l. apply execG_defPat_none, includes_trim.
      now apply (H pkg raw).
Qed.

Lemma signature_scan_ignores_thread_and_global_witness :
  getSignatureFromFile (api := demoApi) threadFs "prog.script" "add" = None.
Proof.
  apply (proj2 (@signature_scan_ignores_thread_and_global demoApi threadFs
                  "prog.script" "add" eq_refl)).
  intros pkg raw Hin Hp. vm_compute in Hin.
  repeat (destruct Hin as [<- | Hin]; [simpl in Hp; injection Hp as <-; reflexivity |]).
  destruct Hin.
Defined.

(** The hover scan, whose pattern has the three keywords, does answer
    for the documented [thread] that the signature scan ignores. *)
Example hover_of_documented_thread :
  getHoverFromFile (api := demoApi) threadFs "prog.script" "add"
  = Some {| contents := [CodeBlock "urscript" "thread  add";
                         Markdown (mkMarkdown "adds two numbers")] |}.
Proof. vm_compute. reflexivity. Qed.

(* ================================================================== *)
(** * Doc lines: parsing gives back the tokens *)
(* ================================================================== *)

Lemma prefix_app : forall p s, String.prefix p (p ++ s) = true.
Proof.
  induction p as [| a p IH]; intros s; simpl.
  - destruct s; reflexivity.
  - destruct (ascii_dec a a); [apply IH | congruence].
Qed.

Lemma drop_app : forall p s, JS.drop (String.length p) (p ++ s) = s.
Proof. induction p as [| a p IH]; intros s; simpl; [now destruct s | apply IH]. Qed.

Lemma replaceFirst_unfold : forall p r s,
  JS.replaceFirst p r s
  = if String.prefix p s then r ++ JS.drop (String.length p) s
    else match s with
         | EmptyString => EmptyString
         | String c s' => String c (JS.replaceFirst p r s')
         end.
Proof. intros p r s. destruct s; reflexivity. Qed.

Lemma replaceFirst_prefix : forall p s, JS.replaceFirst p "" (p ++ s) = s.
Proof.
  intros p s. rewrite replaceFirst_unfold, prefix_app, drop_app. reflexivity.
Qed.

Lemma forallChars_impl : forall (p q : ascii -> bool) s,
  (forall c, p c = true -> q c = true) ->
  forallChars p s = true -> forallChars q s = true.
Proof.
  intros p q s Hpq. induction s as [| c s IH]; simpl; [reflexivity |].
  intros H. apply andb_true_iff in H. destruct H as [Hc Hs].
  now rewrite (Hpq c Hc), (IH Hs).
Qed.

Lemma forallChars_app : forall p s t,
  forallChars p (s ++ t) = forallChars p s && forallChars p t.
Proof.
  intros p s t. induction s as [| c s IH]; simpl; [reflexivity |].
  now rewrite IH, andb_assoc.
Qed.

Lemma forallChars_join : forall p sep toks,
  forallChars p sep = true ->
  forallb (forallChars p) toks = true ->
  forallChars p (JS.join sep toks) = true.
Proof.
  intros p sep toks Hsep. induction toks as [| x toks IH]; simpl; [reflexivity |].
  intros H. apply andb_true_iff in H. destruct H as [Hx Ht].
  destruct toks as [| y toks]; [exact Hx |].
  rewrite !forallChars_app, Hx, Hsep. simpl. now apply IH.
Qed.

Lemma removeAll_id : forall c s,
  forallChars (fun d => negb (Ascii.eqb d c)) s = true -> JS.removeAll c s = s.
Proof.
  intros c s. induction s as [| d s IH]; simpl; [reflexivity |].
  intros H. apply andb_true_iff in H. destruct H as [Hd Hs].
  destruct (Ascii.eqb d c); [discriminate |]. now rewrite IH.
Qed.

Lemma trimEnd_nonws : forall s,
  forallChars (fun c => negb (JS.isWhiteSpace c)) s = true -> JS.trimEnd s = s.
Proof.
  induction s as [| c s IH]; simpl; [reflexivity |].
  intros H. apply andb_true_iff in H. destruct H as [Hc Hs].
  rewrite (IH Hs). destruct s; [| reflexivity].
  destruct (JS.isWhiteSpace c); [discriminate | reflexivity].
Qed.

Lemma trimEnd_app : forall t s,
  JS.trimEnd s <> "" -> JS.trimEnd (t ++ s) = t ++ JS.trimEnd s.
Proof.
  intros t s Hs. induction t as [| c t IH]; simpl; [reflexivity |].
  rewrite IH. destruct (t ++ JS.trimEnd s) eqn:E; [| reflexivity].
  destruct t; simpl in E; [congruence | discriminate].
Qed.

Lemma split_nosep : forall sep s,
  forallChars (fun c => negb (Ascii.eqb c sep)) s = true -> JS.split sep s = [s].
Proof.
  intros sep s. induction s as [| c s IH]; simpl; [reflexivity |].
  intros H. apply andb_true_iff in H. destruct H as [Hc Hs].
  destruct (Ascii.eqb c sep); [discriminate |]. now rewrite (IH Hs).
Qed.

Lemma split_app_sep : forall sep x s,
  forallChars (fun c => negb (Ascii.eqb c sep)) x = true ->
  JS.split sep (x ++ String sep s) = x :: JS.split sep s.
Proof.
  intros sep x s. induction x as [| c x IH]; simpl.
  - intros _. now rewrite Ascii.eqb_refl.
  - intros H. apply andb_true_iff in H. destruct H as [Hc Hx].
    destruct (Ascii.eqb c sep); [discriminate |]. now rewrite (IH Hx).
Qed.

Lemma tokenChar_nonws : forall c, tokenChar c = true -> negb (JS.isWhiteSpace c) = true.
Proof. intros c H. unfold tokenChar in H. now apply andb_true_iff in H. Qed.

Lemma tokenChar_nohash : forall c, tokenChar c = true -> negb (Ascii.eqb c "#") = true.
Proof. intros c H. unfold tokenChar in H. now apply andb_true_iff in H. Qed.

Lemma tokenChar_nospace : forall c, tokenChar c = true -> negb (Ascii.eqb c " ") = true.
Proof.
  intros c H. apply tokenChar_nonws in H.
  destruct (Ascii.eqb_spec c " "); [subst c; discriminate | reflexivity].
Qed.

Lemma isToken_chars : forall t, isToken t = true -> forallChars tokenChar t = true.
Proof. intros t H. unfold isToken in H. now apply andb_true_iff in H. Qed.

Lemma isToken_cons : forall t, isToken t = true ->
  exists c t', t = String c t' /\ JS.isWhiteSpace c = false.
Proof.
  intros t H. unfold isToken in H. apply andb_true_iff in H. destruct H as [Hne Hc].
  destruct t as [| c t']; [discriminate |]. exists c, t'. split; [reflexivity |].
  simpl in Hc. apply andb_true_iff in Hc. destruct Hc as [Hc _].
  apply tokenChar_nonws in Hc. now destruct (JS.isWhiteSpace c).
Qed.

Lemma forallb_tokens : forall (q : ascii -> bool) toks,
  (forall c, tokenChar c = true -> q c = true) ->
  forallb isToken toks = true -> forallb (forallChars q) toks = true.
Proof.
  intros q toks Hq. induction toks as [| x toks IH]; simpl; [reflexivity |].
  intros H. apply andb_true_iff in H. destruct H as [Hx Ht].
  rewrite (forallChars_impl tokenChar q x Hq (isToken_chars x Hx)). now apply IH.
Qed.

(** Tokens joined by single spaces: the line starts with a character
    that is not white space, is unchanged by [trim], and splits back
    into the tokens. *)
Lemma join_tokens_cons : forall x toks,
  isToken x = true ->
  exists c t, JS.join " " (x :: toks) = String c t /\ JS.isWhiteSpace c = false.
Proof.
  intros x toks Hx. destruct (isToken_cons x Hx) as [c [t' [-> Hc]]].
  destruct toks as [| y toks]; simpl; eauto.
Qed.

Lemma trimEnd_join_tokens : forall x toks,
  forallb isToken (x :: toks) = true ->
  JS.trimEnd (JS.join " " (x :: toks)) = JS.join " " (x :: toks).
Proof.
  intros x toks. revert x. induction toks as [| y toks IH]; intros x H.
  - simpl in *. rewrite andb_true_r in H.
    apply trimEnd_nonws.
    apply (forallChars_impl tokenChar _ x tokenChar_nonws), isToken_chars, H.
  - change (JS.join " " (x :: y :: toks)) with (x ++ " " ++ JS.join " " (y :: toks)).
    simpl in H. apply andb_true_iff in H. destruct H as [Hx Hy].
    assert (Hy' : forallb isToken (y :: toks) = true) by exact Hy.
    apply andb_true_iff in Hy. destruct Hy as [Hy _].
    destruct (join_tokens_cons y toks Hy) as [c [t [E Hc]]].
    assert (Hne : JS.trimEnd (" " ++ JS.join " " (y :: toks)) <> "").
    { rewrite (trimEnd_app " "); [discriminate |].
      rewrite (IH y Hy'), E. discriminate. }
    rewrite (trimEnd_app x _ Hne).
    rewrite (trimEnd_app " "); [| rewrite (IH y Hy'), E; discriminate].
    now rewrite (IH y Hy').
Qed.

Lemma trim_join_tokens : forall x toks,
  forallb isToken (x :: toks) = true ->
  JS.trim (" " ++ JS.join " " (x :: toks)) = JS.join " " (x :: toks).
Proof.
  intros x toks H. unfold JS.trim.
  assert (Hx : isToken x = true) by (simpl in H; now apply andb_true_iff in H).
  destruct (join_tokens_cons x toks Hx) as [c [t [E Hc]]].
  change (JS.trimStart (" " ++ JS.join " " (x :: toks)))
    with (JS.trimStart (JS.join " " (x :: toks))).
  assert (Es : JS.trimStart (JS.join " " (x :: toks)) = JS.join " " (x :: toks)).
  { rewrite E. simpl. now rewrite Hc. }
  rewrite Es. now apply trimEnd_join_tokens.
Qed.

Lemma split_join_tokens : forall x toks,
  forallb isToken (x :: toks) = true ->
  JS.split " " (JS.join " " (x :: toks)) = x :: toks.
Proof.
  intros x toks. revert x. induction toks as [| y toks IH]; intros x H.
  - simpl in *. rewrite andb_true_r in H. apply split_nosep.
    apply (forallChars_impl tokenChar _ x tokenChar_nospace), isToken_chars, H.
  - change (JS.join " " (x :: y :: toks)) with (x ++ String " " (JS.join " " (y :: toks))).
    simpl in H. apply andb_true_iff in H. destruct H as [Hx Hy].
    rewrite split_app_sep.
    + f_equal. now apply IH.
    + apply (forallChars_impl tokenChar _ x tokenChar_nospace), isToken_chars, Hx.
Qed.

Lemma stripLine_docLine : forall x toks,
  forallb isToken (x :: toks) = true ->
  stripLine (docLine (x :: toks)) = JS.join " " (x :: toks).
Proof.
  intros x toks H. unfold stripLine, docLine.
  change ("# " ++ JS.join " " (x :: toks))
    with (String "#" (String " " (JS.join " " (x :: toks)))).
  cbn [JS.removeAll]. rewrite Ascii.eqb_refl.
  change (Ascii.eqb " " "#") with false. cbv iota.
  rewrite removeAll_id.
  - now apply trim_join_tokens.
  - apply forallChars_join; [reflexivity |].
    apply forallb_tokens; [apply tokenChar_nohash | exact H].
Qed.

Section DocLines.
Context {api : Collaborators}.

Lemma parseDocParam_tokens : forall label type cs,
  forallb isToken (label :: type :: cs) = true ->
  parseDocParam (JS.join " " ("@param" :: label :: type :: cs))
  = {| paramLabel := label;
       paramType := type2Str (str2Type (Some type));
       paramComment := JS.join " " cs;
       paramDefault := "" |}.
Proof.
  intros label type cs H. unfold parseDocParam.
  change (JS.join " " ("@param" :: label :: type :: cs))
    with ("@param" ++ (" " ++ JS.join " " (label :: type :: cs))).
  rewrite replaceFirst_prefix, (trim_join_tokens _ _ H), (split_join_tokens _ _ H).
  cbn [hd_error tl].
  assert (Hl : JS.truthy label = true).
  { simpl in H. apply andb_true_iff in H. destruct H as [Hl _].
    unfold isToken in Hl. apply andb_true_iff in Hl. now destruct Hl. }
  rewrite Hl. reflexivity.
Qed.

Lemma parseDocReturn_tokens : forall type rs,
  forallb isToken (type :: rs) = true ->
  parseDocReturn (Some (JS.join " " ("@returns" :: type :: rs)))
  = Some {| retReturnType := type2Str (str2Type (Some type));
            retReturn := JS.join " " rs |}.
Proof.
  intros type rs H. unfold parseDocReturn.
  change (JS.join " " ("@returns" :: type :: rs))
    with ("@returns" ++ (" " ++ JS.join " " (type :: rs))).
  change (JS.truthy ("@returns" ++ (" " ++ JS.join " " (type :: rs)))) with true.
  cbv iota.
  rewrite replaceFirst_prefix, (trim_join_tokens _ _ H), (split_join_tokens _ _ H).
  reflexivity.
Qed.

End DocLines.

Section Blocks.
Context {api : Collaborators}.

Lemma searchBack_block : forall pre body rest,
  forallb (fun l => negb (String.eqb l sentinel)) body = true ->
  searchBack (pre ++ sentinel :: body ++ rest) (List.length pre + 1 + List.length body)
  = Some (List.length pre).
Proof.
  intros pre body. induction body as [| x body IH] using rev_ind; intros rest H.
  - rewrite Nat.add_0_r, Nat.add_comm. cbn [Nat.add searchBack].
    rewrite nth_error_app2 by lia. rewrite Nat.sub_diag.
    cbn [nth_error]. now rewrite String.eqb_refl.
  - rewrite forallb_app in H. apply andb_true_iff in H. destruct H as [Hb Hx].
    simpl in Hx. rewrite andb_true_r in Hx.
    rewrite length_app.
    replace (List.length pre + 1 + (List.length body + List.length [x]))
      with (S (List.length pre + 1 + List.length body)) by (simpl; lia).
    cbn [searchBack].
    rewrite <- app_assoc.
    assert (E : nth_error (pre ++ sentinel :: body ++ [x] ++ rest)
                          (List.length pre + 1 + List.length body) = Some x).
    { rewrite nth_error_app2 by lia.
      replace (List.length pre + 1 + List.length body - List.length pre)
        with (S (List.length body)) by lia.
      cbn [nth_error]. rewrite nth_error_app2 by lia. now rewrite Nat.sub_diag. }
    rewrite E. destruct (String.eqb x sentinel); [discriminate |].
    apply (IH ([x] ++ rest)%list Hb).
Qed.

(** The descriptor of a block in the window, when the body holds no
    sentinel line: it is made of the stripped body lines. *)
Lemma findDocInfo_block : forall name pre body,
  forallb (fun l => negb (String.eqb l sentinel)) body = true ->
  findDocInfo name (Some (pre ++ sentinel :: body ++ [sentinel])%list)
  = let doc := map stripLine body in
    let returns := parseDocReturn (find (JS.startsWith "@returns") doc) in
    Some {| infoName := name;
            infoReturnType := match returns with
                              | Some r => retReturnType r
                              | None => "None"
                              end;
            infoReturn := match returns with
                          | Some r => retReturn r
                          | None => ""
                          end;
            infoDeprecated := "";
            infoComment := JS.join summarySeparator
                             (filter (fun l => negb (JS.startsWith "@" l)) doc);
            infoParameters := map parseDocParam (filter (JS.startsWith "@param") doc) |}.
Proof.
  intros name pre body H. unfold findDocInfo.
  assert (Hlen : List.length (pre ++ sentinel :: body ++ [sentinel])%list - 1
                 = List.length pre + 1 + List.length body).
  { rewrite length_app. cbn [List.length]. rewrite length_app. simpl. lia. }
  rewrite Hlen.
  assert (Hlast : nth_error (pre ++ sentinel :: body ++ [sentinel])%list
                            (List.length pre + 1 + List.length body) = Some sentinel).
  { rewrite nth_error_app2 by lia.
    replace (List.length pre + 1 + List.length body - List.length pre)
      with (S (List.length body)) by lia.
    cbn [nth_error]. rewrite nth_error_app2 by lia. now rewrite Nat.sub_diag. }
  rewrite Hlast, String.eqb_refl, (searchBack_block pre body [sentinel] H).
  destruct (Nat.ltb_spec (List.length pre) (List.length pre + 1 + List.length body));
    [| lia].
  replace (List.length pre + 1 + List.length body - (List.length pre + 1))
    with (List.length body) by lia.
  assert (Hskip : skipn (List.length pre + 1) (pre ++ sentinel :: body ++ [sentinel])%list
                  = (body ++ [sentinel])%list).
  { rewrite skipn_app, skipn_all2 by lia.
    replace (List.length pre + 1 - List.length pre) with 1 by lia. reflexivity. }
  rewrite Hskip, firstn_app, firstn_all, Nat.sub_diag. cbn [firstn].
  rewrite app_nil_r. reflexivity.
Qed.

End Blocks.

Lemma other_lines_param : forall l,
  forallb isOtherLine l = true ->
  filter (JS.startsWith "@param") (map stripLine l) = [].
Proof.
  induction l as [| x l IH]; [reflexivity |]. intros H.
  simpl in H. apply andb_true_iff in H. destruct H as [Hx Hl].
  unfold isOtherLine in Hx. apply andb_true_iff in Hx. destruct Hx as [Hx _].
  apply andb_true_iff in Hx. destruct Hx as [_ Hx]. apply negb_true_iff in Hx.
  cbn [map filter]. rewrite Hx. now apply IH.
Qed.

Lemma other_lines_returns : forall l tl,
  forallb isOtherLine l = true ->
  find (JS.startsWith "@returns") (map stripLine l ++ tl)%list
  = find (JS.startsWith "@returns") tl.
Proof.
  induction l as [| x l IH]; [reflexivity |]. intros tl H.
  simpl in H. apply andb_true_iff in H. destruct H as [Hx Hl].
  unfold isOtherLine in Hx. apply andb_true_iff in Hx. destruct Hx as [_ Hx].
  apply negb_true_iff in Hx.
  cbn [map app find]. rewrite Hx. now apply IH.
Qed.

Lemma other_lines_not_sentinel : forall l,
  forallb isOtherLine l = true ->
  forallb (fun x => negb (String.eqb x sentinel)) l = true.
Proof.
  induction l as [| x l IH]; [reflexivity |]. intros H.
  simpl in H. apply andb_true_iff in H. destruct H as [Hx Hl].
  unfold isOtherLine in Hx. apply andb_true_iff in Hx. destruct Hx as [Hx _].
  apply andb_true_iff in Hx. destruct Hx as [Hx _].
  cbn [forallb]. rewrite Hx. now apply IH.
Qed.

(** C3 (as amended).  Take a block, anywhere in the window, with exactly
    one [@param] line and exactly one [@returns] line, in either order
    and among any other lines, each of the two written as the comment
    leader followed by tokens separated by single spaces.  It parses to
    a descriptor whose label, type and comment fields are those tokens
    verbatim (the comment being the comment tokens joined by single
    spaces), provided that no token holds a [#] or white space and that
    the two type tokens are names which the type normalization maps to
    themselves. *)
Theorem doc_block_round_trip :
  forall (api : Collaborators) (name : string) (pre s1 s2 s3 : list string)
         (paramFirst : bool)
         (label type : string) (cs : list string) (rtype : string) (rs : list string),
    forallb isToken (label :: type :: cs) = true ->
    forallb isToken (rtype :: rs) = true ->
    type2Str (str2Type (Some type)) = type ->
    type2Str (str2Type (Some rtype)) = rtype ->
    forallb isOtherLine (s1 ++ s2 ++ s3) = true ->
    let paramLine := docLine ("@param" :: label :: type :: cs) in
    let returnsLine := docLine ("@returns" :: rtype :: rs) in
    findDocInfo name
      (Some (pre ++ sentinel
                 :: (s1 ++ [if paramFirst then paramLine else returnsLine]
                        ++ s2 ++ [if paramFirst then returnsLine else paramLine]
                        ++ s3)
                 ++ [sentinel])%list)
    = Some {| infoName := name;
              infoReturnType := rtype;
              infoReturn := JS.join " " rs;
              infoDeprecated := "";
              infoComment := summaryOf (s1 ++ s2 ++ s3);
              infoParameters := [ {| paramLabel := label;
                                     paramType := type;
                                     paramComment := JS.join " " cs;
                                     paramDefault := "" |} ] |}.
Proof.
  intros api name pre s1 s2 s3 paramFirst label type cs rtype rs
         Hp Hr Hty Hrty Hother paramLine returnsLine.
  assert (HP : forallb isToken ("@param" :: label :: type :: cs) = true)
    by (change (true && forallb isToken (label :: type :: cs) = true); exact Hp).
  assert (HR : forallb isToken ("@returns" :: rtype :: rs) = true)
    by (change (true && forallb isToken (rtype :: rs) = true); exact Hr).
  rewrite !forallb_app in Hother.
  apply andb_true_iff in Hother. destruct Hother as [H1 Hother].
  apply andb_true_iff in Hother. destruct Hother as [H2 H3].
  set (P := JS.join " " ("@param" :: label :: type :: cs)).
  set (Rl := JS.join " " ("@returns" :: rtype :: rs)).
  assert (EP : stripLine paramLine = P) by apply (stripLine_docLine _ _ HP).
  assert (ER : stripLine returnsLine = Rl) by apply (stripLine_docLine _ _ HR).
  assert (HPp : JS.startsWith "@param" P = true) by apply prefix_app.
  assert (HPr : JS.startsWith "@returns" P = false) by reflexivity.
  assert (HRp : JS.startsWith "@param" Rl = false) by reflexivity.
  assert (HRr : JS.startsWith "@returns" Rl = true) by apply prefix_app.
  assert (HPa : JS.startsWith "@" P = true) by reflexivity.
  assert (HRa : JS.startsWith "@" Rl = true) by reflexivity.
  assert (HPs : String.eqb paramLine sentinel = false) by reflexivity.
  assert (HRs : String.eqb returnsLine sentinel = false) by reflexivity.
  rewrite findDocInfo_block.
  - cbv zeta. unfold summaryOf.
    rewrite !map_app. cbn [map]. rewrite !filter_app. cbn [filter].
    rewrite !(other_lines_param _ H1), !(other_lines_param _ H2),
            !(other_lines_param _ H3).
    rewrite (other_lines_returns s1 _ H1).
    destruct paramFirst; rewrite EP, ER.
    + cbn [app find]. rewrite HPr, HPp, HRp, HPa, HRa.
      rewrite (other_lines_returns s2 _ H2). cbn [app find negb map].
      rewrite HRr.
      unfold P, Rl.
      rewrite (parseDocReturn_tokens _ _ Hr), (parseDocParam_tokens _ _ _ Hp).
      cbn [retReturnType retReturn]. rewrite Hty, Hrty. reflexivity.
    + cbn [app find]. rewrite HRr, HPp, HRp, HPa, HRa. cbn [app negb map].
      unfold P, Rl.
      rewrite (parseDocReturn_tokens _ _ Hr), (parseDocParam_tokens _ _ _ Hp).
      cbn [retReturnType retReturn]. rewrite Hty, Hrty. reflexivity.
  - rewrite !forallb_app. cbn [forallb].
    rewrite (other_lines_not_sentinel _ H1), (other_lines_not_sentinel _ H2),
            (other_lines_not_sentinel _ H3).
    destruct paramFirst; rewrite HPs, HRs; reflexivity.
Qed.

Lemma doc_block_round_trip_witness :
  findDocInfo (api := demoApi) "add"
    (Some ["x = 1"; "###"; "# adds two numbers";
           "# @param a number the first term"; "# @returns number the sum"; "###"])
  = Some {| infoName := "add";
            infoReturnType := "number";
            infoReturn := "the sum";
            infoDeprecated := "";
            infoComment := "adds two numbers";
            infoParameters := [ {| paramLabel := "a"; paramType := "number";
                                   paramComment := "the first term";
                                   paramDefault := "" |} ] |}.
Proof.
  apply (@doc_block_round_trip demoApi "add" ["x = 1"] ["# adds two numbers"] [] [] true
           "a" "number" ["the"; "first"; "term"] "number" ["the"; "sum"]);
    reflexivity.
Defined.

(** C3, counterexample.  A comment token that holds a [#] does not come
    back: the [#] is removed from the whole line before it is parsed. *)
Lemma hash_in_comment_is_lost :
  option_map (fun d => map paramComment (infoParameters d))
             (findDocInfo (api := demoApi) "f" (Some hashBlock))
  = Some ["item 3"]
  /\ option_map (fun d => map paramComment (infoParameters d))
                (findDocInfo (api := demoApi) "f" (Some hashBlock))
     <> Some ["item #3"].
Proof. split; [vm_compute; reflexivity | vm_compute; discriminate]. Qed.

(** A type token outside the normalization table comes back as the
    untyped sentinel. *)
Example unknown_type_is_normalized :
  paramType (parseDocParam (api := demoApi) "@param p pose the target") = "None".
Proof. vm_compute. reflexivity. Qed.

(** C9 (as amended).  For a declaration whose window holds no
    documentation block, [findDoc] yields no descriptor at all (an
    absent value, not an error and not a descriptor of default fields),
    and the completion entry and the hover are built from the
    declaration alone: they are those built with no window, and the
    entry carries the extracted name and no documentation.  The untyped
    return type ['None'] with an empty return comment is what [findDoc]
    writes into the descriptor of a block that has no [@returns] line. *)
Theorem undocumented_declaration_has_no_descriptor :
  forall (api : Collaborators),
    (forall (name : string) (window : list string),
        hasBlock window = false ->
        findDoc name (Some window) = None
        /\ (forall value,
               buildCmpItem value name (Some window) = buildCmpItem value name None
               /\ documentation (buildCmpItem value name (Some window)) = None
               /\ label (buildCmpItem value name (Some window)) = name)
        /\ (forall matchResult,
               parseHover matchResult (Some window) = parseHover matchResult None))
    /\ (forall (name : string) (pre body : list string),
           forallb (fun l => negb (String.eqb l sentinel)) body = true ->
           find (JS.startsWith "@returns") (map stripLine body) = None ->
           exists d,
             findDocInfo name (Some (pre ++ sentinel :: body ++ [sentinel])%list) = Some d
             /\ infoReturnType d = "None" /\ infoReturn d = "").
Proof.
  intros api. split.
  - intros name window H.
    pose proof (findDoc_no_block name window H) as Hd.
    split; [exact Hd |]. split.
    + intros value. split; [| split].
      * unfold buildCmpItem. rewrite Hd. reflexivity.
      * unfold buildCmpItem. rewrite Hd. cbv zeta. cbn [option_map].
        destruct (test (Lit "global") value); [reflexivity |].
        destruct (test (Lit "thread") value); [reflexivity |].
        destruct (exec paramPat value) as [paramReg |]; [| reflexivity].
        destruct (nth_error (elems paramReg) 1) as [[p1 |] |]; try reflexivity.
        destruct (negb (isBlank p1)); reflexivity.
      * apply buildCmpItem_label.
    + intros matchResult. unfold parseHover.
      destruct matchResult as [a |]; [| reflexivity].
      destruct (exec namePat (matched a)) as [nameReg |]; [| reflexivity].
      rewrite (findDoc_no_block (matched nameReg) window H). reflexivity.
  - intros name pre body Hbody Hret.
    rewrite (findDocInfo_block name pre body Hbody). cbv zeta.
    rewrite Hret. eexists. split; [reflexivity |]. split; reflexivity.
Qed.

Lemma undocumented_declaration_has_no_descriptor_witness :
  findDoc (api := demoApi) "foo" (Some ["x = 1"]) = None.
Proof.
  exact (proj1 (proj1 (undocumented_declaration_has_no_descriptor demoApi)
                      "foo" ["x = 1"] eq_refl)).
Defined.

(** C9, counterexample.  For the undocumented [def foo(a, b):] no
    descriptor exists, in particular none with an empty summary and the
    ['None'] return type; the completion entry is made of the
    declaration's name and parameter text and carries no documentation. *)
Lemma undocumented_foo_has_no_default_descriptor :
  findDocInfo (api := demoApi) "foo" (Some ["x = 1"]) = None
  /\ ~ (exists d, findDocInfo (api := demoApi) "foo" (Some ["x = 1"]) = Some d
                  /\ infoComment d = "" /\ infoReturnType d = "None")
  /\ map (fun it => (label it, detail it, documentation it))
         (getCompletionItemsFromFile (api := demoApi) undocumentedFs "prog.script" "foo" [])
     = [("foo", "foo(a, b)", None)].
Proof.
  split; [reflexivity |]. split.
  - intros [d [H _]]. vm_compute in H. discriminate.
  - vm_compute. reflexivity.
Qed.

(* ================================================================== *)
(** * Workspace scans *)
(* ================================================================== *)

Lemma fold_left_app_flat_map : forall (A B : Type) (g : A -> list B) l acc,
  fold_left (fun acc x => (acc ++ g x)%list) l acc = (acc ++ flat_map g l)%list.
Proof.
  intros A B g l. induction l as [| x l IH]; intros acc; simpl.
  - now rewrite app_nil_r.
  - now rewrite IH, app_assoc.
Qed.

Section Workspace.
Context {api : Collaborators}.

Lemma unreadable_no_lines : forall fs file,
  readable fs file = false -> ReadLinesSync fs file = [].
Proof.
  intros fs file H. unfold readable in H. unfold ReadLinesSync.
  destruct (fileLines fs file); [discriminate | reflexivity].
Qed.

Lemma unreadable_location : forall fs file keyword,
  readable fs file = false -> getLocationFromFile fs file keyword = [].
Proof.
  intros fs file keyword H. unfold getLocationFromFile.
  now rewrite (unreadable_no_lines fs file H).
Qed.

Lemma unreadable_hover : forall fs file keyword,
  readable fs file = false -> getHoverFromFile fs file keyword = None.
Proof.
  intros fs file keyword H. unfold getHoverFromFile.
  now rewrite (unreadable_no_lines fs file H).
Qed.

Lemma unreadable_signature : forall fs file keyword,
  readable fs file = false -> getSignatureFromFile fs file keyword = None.
Proof.
  intros fs file keyword H. unfold getSignatureFromFile.
  now rewrite (unreadable_no_lines fs file H).
Qed.

(** The location scan of a workspace visits every file and keeps the
    records in file order, then line order. *)
Lemma getLocationFromWorkspace_flat_map : forall fs workspace keyword explored,
  getLocationFromWorkspace fs workspace keyword explored
  = flat_map (fun file => getLocationFromFile fs file keyword)
             (lookupFiles fs workspace explored).
Proof.
  intros. unfold getLocationFromWorkspace.
  rewrite fold_left_app_flat_map. reflexivity.
Qed.

End Workspace.

Lemma firstResult_skip : forall (F A : Type) (f : F -> option A) pre bad post,
  f bad = None -> firstResult f (pre ++ bad :: post) = firstResult f (pre ++ post).
Proof.
  intros F A f pre bad post H. induction pre as [| x pre IH]; simpl.
  - now rewrite H.
  - now rewrite IH.
Qed.

(** C6.  With the line reader as the spec describes it, a file of the
    workspace that cannot be read contributes nothing and the scan goes
    on with the files after it.  Whatever its place [pre ++ bad :: post]
    in the listing, the location scan returns the records of all the
    other files, those before it and those after it, in order; the
    hover and the signature scan return the answer of the first of the
    other files that has one, and nothing only when none of them has. *)
Theorem unreadable_file_is_skipped :
  forall (api : Collaborators) fs workspace keyword explored pre bad post,
    lookupFiles fs workspace explored = (pre ++ bad :: post)%list ->
    readable fs bad = false ->
    getLocationFromWorkspace fs workspace keyword explored
    = (flat_map (fun file => getLocationFromFile fs file keyword) pre
       ++ flat_map (fun file => getLocationFromFile fs file keyword) post)%list
    /\ (forall before file after hover,
           (pre ++ post = before ++ file :: after)%list ->
           (forall f, In f before -> getHoverFromFile fs f keyword = None) ->
           getHoverFromFile fs file keyword = Some hover ->
           getHoverFromWorkspace fs workspace keyword explored = Some hover)
    /\ (forall before file after help,
           (pre ++ post = before ++ file :: after)%list ->
           (forall f, In f before -> getSignatureFromFile fs f keyword = None) ->
           getSignatureFromFile fs file keyword = Some help ->
           getSignatureFromWorkspace fs workspace keyword explored = Some help)
    /\ ((forall f, In f (pre ++ post)%list -> getHoverFromFile fs f keyword = None) ->
        getHoverFromWorkspace fs workspace keyword explored = None)
    /\ ((forall f, In f (pre ++ post)%list -> getSignatureFromFile fs f keyword = None) ->
        getSignatureFromWorkspace fs workspace keyword explored = None).
Proof.
  intros api fs workspace keyword explored pre bad post Hfiles Hbad.
  split; [| split; [| split; [| split]]].
  - rewrite getLocationFromWorkspace_flat_map, Hfiles, flat_map_app.
    cbn [flat_map]. now rewrite (unreadable_location fs bad keyword Hbad).
  - intros before file after hover Hsplit Hbefore Hfile.
    unfold getHoverFromWorkspace. rewrite Hfiles.
    rewrite firstResult_skip by now apply unreadable_hover.
    rewrite Hsplit. now apply firstResult_first.
  - intros before file after help Hsplit Hbefore Hfile.
    unfold getSignatureFromWorkspace. rewrite Hfiles.
    rewrite firstResult_skip by now apply unreadable_signature.
    rewrite Hsplit. now apply firstResult_first.
  - intros Hnone. unfold getHoverFromWorkspace. rewrite Hfiles.
    rewrite firstResult_skip by now apply unreadable_hover.
    now apply firstResult_none.
  - intros Hnone. unfold getSignatureFromWorkspace. rewrite Hfiles.
    rewrite firstResult_skip by now apply unreadable_signature.
    now apply firstResult_none.
Qed.

Lemma unreadable_file_is_skipped_witness :
  getLocationFromWorkspace brokenFs wsFolder "move" ""
  = (flat_map (fun file => getLocationFromFile brokenFs file "move") [pathIn "a.script"]
     ++ flat_map (fun file => getLocationFromFile brokenFs file "move") [pathIn "c.script"])%list.
Proof.
  apply (proj1 (@unreadable_file_is_skipped demoApi brokenFs wsFolder "move" ""
                  [pathIn "a.script"] (pathIn "b.script") [pathIn "c.script"]
                  eq_refl eq_refl)).
Defined.

(** Three files, the second unreadable: the records of the first and
    the third are returned, and the hover of the first. *)
Example scan_with_unreadable_file :
  getLocationFromWorkspace brokenFs wsFolder "move" ""
  = [ {| uri := pathIn "a.script"; range := {| line := 0; character := 4 |} |};
      {| uri := pathIn "c.script"; range := {| line := 1; character := 7 |} |} ]
  /\ getHoverFromWorkspace (api := demoApi) brokenFs wsFolder "move" ""
     = Some {| contents := [Markdown (mkMarkdown "*user function*");
                            Markdown (mkMarkdown "move(p)")] |}.
Proof. split; vm_compute; reflexivity. Qed.

(** C8, the code at the failing input.  Only the second of three files
    declares [move], on its second line, where the identifier starts at
    column 6.  Exactly one record is returned, for that file and line,
    but its column is 4: the offset of the identifier in the matched
    text [def move(p):], not in the line. *)
Lemma location_column_counts_from_match :
  getLocationFromWorkspace indentedFs wsFolder "move" ""
  = [ {| uri := pathIn "b.script"; range := {| line := 1; character := 4 |} |} ]
  /\ String.substring 6 4 "  def move(p):" = "move"
  /\ String.substring 4 4 "  def move(p):" <> "move".
Proof.
  split; [vm_compute; reflexivity |].
  split; [reflexivity | vm_compute; discriminate].
Qed.

(** The state of the two pattern objects also leaks from one line to
    the next: a second declaration of the same file is located at its
    parameter. *)
Example location_second_declaration :
  getLocationFromWorkspace twiceFs wsFolder "move" ""
  = [ {| uri := pathIn "a.script"; range := {| line := 0; character := 4 |} |};
      {| uri := pathIn "a.script"; range := {| line := 2; character := 9 |} |} ].
Proof. vm_compute. reflexivity. Qed.

(* ================================================================== *)
(** * The counters of the matcher are large enough *)
(* ================================================================== *)

Lemma get_beyond : forall s i, String.length s <= i -> String.get i s = None.
Proof.
  induction s as [| c s IH]; intros i H; [now destruct i |].
  destruct i as [| i]; simpl in *; [lia | apply IH; lia].
Qed.

Lemma starLoop_ext :
  forall (R : Type) (body : nat -> captures -> cont R -> option R) greedy,
    (forall i c (k1 k2 : cont R),
        (forall j c', i <= j -> k1 j c' = k2 j c') -> body i c k1 = body i c k2) ->
    forall n i c (k1 k2 : cont R),
      (forall j c', i <= j -> k1 j c' = k2 j c') ->
      starLoop body greedy k1 n i c = starLoop body greedy k2 n i c.
Proof.
  intros R body greedy Hbody. induction n as [| n IH]; intros i c k1 k2 Hk; simpl.
  - apply Hk. lia.
  - rewrite (Hk i c) by lia.
    rewrite (Hbody i c _ (fun j c' => if j =? i then None
                                      else starLoop body greedy k2 n j c')).
    + reflexivity.
    + intros j c' Hj. destruct (j =? i); [reflexivity |].
      apply IH. intros j' c'' Hj'. apply Hk. lia.
Qed.

(** The result of a match depends on its continuation only at indices
    from the current one on. *)
Lemma m_ext : forall (s : string) (r : regex) (R : Type) (i : nat) (c : captures)
                     (k1 k2 : cont R),
  (forall j c', i <= j -> k1 j c' = k2 j c') ->
  m s r i c k1 = m s r i c k2.
Proof.
  intros s r. induction r as [| a | p | a IHa b IHb | a IHa b IHb | g a IHa
                              | n a IHa | | a IHa]; intros R i c k1 k2 Hk; cbn [m].
  - apply Hk. lia.
  - destruct (String.get i s) as [b |]; [| reflexivity].
    destruct (Ascii.eqb b a); [apply Hk; lia | reflexivity].
  - destruct (String.get i s) as [b |]; [| reflexivity].
    destruct (p b); [apply Hk; lia | reflexivity].
  - apply IHa. intros j c' Hj. apply IHb. intros j' c'' Hj'. apply Hk. lia.
  - now rewrite (IHa R i c k1 k2 Hk), (IHb R i c k1 k2 Hk).
  - apply starLoop_ext; [| exact Hk].
    intros i' c' k1' k2' Hk'. now apply IHa.
  - apply IHa. intros j c' Hj. apply Hk. lia.
  - destruct (isWordBoundary s i); [apply Hk; lia | reflexivity].
  - destruct (m s a i c (fun _ _ => Some tt)); [reflexivity | apply Hk; lia].
Qed.

Lemma starLoop_at_end :
  forall (R : Type) (body : nat -> captures -> cont R -> option R) greedy (k : cont R) i,
    (forall c (k' : cont R) x, body i c k' = Some x -> exists c', k' i c' = Some x) ->
    forall n c x,
      starLoop body greedy k n i c = Some x -> exists c', k i c' = Some x.
Proof.
  intros R body greedy k i Hbody n c x H. destruct n as [| n]; simpl in H.
  - now exists c.
  - assert (Hiter : body i c (fun j c' => if j =? i then None
                                          else starLoop body greedy k n j c') = None).
    { destruct (body i c _) as [y |] eqn:E; [| reflexivity].
      apply Hbody in E. destruct E as [c' E]. now rewrite Nat.eqb_refl in E. }
    rewrite Hiter in H. unfold orElse in H.
    destruct greedy; [now exists c |].
    destruct (k i c) eqn:E; [| discriminate]. exists c. congruence.
Qed.

(** At the end of the subject a match consumes nothing. *)
Lemma m_at_end : forall (s : string) (r : regex) (R : Type) (i : nat) (c : captures)
                        (k : cont R) (x : R),
  String.length s <= i ->
  m s r i c k = Some x -> exists c', k i c' = Some x.
Proof.
  intros s r. induction r as [| a | p | a IHa b IHb | a IHa b IHb | g a IHa
                              | n a IHa | | a IHa]; intros R i c k x Hi H; cbn [m] in H.
  - now exists c.
  - rewrite (get_beyond s i Hi) in H. discriminate.
  - rewrite (get_beyond s i Hi) in H. discriminate.
  - apply IHa in H; [| exact Hi]. destruct H as [c' H]. now apply IHb in H.
  - unfold orElse in H. destruct (m s a i c k) eqn:E.
    + rewrite <- H. now apply IHa in E.
    + now apply IHb in H.
  - apply starLoop_at_end in H; [exact H |].
    intros c' k' y Hy. now apply IHa in Hy.
  - apply IHa in H; [| exact Hi]. destruct H as [c' H]. now exists ((n, (i, i)) :: c').
  - destruct (isWordBoundary s i); [now exists c | discriminate].
  - destruct (m s a i c (fun _ _ => Some tt)); [discriminate | now exists c].
Qed.

(** The counter of the star loop is never exhausted: from any counter
    above the distance to the end of the subject on, the result is the
    same.  [m] starts the loop at [S (length s)]. *)
Lemma starLoop_counter :
  forall (s : string) (a : regex) (R : Type) greedy (k : cont R) n extra i c,
    String.length s < n + i ->
    starLoop (fun i' c' k' => m s a i' (clearCaps (groupsOf a) c') k')
             greedy k (n + extra) i c
    = starLoop (fun i' c' k' => m s a i' (clearCaps (groupsOf a) c') k')
               greedy k n i c.
Proof.
  intros s a R greedy k. induction n as [| n IH]; intros extra i c Hn.
  - simpl in Hn. simpl. destruct extra as [| extra]; [reflexivity |]. simpl.
    match goal with
    | |- context [m s a i ?cc ?kk] => destruct (m s a i cc kk) as [y |] eqn:E
    end.
    + apply m_at_end in E; [| lia]. destruct E as [c' E].
      now rewrite Nat.eqb_refl in E.
    + unfold orElse. destruct greedy; [reflexivity | now destruct (k i c)].
  - simpl.
    rewrite (m_ext s a _ i (clearCaps (groupsOf a) c)
               (fun j c' => if j =? i then None
                            else starLoop (fun i' c'0 k' =>
                                             m s a i' (clearCaps (groupsOf a) c'0) k')
                                          greedy k (n + extra) j c')
               (fun j c' => if j =? i then None
                            else starLoop (fun i' c'0 k' =>
                                             m s a i' (clearCaps (groupsOf a) c'0) k')
                                          greedy k n j c')).
    + reflexivity.
    + intros j c' Hj. destruct (Nat.eqb_spec j i); [reflexivity |].
      apply IH. lia.
Qed.

(** Likewise for the loop of [split]: every second round at the latest
    moves the index forward. *)
Lemma splitLoop_counter : forall r s n extra p q acc,
  2 * (String.length s - q) + (if p =? q then 0 else 1) < n ->
  splitLoop r s (n + extra) p q acc = splitLoop r s n p q acc.
Proof.
  intros r s. induction n as [| n IH]; intros extra p q acc Hn; [lia |].
  simpl. destruct (Nat.ltb_spec q (String.length s)) as [Hq | Hq]; [| reflexivity].
  destruct (matchAt r s q) as [[e c] |] eqn:E.
  - apply matchAt_minLen in E.
    destruct (Nat.eqb_spec (Nat.min e (String.length s)) p) as [Hp | Hp].
    + apply IH. destruct (p =? q), (p =? S q); lia.
    + apply IH. rewrite Nat.eqb_refl.
      destruct (Nat.eqb_spec p q); lia.
  - apply IH. destruct (p =? q), (p =? S q); lia.
Qed.

Lemma splitRe_counter : forall r s extra,
  splitLoop r s (2 * String.length s + 2 + extra) 0 0 []
  = splitLoop r s (2 * String.length s + 2) 0 0 [].
Proof. intros r s extra. apply splitLoop_counter. simpl. lia. Qed.

(* ================================================================== *)
(** * Further examples *)
(* ================================================================== *)

(** A block of 21 lines (the two sentinels and 19 lines between them)
    is still whole in the window when the declaration is read; one line
    more and its opening sentinel is gone. *)
Example block_of_21_lines_is_found :
  isSome (getSignatureFromFile (api := demoApi) (longBlockFs 19) "prog.script" "foo") = true
  /\ getSignatureFromFile (api := demoApi) (longBlockFs 20) "prog.script" "foo" = None.
Proof. split; vm_compute; reflexivity. Qed.

(** Without a closing parenthesis on the line the provider answers
    nothing, retrigger or not. *)
Example call_without_closing_parenthesis :
  provideSignatureHelp (api := demoApi) wordAdd noDocumentSignature emptyFs addCatalog None
                       openCallDocument (mkPosition 0 8) retrigger
  = (None, addCatalog)
  /\ provideSignatureHelp (api := demoApi) wordAdd noDocumentSignature emptyFs addCatalog None
                          openCallDocument (mkPosition 0 4) freshTrigger
     = (None, addCatalog).
Proof. split; vm_compute; reflexivity. Qed.

(** In a file scan a declaration that follows a matched line can be
    missed, because the pattern object resumes at the [lastIndex] the
    previous match left. *)
Example completion_file_scan_resumes_at_lastIndex :
  map label (getCompletionItemsFromFile (api := demoApi)
               (fsOf [("prog.script", ["def foo(a, b):"; "def bar():"; "def baz():"])] [])
               "prog.script" "" [])
  = ["foo"; "baz"].
Proof. vm_compute. reflexivity. Qed.

(** A name that begins with one of the three keywords is not
    extracted, so its declaration gives no entry. *)
Example name_starting_with_keyword :
  exec namePat "def default_speed():" = None
  /\ getCompletionItemsFromText (api := demoApi) "def default_speed():" "" [] = [].
Proof. split; vm_compute; reflexivity. Qed.

(* ================================================================== *)
(** * Further properties of the signature provider *)
(* ================================================================== *)

Lemma indexOfFrom_absent : forall c s pos from,
  countChar c s = 0 -> JS.indexOfFrom c s pos from = (-1)%Z.
Proof.
  intros c s. induction s as [| d s IH]; intros pos from H; simpl in *.
  - reflexivity.
  - destruct (Ascii.eqb d c); [discriminate |].
    rewrite andb_false_r. now apply IH.
Qed.

Lemma countChar_le_length : forall c s, countChar c s <= String.length s.
Proof.
  intros c s. induction s as [| d s IH]; simpl; [lia |].
  destruct (Ascii.eqb d c); lia.
Qed.

Lemma substring_length_le : forall s n len, String.length (String.substring n len s) <= len.
Proof.
  induction s as [| d s IH]; intros n len.
  - destruct n, len; simpl; lia.
  - destruct n as [| n].
    + destruct len as [| len]; simpl; [lia |]. specialize (IH 0 len). lia.
    + simpl. apply IH.
Qed.

Lemma resetMatched_names : forall word sigs,
  map sigName (resetMatched word sigs) = map sigName sigs.
Proof.
  intros word sigs. induction sigs as [| sig rest IH]; simpl; [reflexivity |].
  destruct (String.eqb (sigName sig) word); simpl; [reflexivity | now rewrite IH].
Qed.

Lemma resetMatched_signatures : forall word sigs,
  map (fun sig => signatures (sigItem sig)) (resetMatched word sigs)
  = map (fun sig => signatures (sigItem sig)) sigs.
Proof.
  intros word sigs. induction sigs as [| sig rest IH]; simpl; [reflexivity |].
  destruct (String.eqb (sigName sig) word); simpl; [reflexivity | now rewrite IH].
Qed.

(** X1.  Signature help needs the closing parenthesis on the line: when
    the line of the cursor holds no [)], the provider answers nothing,
    on a fresh trigger and on a retrigger alike, and leaves the catalog
    as it was. *)
Theorem no_help_without_closing_parenthesis :
  forall (api : Collaborators) wordBefore getSignatureFromDocument fs
         scriptSignatures workspaceFolders document position context line,
    lineAt document position = Some line ->
    countChar ")" (text line) = 0 ->
    (0 <= character position)%Z ->
    provideSignatureHelp wordBefore getSignatureFromDocument fs
                         scriptSignatures workspaceFolders document position context
    = (None, scriptSignatures).
Proof.
  intros api wordBefore getSig fs sigs folders document position context line
         Hline Hnone Hpos.
  unfold provideSignatureHelp. rewrite Hline. cbv zeta.
  unfold JS.indexOf at 2. rewrite (indexOfFrom_absent ")" (text line) _ _ Hnone).
  destruct (Z.ltb_spec (-1) (character position)) as [_ | H]; [| lia].
  now rewrite orb_true_r.
Qed.

Lemma no_help_without_closing_parenthesis_witness :
  provideSignatureHelp (api := demoApi) wordAdd noDocumentSignature emptyFs addCatalog None
                       openCallDocument (mkPosition 0 8) retrigger
  = (None, addCatalog).
Proof.
  apply (@no_help_without_closing_parenthesis demoApi wordAdd noDocumentSignature emptyFs
           addCatalog None openCallDocument (mkPosition 0 8) retrigger
           (mkTextLine "add(1,2," 0)).
  - reflexivity.
  - reflexivity.
  - vm_compute; discriminate.
Defined.

(** X2.  Whatever the request, the provider keeps the catalog's entries
    in place: the catalog it leaves has the same names and the same
    signature lists, entry by entry, and the only entry whose active
    indices can differ is the one whose [Item] the call returns (the
    entry found by name on a fresh trigger, the entry the editor handed
    back on a retrigger); when the call returns nothing, or an object
    outside the catalog, the catalog is as it was. *)
Theorem catalog_names_and_signatures_kept :
  forall (api : Collaborators) wordBefore getSignatureFromDocument fs
         scriptSignatures workspaceFolders document position context,
    let result := provideSignatureHelp wordBefore getSignatureFromDocument fs
                    scriptSignatures workspaceFolders document position context in
    map sigName (snd result) = map sigName scriptSignatures
    /\ map (fun sig => signatures (sigItem sig)) (snd result)
       = map (fun sig => signatures (sigItem sig)) scriptSignatures
    /\ (forall k, fst result <> Some (ItemOf k) ->
                  nth_error (snd result) k = nth_error scriptSignatures k)
    /\ ((forall k, fst result <> Some (ItemOf k)) -> snd result = scriptSignatures).
Proof.
  intros api wordBefore getSig fs sigs folders document position context result.
  assert (H : (exists r, (forall k, r <> Some (ItemOf k)) /\ result = (r, sigs))
              \/ (exists n index, result = (Some (ItemOf n), writeActiveParameter n index sigs))
              \/ (exists word,
                     result = (Some (ItemOf (findIndex
                                               (fun sig => String.eqb (sigName sig) word) sigs)),
                               resetMatched word sigs))).
  { unfold result, provideSignatureHelp.
    destruct (lineAt document position) as [line |];
      [| left; exists None; split; [discriminate | reflexivity]].
    cbv zeta.
    destruct ((character position <? JS.indexOf "(" (text line) 0)%Z
              || (JS.indexOf ")" (text line) (JS.indexOf "(" (text line) 0)
                  <? character position)%Z);
      [left; exists None; split; [discriminate | reflexivity] |].
    destruct (if isRetrigger context then activeSignatureHelp context else None)
      as [[n | h] |].
    - right; left. now eexists _, _.
    - left. eexists. split; [| reflexivity]. discriminate.
    - destruct (wordBefore document (lineNumber line) (JS.indexOf "(" (text line) 0 - 1)%Z)
        as [word |]; [| left; exists None; split; [discriminate | reflexivity]].
      destruct (find (fun sig => String.eqb (sigName sig) word) sigs);
        [right; right; now exists word |].
      left. destruct (getSig document word) as [h |].
      + exists (Some (Detached h)). split; [discriminate | now destruct folders].
      + destruct folders as [fl |].
        * eexists. split; [| reflexivity].
          intros k. now destruct (firstResult _ fl).
        * exists None. split; [discriminate | reflexivity]. }
  destruct H as [[r [Hr ->]] | [[n [index ->]] | [word ->]]]; cbn [fst snd].
  - repeat split; reflexivity.
  - split; [apply writeActiveParameter_names |].
    split; [apply writeActiveParameter_signatures |]. split.
    + intros k Hk. apply writeActiveParameter_elsewhere. congruence.
    + intros Hk. now elim (Hk n).
  - split; [apply resetMatched_names |].
    split; [apply resetMatched_signatures |]. split.
    + intros k Hk. apply resetMatched_elsewhere. congruence.
    + intros Hk. now elim (Hk (findIndex (fun sig => String.eqb (sigName sig) word) sigs)).
Qed.

Lemma catalog_names_and_signatures_kept_witness :
  snd (provideSignatureHelp (api := demoApi) wordAdd noDocumentSignature emptyFs
         addCatalog None openCallDocument (mkPosition 0 8) retrigger)
  = addCatalog.
Proof.
  apply (proj2 (proj2 (proj2 (@catalog_names_and_signatures_kept demoApi wordAdd
                                noDocumentSignature emptyFs addCatalog None
                                openCallDocument (mkPosition 0 8) retrigger)))).
  intros k. vm_compute. discriminate.
Defined.

Lemma find_writeActiveParameter : forall word n index sigs,
  isSome (find (fun sig => String.eqb (sigName sig) word) (writeActiveParameter n index sigs))
  = isSome (find (fun sig => String.eqb (sigName sig) word) sigs).
Proof.
  intros word. induction n as [| n IH]; intros index sigs; destruct sigs as [| sig rest];
    try reflexivity.
  - simpl. now destruct (String.eqb (sigName sig) word).
  - simpl. destruct (String.eqb (sigName sig) word); [reflexivity | apply IH].
Qed.

Lemma findIndex_writeActiveParameter : forall word n index sigs,
  findIndex (fun sig => String.eqb (sigName sig) word) (writeActiveParameter n index sigs)
  = findIndex (fun sig => String.eqb (sigName sig) word) sigs.
Proof.
  intros word. induction n as [| n IH]; intros index sigs; destruct sigs as [| sig rest];
    try reflexivity.
  simpl. destruct (String.eqb (sigName sig) word); [reflexivity | now rewrite IH].
Qed.

Lemma resetMatched_writeActiveParameter : forall word index sigs,
  resetMatched word
    (writeActiveParameter (findIndex (fun sig => String.eqb (sigName sig) word) sigs)
                          index sigs)
  = resetMatched word sigs.
Proof.
  intros word index sigs. induction sigs as [| sig rest IH]; [reflexivity |].
  simpl. destruct (String.eqb (sigName sig) word) eqn:E; simpl; rewrite E.
  - reflexivity.
  - now rewrite IH.
Qed.

(** X3.  The reset on a catalog hit is what undoes a retrigger.  A
    retrigger on the [Item] of a catalog entry leaves its index in the
    catalog; the next fresh trigger for that entry's name answers, and
    leaves the catalog, exactly as if the retrigger had never happened. *)
Theorem catalog_hit_forgets_retrigger :
  forall (api : Collaborators) wordBefore getSignatureFromDocument fs
         scriptSignatures workspaceFolders document1 position1 document position
         line word matched,
    lineAt document position = Some line ->
    (JS.indexOf "(" (text line) 0 <= character position)%Z ->
    (character position <= JS.indexOf ")" (text line) (JS.indexOf "(" (text line) 0))%Z ->
    wordBefore document (lineNumber line) (JS.indexOf "(" (text line) 0 - 1)%Z = Some word ->
    find (fun sig => String.eqb (sigName sig) word) scriptSignatures = Some matched ->
    let item := ItemOf (findIndex (fun sig => String.eqb (sigName sig) word)
                                  scriptSignatures) in
    let written :=
      snd (provideSignatureHelp wordBefore getSignatureFromDocument fs
             scriptSignatures workspaceFolders document1 position1
             {| isRetrigger := true; activeSignatureHelp := Some item |}) in
    provideSignatureHelp wordBefore getSignatureFromDocument fs
                         written workspaceFolders document position
                         {| isRetrigger := false; activeSignatureHelp := None |}
    = provideSignatureHelp wordBefore getSignatureFromDocument fs
                           scriptSignatures workspaceFolders document position
                           {| isRetrigger := false; activeSignatureHelp := None |}.
Proof.
  intros api wordBefore getSig fs sigs folders document1 position1 document position
         line word matched Hline Hleft Hright Hword Hfind item written.
  set (named := fun sig => String.eqb (sigName sig) word) in *.
  assert (Hw : written = sigs
               \/ exists index, written = writeActiveParameter (findIndex named sigs)
                                                               index sigs).
  { unfold written, provideSignatureHelp.
    destruct (lineAt document1 position1) as [line1 |]; [| now left].
    cbv zeta.
    destruct ((character position1 <? JS.indexOf "(" (text line1) 0)%Z
              || (JS.indexOf ")" (text line1) (JS.indexOf "(" (text line1) 0)
                  <? character position1)%Z); [now left |].
    cbn [isRetrigger activeSignatureHelp item snd]. right. now eexists. }
  destruct Hw as [-> | [index ->]]; [reflexivity |].
  unfold provideSignatureHelp. rewrite Hline. cbv zeta.
  destruct (Z.ltb_spec (character position) (JS.indexOf "(" (text line) 0)); [lia |].
  destruct (Z.ltb_spec (JS.indexOf ")" (text line) (JS.indexOf "(" (text line) 0))
                       (character position)); [lia |].
  cbn [orb isRetrigger]. rewrite Hword. fold named.
  pose proof (find_writeActiveParameter word (findIndex named sigs) index sigs) as Hsome.
  fold named in Hsome. rewrite Hfind in Hsome.
  destruct (find named (writeActiveParameter (findIndex named sigs) index sigs));
    [| discriminate].
  unfold named. rewrite findIndex_writeActiveParameter, resetMatched_writeActiveParameter.
  fold named. now rewrite Hfind.
Qed.

Lemma catalog_hit_forgets_retrigger_witness :
  provideSignatureHelp (api := demoApi) wordAdd noDocumentSignature emptyFs
    (snd (provideSignatureHelp (api := demoApi) wordAdd noDocumentSignature emptyFs
            addCatalog None callDocument (mkPosition 0 8) retrigger))
    None callDocument (mkPosition 0 4) freshTrigger
  = provideSignatureHelp (api := demoApi) wordAdd noDocumentSignature emptyFs
      addCatalog None callDocument (mkPosition 0 4) freshTrigger.
Proof.
  apply (@catalog_hit_forgets_retrigger demoApi wordAdd noDocumentSignature emptyFs
           addCatalog None callDocument (mkPosition 0 8) callDocument (mkPosition 0 4)
           (mkTextLine "add(1,2,)" 0) "add" addEntry).
  - reflexivity.
  - vm_compute; discriminate.
  - vm_compute; discriminate.
  - reflexivity.
  - reflexivity.
Defined.

(** X4.  The index a retrigger writes is never negative and never
    exceeds the number of characters between the opening parenthesis
    and the cursor. *)
Theorem retrigger_index_bounds :
  forall (api : Collaborators) wordBefore getSignatureFromDocument fs
         scriptSignatures workspaceFolders document position context line cached help,
    lineAt document position = Some line ->
    isRetrigger context = true ->
    activeSignatureHelp context = Some cached ->
    returnedHelp (provideSignatureHelp wordBefore getSignatureFromDocument fs
                    scriptSignatures workspaceFolders document position context)
    = Some help ->
    (0 <= activeParameter help
     <= Z.max 0 (character position - JS.indexOf "(" (text line) 0 - 1))%Z.
Proof.
  intros api wordBefore getSig fs sigs folders document position context line cached help
         Hline Hre Hcached H.
  unfold provideSignatureHelp in H. rewrite Hline in H. cbv zeta in H.
  destruct ((character position <? JS.indexOf "(" (text line) 0)%Z
            || (JS.indexOf ")" (text line) (JS.indexOf "(" (text line) 0)
                <? character position)%Z); [discriminate |].
  rewrite Hre, Hcached in H.
  assert (Hidx : activeParameter help
                 = (Z.of_nat (List.length
                                (JS.split ","
                                   (JS.substr (text line) (JS.indexOf "(" (text line) 0 + 1)
                                      (character position
                                       - JS.indexOf "(" (text line) 0 - 1)))) - 1)%Z).
  { destruct cached as [n | h]; unfold returnedHelp in H; cbn [fst snd derefHelp] in H.
    - rewrite writeActiveParameter_at in H.
      destruct (nth_error sigs n) as [sig |]; [| discriminate].
      cbn [option_map sigItem] in H. injection H as <-. reflexivity.
    - injection H as <-. reflexivity. }
  rewrite Hidx, split_length.
  pose proof (countChar_le_length ","
                (JS.substr (text line) (JS.indexOf "(" (text line) 0 + 1)
                           (character position - JS.indexOf "(" (text line) 0 - 1))) as H1.
  unfold JS.substr in *.
  pose proof (substring_length_le (text line)
                (Z.to_nat (JS.indexOf "(" (text line) 0 + 1))
                (Z.to_nat (character position - JS.indexOf "(" (text line) 0 - 1))) as H2.
  lia.
Qed.

Lemma retrigger_index_bounds_witness :
  (0 <= 2 <= Z.max 0 (8 - JS.indexOf "(" "add(1,2,)" 0 - 1))%Z.
Proof.
  apply (@retrigger_index_bounds demoApi wordAdd noDocumentSignature emptyFs addCatalog None
           callDocument (mkPosition 0 8) retrigger (mkTextLine "add(1,2,)" 0) (ItemOf 0)
           {| activeParameter := 2; activeSignature := 0; signatures := signatures addHelp |});
    reflexivity.
Defined.

(* ================================================================== *)
(** * Further properties of the doc-comment parser *)
(* ================================================================== *)

(** X5.  [findDoc] reads the nearest block only: what stands in the
    window before the sentinel that opens the last block, older blocks
    included, has no influence on the descriptor. *)
Theorem findDoc_reads_nearest_block :
  forall (api : Collaborators) (name : string) (pre body : list string),
    forallb (fun l => negb (String.eqb l sentinel)) body = true ->
    findDocInfo name (Some (pre ++ sentinel :: body ++ [sentinel])%list)
    = findDocInfo name (Some (sentinel :: body ++ [sentinel])%list)
    /\ findDoc name (Some (pre ++ sentinel :: body ++ [sentinel])%list)
       = findDoc name (Some (sentinel :: body ++ [sentinel])%list).
Proof.
  intros api name pre body H.
  assert (E : findDocInfo name (Some (pre ++ sentinel :: body ++ [sentinel])%list)
              = findDocInfo name (Some (sentinel :: body ++ [sentinel])%list)).
  { rewrite (findDocInfo_block name pre body H).
    now rewrite (findDocInfo_block name [] body H). }
  split; [exact E |]. unfold findDoc. now rewrite E.
Qed.

Lemma findDoc_reads_nearest_block_witness :
  findDocInfo (api := demoApi) "f" (Some twoBlocks)
  = findDocInfo (api := demoApi) "f" (Some ["###"; "x = 1"; "###"]).
Proof.
  exact (proj1 (@findDoc_reads_nearest_block demoApi "f" ["###"; "# old text"]
                  ["x = 1"] eq_refl)).
Defined.

(** X6.  Any two sentinels make a block: whenever the window ends with
    the sentinel and holds an earlier one, a descriptor is built,
    whatever the lines between them are; it bears the name of the
    declaration and an empty deprecation note. *)
Theorem findDoc_accepts_any_block :
  forall (api : Collaborators) (name : string) (lines : list string),
    hasBlock lines = true ->
    exists d, findDocInfo name (Some lines) = Some d
              /\ infoName d = name /\ infoDeprecated d = "".
Proof.
  intros api name lines H.
  rewrite <- (findDocInfo_hasBlock name lines) in H.
  destruct (findDocInfo name (Some lines)) as [d |] eqn:E; [| discriminate].
  exists d. split; [reflexivity |].
  unfold findDocInfo in E.
  destruct (nth_error lines (List.length lines - 1)) as [l |]; [| discriminate].
  destruct (String.eqb l sentinel); [| discriminate].
  destruct (searchBack lines (List.length lines - 1)) as [startIndex |]; [| discriminate].
  destruct (startIndex <? List.length lines - 1); [| discriminate].
  injection E as <-. split; reflexivity.
Qed.

Lemma findDoc_accepts_any_block_witness :
  exists d, findDocInfo (api := demoApi) "f" (Some twoBlocks) = Some d
            /\ infoName d = "f" /\ infoDeprecated d = "".
Proof.
  apply (@findDoc_accepts_any_block demoApi "f" twoBlocks). reflexivity.
Defined.

Lemma trimEnd_space_tokens : forall x toks,
  forallb isToken (x :: toks) = true ->
  JS.trimEnd (" " ++ JS.join " " (x :: toks)) = " " ++ JS.join " " (x :: toks).
Proof.
  intros x toks H.
  assert (Hx : isToken x = true) by (simpl in H; now apply andb_true_iff in H).
  destruct (join_tokens_cons x toks Hx) as [c [t [E Hc]]].
  rewrite (trimEnd_app " "); rewrite (trimEnd_join_tokens _ _ H).
  - reflexivity.
  - rewrite E. discriminate.
Qed.

(** X7.  The fields of a [@param] line are cut at every single space.
    When two spaces separate the label from the rest, the type is read
    from the empty piece between them (the type of the empty string),
    and the type token moves into the comment. *)
Theorem parseDocParam_double_space :
  forall (api : Collaborators) (label type : string) (cs : list string),
    forallb isToken (label :: type :: cs) = true ->
    parseDocParam ("@param " ++ label ++ "  " ++ JS.join " " (type :: cs))
    = {| paramLabel := label;
         paramType := type2Str (str2Type (Some ""));
         paramComment := JS.join " " (type :: cs);
         paramDefault := "" |}.
Proof.
  intros api label type cs H.
  assert (Hl : isToken label = true) by (simpl in H; now apply andb_true_iff in H).
  assert (Ht : forallb isToken (type :: cs) = true)
    by (simpl in H; apply andb_true_iff in H; now destruct H).
  destruct (isToken_cons label Hl) as [c [t' [El Hc]]].
  unfold parseDocParam.
  change ("@param " ++ label ++ "  " ++ JS.join " " (type :: cs))
    with ("@param" ++ (" " ++ (label ++ (" " ++ (" " ++ JS.join " " (type :: cs)))))).
  rewrite replaceFirst_prefix.
  assert (Etrim : JS.trim (" " ++ (label ++ (" " ++ (" " ++ JS.join " " (type :: cs)))))
                  = label ++ (" " ++ (" " ++ JS.join " " (type :: cs)))).
  { unfold JS.trim.
    change (JS.trimStart (" " ++ (label ++ (" " ++ (" " ++ JS.join " " (type :: cs))))))
      with (JS.trimStart (label ++ (" " ++ (" " ++ JS.join " " (type :: cs))))).
    assert (Es : JS.trimStart (label ++ (" " ++ (" " ++ JS.join " " (type :: cs))))
                 = label ++ (" " ++ (" " ++ JS.join " " (type :: cs)))).
    { rewrite El. simpl. now rewrite Hc. }
    rewrite Es.
    assert (E1 : JS.trimEnd (" " ++ (" " ++ JS.join " " (type :: cs)))
                 = " " ++ (" " ++ JS.join " " (type :: cs))).
    { rewrite (trimEnd_app " "); rewrite (trimEnd_space_tokens _ _ Ht);
        [reflexivity | discriminate]. }
    rewrite (trimEnd_app label); rewrite E1; [reflexivity | discriminate]. }
  rewrite Etrim.
  change (label ++ (" " ++ (" " ++ JS.join " " (type :: cs))))
    with (label ++ String " " (String " " (JS.join " " (type :: cs)))).
  rewrite split_app_sep
    by (apply (forallChars_impl tokenChar _ label tokenChar_nospace), isToken_chars, Hl).
  cbn [JS.split]. rewrite Ascii.eqb_refl.
  rewrite (split_join_tokens _ _ Ht).
  cbn [hd_error tl].
  assert (Htruthy : JS.truthy label = true).
  { unfold isToken in Hl. apply andb_true_iff in Hl. now destruct Hl. }
  rewrite Htruthy. reflexivity.
Qed.

Lemma parseDocParam_double_space_witness :
  parseDocParam (api := demoApi) "@param n  number the input"
  = {| paramLabel := "n"; paramType := "None";
       paramComment := "number the input"; paramDefault := "" |}.
Proof.
  apply (@parseDocParam_double_space demoApi "n" "number" ["the"; "input"]).
  reflexivity.
Defined.

(* ================================================================== *)
(** * More facts about the matcher *)
(* ================================================================== *)

Lemma clearCaps_nil : forall c, clearCaps [] c = c.
Proof.
  induction c as [| kv c IH]; [reflexivity |].
  change (clearCaps [] (kv :: c)) with (kv :: clearCaps [] c). now rewrite IH.
Qed.

Lemma get_drop : forall i s,
  String.get i s = match JS.drop i s with
                   | String b _ => Some b
                   | EmptyString => None
                   end.
Proof.
  induction i as [| i IH]; intros s; destruct s as [| a s]; simpl; try reflexivity.
  apply IH.
Qed.

Lemma drop_S : forall i s,
  JS.drop (S i) s = match JS.drop i s with
                    | String _ t => t
                    | EmptyString => EmptyString
                    end.
Proof.
  induction i as [| i IH]; intros s; destruct s as [| a s]; try reflexivity.
  change (JS.drop (S (S i)) (String a s)) with (JS.drop (S i) s).
  change (JS.drop (S i) (String a s)) with (JS.drop i s). apply IH.
Qed.

(** A literal matches at [i] exactly when the subject reads it there. *)
Lemma m_Lit : forall (p s : string) (R : Type) (i : nat) (c : captures) (k : cont R),
  m s (Lit p) i c k
  = if String.prefix p (JS.drop i s) then k (i + String.length p) c else None.
Proof.
  induction p as [| a p IH]; intros s R i c k.
  - cbn [Lit m String.length]. rewrite Nat.add_0_r. now destruct (JS.drop i s).
  - cbn [Lit m String.length]. rewrite get_drop.
    destruct (JS.drop i s) as [| b t] eqn:E; [reflexivity |].
    change (String.prefix (String a p) (String b t))
      with (if ascii_dec a b then String.prefix p t else false).
    destruct (Ascii.eqb_spec b a) as [-> | Hne].
    + destruct (ascii_dec a a); [| congruence].
      rewrite IH, drop_S, E. now rewrite Nat.add_succ_r.
    + destruct (ascii_dec a b); [congruence | reflexivity].
Qed.

Lemma searchFrom_Lit : forall (p s : string) (n i : nat),
  n = String.length (JS.drop i s) ->
  isSome (searchFrom (Lit p) s n i) = includes p (JS.drop i s).
Proof.
  intros p s n. induction n as [| n IH]; intros i Hn; simpl;
    unfold matchAt; rewrite m_Lit.
  - destruct (JS.drop i s) as [| b t]; [| discriminate].
    simpl. destruct p; reflexivity.
  - pose proof (drop_S i s) as Hd.
    destruct (JS.drop i s) as [| b t] eqn:E; [discriminate |].
    change (includes p (String b t)) with (String.prefix p (String b t) || includes p t).
    destruct (String.prefix p (String b t)); [reflexivity |].
    simpl orb. rewrite <- Hd. apply IH. rewrite Hd. simpl in Hn. lia.
Qed.

(** [/text/.test(s)] holds exactly when [text] occurs in [s]. *)
Lemma test_Lit : forall p s, test (Lit p) s = includes p s.
Proof.
  intros p s. unfold test, exec.
  pose proof (searchFrom_Lit p s (String.length s) 0 eq_refl) as H.
  change (JS.drop 0 s) with s in H. rewrite <- H.
  now destruct (searchFrom (Lit p) s (String.length s) 0) as [[[i e] c] |].
Qed.

Lemma searchFrom_matchAt : forall r s n i0 i e c,
  searchFrom r s n i0 = Some (i, e, c) -> matchAt r s i = Some (e, c).
Proof.
  intros r s n. induction n as [| n IH]; intros i0 i e c H; simpl in H.
  - destruct (matchAt r s i0) as [[e0 c0] |] eqn:E; [| discriminate].
    now injection H as <- <- <-.
  - destruct (matchAt r s i0) as [[e0 c0] |] eqn:E.
    + now injection H as <- <- <-.
    + now apply IH in H.
Qed.

(** A star over a character class hands on an index reached through
    characters of the class only. *)
Lemma star_class_run :
  forall (s : string) (p : ascii -> bool) (R : Type) greedy (k : cont R) n i c x,
    starLoop (fun i' c' k' => m s (Cls p) i' (clearCaps (groupsOf (Cls p)) c') k')
             greedy k n i c = Some x ->
    exists j, i <= j
              /\ (forall t, i <= t < j -> exists b, String.get t s = Some b /\ p b = true)
              /\ k j c = Some x.
Proof.
  intros s p R greedy k. induction n as [| n IH]; intros i c x H; simpl in H.
  - exists i. split; [lia |]. split; [intros t Ht; lia | exact H].
  - rewrite clearCaps_nil in H.
    assert (Hiter : forall y,
               match String.get i s with
               | Some b => if p b
                           then (if S i =? i then None
                                 else starLoop
                                        (fun i' c' k' =>
                                           m s (Cls p) i' (clearCaps (groupsOf (Cls p)) c') k')
                                        greedy k n (S i) c)
                           else None
               | None => None
               end = Some y ->
               exists j, i <= j
                         /\ (forall t, i <= t < j ->
                                       exists b, String.get t s = Some b /\ p b = true)
                         /\ k j c = Some y).
    { intros y Hy. destruct (String.get i s) as [b |] eqn:Eg; [| discriminate].
      destruct (p b) eqn:Ep; [| discriminate].
      destruct (S i =? i); [discriminate |].
      apply IH in Hy. destruct Hy as [j [Hj [Hrun Hk]]].
      exists j. split; [lia |]. split; [| exact Hk].
      intros t Ht. destruct (Nat.eq_dec t i) as [-> | Hne].
      - now exists b.
      - apply Hrun. lia. }
    unfold orElse in H. destruct greedy.
    + match type of H with
      | match ?it with _ => _ end = _ => destruct it as [y |] eqn:E
      end.
      * rewrite <- H. now apply Hiter.
      * exists i. split; [lia |]. split; [intros t Ht; lia | exact H].
    + destruct (k i c) as [y |] eqn:E.
      * exists i. split; [lia |]. split; [intros t Ht; lia | now rewrite E].
      * now apply Hiter.
Qed.

Lemma substring_run : forall (p : ascii -> bool) s i n,
  (forall t, i <= t < i + n -> exists b, String.get t s = Some b /\ p b = true) ->
  forallChars p (String.substring i n s) = true
  /\ String.length (String.substring i n s) = n.
Proof.
  intros p s. induction s as [| a s IH]; intros i n H.
  - destruct n as [| n].
    + destruct i; split; reflexivity.
    + destruct (H i) as [b [Hb _]]; [lia |]. destruct i; discriminate.
  - destruct i as [| i].
    + destruct n as [| n]; [split; reflexivity |].
      simpl. destruct (H 0) as [b [Hb Hp]]; [lia |].
      simpl in Hb. injection Hb as ->. rewrite Hp.
      destruct (IH 0 n) as [H1 H2].
      * intros t Ht. destruct (H (S t)) as [b' Hb']; [lia |]. now exists b'.
      * rewrite H1, H2. split; reflexivity.
    + simpl. apply IH. intros t Ht.
      destruct (H (S t)) as [b' Hb']; [lia |]. now exists b'.
Qed.

(** The name [namePat] extracts is a non-empty run of word characters. *)
Lemma exec_namePat_identifier : forall v nameReg,
  exec namePat v = Some nameReg -> isIdentifier (matched nameReg) = true.
Proof.
  intros v nameReg H. unfold exec in H.
  destruct (searchFrom namePat v (String.length v) 0) as [[[i e] c] |] eqn:E;
    [| discriminate].
  injection H as <-. apply searchFrom_matchAt in E.
  unfold matchAt, namePat in E. cbn [Cat Plus m] in E.
  destruct (isWordBoundary v i); [| discriminate].
  destruct (m v keywords3 i [] (fun _ _ => Some tt)); [discriminate |].
  destruct (String.get i v) as [b |] eqn:Eg; [| discriminate].
  destruct (JS.isWordChar b) eqn:Eb; [| discriminate].
  apply star_class_run in E. destruct E as [j [Hj [Hrun Hk]]].
  injection Hk as <- _.
  unfold matched, mkArray, slice. cbn [elems].
  destruct (substring_run JS.isWordChar v i (j - i)) as [H1 H2].
  { intros t Ht. destruct (Nat.eq_dec t i) as [-> | Hne]; [now exists b |].
    apply Hrun. lia. }
  unfold isIdentifier. rewrite H1, andb_true_r.
  destruct (String.substring i (j - i) v); [simpl in H2; lia | reflexivity].
Qed.

(* ================================================================== *)
(** * Further properties of the completion scans *)
(* ================================================================== *)

Section CompletionMore.
Context {api : Collaborators}.

Lemma cmpStep_extends : forall oldLines items value,
  exists added, cmpStep oldLines items value = (items ++ added)%list.
Proof.
  intros oldLines items value. unfold cmpStep.
  destruct value as [v |]; [| exists []; now rewrite app_nil_r].
  destruct (JS.truthy v); [| exists []; now rewrite app_nil_r].
  destruct (exec namePat v) as [nameReg |]; [| exists []; now rewrite app_nil_r].
  destruct (existsb _ items); [exists []; now rewrite app_nil_r |].
  eexists. reflexivity.
Qed.

Lemma parseCmpItem_extends : forall matchResult items oldLines,
  exists added, parseCmpItem matchResult items oldLines = (items ++ added)%list.
Proof.
  intros matchResult items oldLines. unfold parseCmpItem.
  destruct matchResult as [a |]; [| exists []; now rewrite app_nil_r].
  generalize (elems a). intros l. revert items.
  induction l as [| v l IH]; intros items; simpl.
  - exists []. now rewrite app_nil_r.
  - destruct (cmpStep_extends oldLines items v) as [a1 ->].
    destruct (IH (items ++ a1)%list) as [a2 ->].
    exists (a1 ++ a2)%list. now rewrite app_assoc.
Qed.

Lemma textLoop_extends : forall fuel pat text lastIndex items,
  exists added, textLoop fuel pat text lastIndex items = (items ++ added)%list.
Proof.
  induction fuel as [| fuel IH]; intros pat text lastIndex items; simpl.
  - exists []. now rewrite app_nil_r.
  - destruct (execG pat lastIndex text) as [[a |] li];
      [| exists []; now rewrite app_nil_r].
    destruct (parseCmpItem_extends (Some a) items None) as [a1 E1].
    change (fold_left (cmpStep None) (elems a) items)
      with (parseCmpItem (Some a) items None).
    rewrite E1.
    destruct (IH pat text li (items ++ a1)%list) as [a2 ->].
    exists (a1 ++ a2)%list. now rewrite app_assoc.
Qed.

Lemma cmpFileStep_extends : forall pat pkgs st,
  exists added,
    cmpItems (fold_left (cmpFileStep pat) pkgs st) = (cmpItems st ++ added)%list.
Proof.
  intros pat pkgs. induction pkgs as [| pkg pkgs IH]; intros st; simpl.
  - exists []. now rewrite app_nil_r.
  - destruct (IH (cmpFileStep pat st pkg)) as [a2 ->].
    unfold cmpFileStep. destruct (pktLine pkg) as [raw |].
    + destruct (execG pat (cmpLastIndex st) (JS.trim raw)) as [mt li].
      cbn [cmpItems].
      destruct (parseCmpItem_extends mt (cmpItems st) (Some (cmpOldLines st))) as [a1 ->].
      exists (a1 ++ a2)%list. now rewrite app_assoc.
    + now exists a2.
Qed.

Lemma file_scan_extends : forall fs fileName keyword items,
  exists added,
    getCompletionItemsFromFile fs fileName keyword items = (items ++ added)%list.
Proof.
  intros fs file keyword items. unfold getCompletionItemsFromFile, cmpFileScan.
  apply (cmpFileStep_extends (mthdPat keyword) (ReadLinesSync fs file)
           {| cmpLastIndex := 0; cmpOldLines := []; cmpItems := items |}).
Qed.

Lemma buildCmpItem_no_window : forall value name,
  documentation (buildCmpItem value name None) = None.
Proof.
  intros value name. unfold buildCmpItem.
  change (findDoc name None) with (@None ScriptMethod). cbv zeta. cbn [option_map].
  destruct (test (Lit "global") value); [reflexivity |].
  destruct (test (Lit "thread") value); [reflexivity |].
  destruct (exec paramPat value) as [paramReg |]; [| reflexivity].
  destruct (nth_error (elems paramReg) 1) as [[p1 |] |]; try reflexivity.
  destruct (negb (isBlank p1)); reflexivity.
Qed.

(** What one round of [forEach] adds satisfies [P] as soon as every
    built item does. *)
Lemma cmpStep_Forall : forall (P : CompletionItem -> Prop) oldLines items value,
  (forall v nameReg, exec namePat v = Some nameReg ->
                     P (buildCmpItem v (matched nameReg) oldLines)) ->
  Forall P items -> Forall P (cmpStep oldLines items value).
Proof.
  intros P oldLines items value Hb H. unfold cmpStep.
  destruct value as [v |]; [| exact H].
  destruct (JS.truthy v); [| exact H].
  destruct (exec namePat v) as [nameReg |] eqn:E; [| exact H].
  destruct (existsb _ items); [exact H |].
  apply Forall_app. split; [exact H |]. constructor; [| constructor].
  now apply Hb.
Qed.

Lemma parseCmpItem_Forall : forall (P : CompletionItem -> Prop) matchResult items oldLines,
  (forall v nameReg, exec namePat v = Some nameReg ->
                     P (buildCmpItem v (matched nameReg) oldLines)) ->
  Forall P items -> Forall P (parseCmpItem matchResult items oldLines).
Proof.
  intros P matchResult items oldLines Hb. unfold parseCmpItem.
  destruct matchResult as [a |]; [| tauto].
  generalize (elems a). intros l. revert items.
  induction l as [| v l IH]; intros items H; simpl; [exact H |].
  apply IH. now apply cmpStep_Forall.
Qed.

Lemma textLoop_Forall : forall (P : CompletionItem -> Prop) fuel pat text lastIndex items,
  (forall v nameReg, exec namePat v = Some nameReg ->
                     P (buildCmpItem v (matched nameReg) None)) ->
  Forall P items -> Forall P (textLoop fuel pat text lastIndex items).
Proof.
  intros P fuel pat text lastIndex items Hb. revert lastIndex items.
  induction fuel as [| fuel IH]; intros lastIndex items H; simpl; [exact H |].
  destruct (execG pat lastIndex text) as [[a |] li]; [| exact H].
  apply IH. now apply (parseCmpItem_Forall P (Some a)).
Qed.

Lemma cmpFileStep_Forall : forall (P : CompletionItem -> Prop) pat pkgs st,
  (forall oldLines v nameReg, exec namePat v = Some nameReg ->
                              P (buildCmpItem v (matched nameReg) oldLines)) ->
  Forall P (cmpItems st) -> Forall P (cmpItems (fold_left (cmpFileStep pat) pkgs st)).
Proof.
  intros P pat pkgs st Hb. revert st.
  induction pkgs as [| pkg pkgs IH]; intros st H; simpl; [exact H |].
  apply IH. unfold cmpFileStep.
  destruct (pktLine pkg) as [raw |]; [| exact H].
  destruct (execG pat (cmpLastIndex st) (JS.trim raw)). cbn [cmpItems].
  apply parseCmpItem_Forall; [apply Hb | exact H].
Qed.

End CompletionMore.

(** X8.  The completion scans only append.  The entries handed in come
    back unchanged and in place at the head of the collection, from the
    text scan, from the file scan and from the workspace scan. *)
Theorem completion_scans_only_append :
  forall (api : Collaborators) (items : list CompletionItem) (keyword : string),
    (forall text,
        exists added, getCompletionItemsFromText text keyword items = (items ++ added)%list)
    /\ (forall fs fileName,
           exists added,
             getCompletionItemsFromFile fs fileName keyword items = (items ++ added)%list)
    /\ (forall fs workspace,
           exists added,
             getCompletionItemsFromWorkspace fs workspace keyword items
             = (items ++ added)%list).
Proof.
  intros api items keyword. split; [| split].
  - intros text. apply textLoop_extends.
  - intros fs fileName. apply file_scan_extends.
  - intros fs workspace. unfold getCompletionItemsFromWorkspace.
    generalize (map (fun file => fsPath workspace ++ backslash ++ file)
                    (filter (JS.endsWith ".script") (readdirSync fs (fsPath workspace)))).
    intros files. revert items.
    induction files as [| f files IH]; intros items; simpl.
    + exists []. now rewrite app_nil_r.
    + destruct (file_scan_extends fs f keyword items) as [a1 ->].
      destruct (IH (items ++ a1)%list) as [a2 ->].
      exists (a1 ++ a2)%list. now rewrite app_assoc.
Qed.

(** X9.  The text scan has no window, so it never finds documentation:
    every entry it adds comes without documentation, even when the text
    holds a documentation block right above the declaration. *)
Theorem text_scan_adds_no_documentation :
  forall (api : Collaborators) (text keyword : string) (items : list CompletionItem),
    Forall (fun it => documentation it = None) items ->
    Forall (fun it => documentation it = None)
           (getCompletionItemsFromText text keyword items).
Proof.
  intros api text keyword items H. unfold getCompletionItemsFromText.
  apply textLoop_Forall; [| exact H].
  intros v nameReg _. apply buildCmpItem_no_window.
Qed.

Lemma text_scan_adds_no_documentation_witness :
  Forall (fun it => documentation it = None)
         (getCompletionItemsFromText (api := demoApi)
            (JS.join (String (ascii_of_nat 10) "")
                     ["###"; "# adds"; "###"; "def add(a, b):"]) "add" []).
Proof.
  apply (@text_scan_adds_no_documentation demoApi). constructor.
Defined.

(** X10.  Every label a completion scan adds is an identifier: a
    non-empty run of word characters.  This holds of the text scan and
    of the file scan, for every keyword. *)
Theorem completion_labels_are_identifiers :
  forall (api : Collaborators) (keyword : string) (items : list CompletionItem),
    Forall (fun it => isIdentifier (label it) = true) items ->
    (forall text,
        Forall (fun it => isIdentifier (label it) = true)
               (getCompletionItemsFromText text keyword items))
    /\ (forall fs fileName,
           Forall (fun it => isIdentifier (label it) = true)
                  (getCompletionItemsFromFile fs fileName keyword items)).
Proof.
  intros api keyword items H. split.
  - intros text. unfold getCompletionItemsFromText.
    apply textLoop_Forall; [| exact H].
    intros v nameReg E. rewrite buildCmpItem_label.
    now apply exec_namePat_identifier in E.
  - intros fs fileName. unfold getCompletionItemsFromFile, cmpFileScan.
    apply cmpFileStep_Forall; [| exact H].
    intros oldLines v nameReg E. rewrite buildCmpItem_label.
    now apply exec_namePat_identifier in E.
Qed.

Lemma completion_labels_are_identifiers_witness :
  Forall (fun it => isIdentifier (label it) = true)
         (getCompletionItemsFromText (api := demoApi) duplicateText "" []).
Proof.
  apply (proj1 (@completion_labels_are_identifiers demoApi "" [] (Forall_nil _))).
Defined.

(** X11.  The kind of an entry is decided by the words [global] and
    [thread] occurring anywhere in the matched text, not by the keyword
    that starts the declaration: the entry is a variable exactly when
    one of them occurs, [global] taking precedence, and a function
    otherwise. *)
Theorem completion_kind_by_occurrence :
  forall (api : Collaborators) (value name : string) (oldLines : option (list string)),
    let item := buildCmpItem value name oldLines in
    kind item = (if includes "global" value || includes "thread" value
                 then KindVariable else KindFunction)
    /\ (includes "global" value = true ->
        detail item = "global " ++ name /\ insertText item = PlainText name)
    /\ (includes "global" value = false ->
        includes "thread" value = true ->
        detail item = "thread " ++ name /\ insertText item = PlainText (name ++ "()")).
Proof.
  intros api value name oldLines item. unfold item, buildCmpItem.
  rewrite !test_Lit. cbv zeta.
  destruct (includes "global" value).
  - repeat split; discriminate.
  - destruct (includes "thread" value).
    + repeat split; discriminate.
    + split; [| split; discriminate].
      destruct (findDoc name oldLines); [reflexivity |].
      destruct (exec paramPat value) as [paramReg |]; [| reflexivity].
      destruct (nth_error (elems paramReg) 1) as [[p1 |] |]; try reflexivity.
      destruct (negb (isBlank p1)); reflexivity.
Qed.

Lemma completion_kind_by_occurrence_witness :
  detail (buildCmpItem (api := demoApi) "def set_global(v):" "set_global" None)
  = "global set_global"
  /\ insertText (buildCmpItem (api := demoApi) "def set_global(v):" "set_global" None)
     = PlainText "set_global".
Proof.
  apply (proj1 (proj2 (@completion_kind_by_occurrence demoApi "def set_global(v):"
                         "set_global" None))).
  reflexivity.
Defined.

(* ================================================================== *)
(** * Greedy stars, bounds and captures *)
(* ================================================================== *)

Lemma get_some_lt : forall s i b, String.get i s = Some b -> i < String.length s.
Proof.
  intros s i b H. destruct (Nat.lt_ge_cases i (String.length s)) as [Hlt | Hge];
    [exact Hlt |].
  rewrite (get_beyond s i Hge) in H. discriminate.
Qed.

Lemma get_forallChars : forall (p : ascii -> bool) s t,
  forallChars p s = true -> t < String.length s ->
  exists b, String.get t s = Some b /\ p b = true.
Proof.
  intros p s. induction s as [| a s IH]; intros t H Ht; simpl in *; [lia |].
  apply andb_true_iff in H. destruct H as [Ha Hs].
  destruct t as [| t]; [now exists a |].
  apply IH; [exact Hs | lia].
Qed.

Lemma get_forallChars_inv : forall (p : ascii -> bool) s t b,
  forallChars p s = true -> String.get t s = Some b -> p b = true.
Proof.
  intros p s t b H Hg.
  destruct (get_forallChars p s t H (get_some_lt s t b Hg)) as [b' [Hb' Hp]].
  congruence.
Qed.

Lemma m_Cls : forall (s : string) (p : ascii -> bool) (R : Type) i c (k : cont R),
  m s (Cls p) i c k = match String.get i s with
                      | Some b => if p b then k (S i) c else None
                      | None => None
                      end.
Proof. reflexivity. Qed.

(** A greedy star over a class fails when its continuation fails
    everywhere from the current index on. *)
Lemma star_class_fail :
  forall (s : string) (p : ascii -> bool) (R : Type) (k : cont R) n lo c,
    (forall j, lo <= j -> k j c = None) ->
    starLoop (fun i' c' k' => m s (Cls p) i' (clearCaps (groupsOf (Cls p)) c') k')
             true k n lo c = None.
Proof.
  intros s p R k. induction n as [| n IH]; intros lo c H.
  - simpl. apply H. lia.
  - cbn [starLoop]. rewrite m_Cls.
    change (clearCaps (groupsOf (Cls p)) c) with (clearCaps [] c).
    rewrite clearCaps_nil, (H lo) by lia.
    destruct (String.get lo s) as [b |]; [| reflexivity].
    destruct (p b); [| reflexivity].
    destruct (Nat.eqb_spec (S lo) lo); [lia |].
    rewrite IH; [reflexivity |]. intros j Hj. apply H. lia.
Qed.

(** A greedy star over a class runs as far as the class reaches and
    comes back to the last index at which its continuation succeeds. *)
Lemma star_class_first :
  forall (s : string) (p : ascii -> bool) (R : Type) (k : cont R) n lo c j0 x,
    lo <= j0 ->
    j0 - lo < n ->
    (forall t, lo <= t < j0 -> exists b, String.get t s = Some b /\ p b = true) ->
    (String.get j0 s = None \/ forall j, j0 < j -> k j c = None) ->
    k j0 c = Some x ->
    starLoop (fun i' c' k' => m s (Cls p) i' (clearCaps (groupsOf (Cls p)) c') k')
             true k n lo c = Some x.
Proof.
  intros s p R k. induction n as [| n IH]; intros lo c j0 x Hlo Hn Hrun Hstop Hk; [lia |].
  cbn [starLoop]. rewrite m_Cls.
  change (clearCaps (groupsOf (Cls p)) c) with (clearCaps [] c).
  rewrite clearCaps_nil.
  destruct (Nat.eq_dec lo j0) as [-> | Hne].
  - rewrite Hk.
    destruct (String.get j0 s) as [b |] eqn:Eg; [| reflexivity].
    destruct (p b); [| reflexivity].
    destruct (Nat.eqb_spec (S j0) j0); [lia |].
    destruct Hstop as [Hg | Habove]; [discriminate |].
    rewrite star_class_fail; [reflexivity |].
    intros j Hj. apply Habove. lia.
  - destruct (Hrun lo) as [b [Hg Hp]]; [lia |].
    rewrite Hg, Hp.
    destruct (Nat.eqb_spec (S lo) lo); [lia |].
    rewrite (IH (S lo) c j0 x); [reflexivity | lia | lia | | exact Hstop | exact Hk].
    intros t Ht. apply Hrun. lia.
Qed.

Lemma getCap_clearCaps : forall g gs c,
  ~ In g gs -> getCap g (clearCaps gs c) = getCap g c.
Proof.
  intros g gs c Hg. induction c as [| [k v] c IH]; [reflexivity |].
  unfold clearCaps in *. cbn [filter fst].
  destruct (existsb (Nat.eqb k) gs) eqn:E; cbn [negb].
  - rewrite IH. cbn [getCap].
    destruct (Nat.eqb_spec k g) as [-> | Hne]; [| reflexivity].
    apply existsb_exists in E. destruct E as [y [Hy Heq]].
    apply Nat.eqb_eq in Heq. subst y. contradiction.
  - cbn [getCap]. now rewrite IH.
Qed.

Lemma starLoop_inv :
  forall (R : Type) (body : nat -> captures -> cont R -> option R) greedy (k : cont R)
         (P : nat -> captures -> nat -> captures -> Prop),
    (forall i c, P i c i c) ->
    (forall i c j c' l c'', P i c j c' -> P j c' l c'' -> P i c l c'') ->
    (forall i c (k' : cont R) x,
        body i c k' = Some x -> exists j c', P i c j c' /\ k' j c' = Some x) ->
    forall n i c x,
      starLoop body greedy k n i c = Some x ->
      exists j c', P i c j c' /\ k j c' = Some x.
Proof.
  intros R body greedy k P Hrefl Htrans Hbody.
  induction n as [| n IH]; intros i c x H; simpl in H.
  - exists i, c. split; [apply Hrefl | exact H].
  - assert (Hiter : forall y,
               body i c (fun j c' => if j =? i then None
                                     else starLoop body greedy k n j c') = Some y ->
               exists j c', P i c j c' /\ k j c' = Some y).
    { intros y Hy. apply Hbody in Hy. destruct Hy as [j [c' [Hp Hy]]].
      destruct (j =? i); [discriminate |].
      apply IH in Hy. destruct Hy as [l [c'' [Hp' Hy]]].
      exists l, c''. split; [now apply (Htrans i c j c') | exact Hy]. }
    unfold orElse in H. destruct greedy.
    + destruct (body i c _) as [y |] eqn:E.
      * rewrite <- H. now apply Hiter.
      * exists i, c. split; [apply Hrefl | exact H].
    + destruct (k i c) as [y |] eqn:E.
      * exists i, c. split; [apply Hrefl | now rewrite E].
      * now apply Hiter.
Qed.

(** What a match hands to its continuation: an index not before the
    current one and, when the current one lies inside the subject, not
    beyond its end; and captures that agree with the current ones on
    every group outside the pattern. *)
Lemma m_inv : forall (s : string) (r : regex) (R : Type) (i : nat) (c : captures)
                     (k : cont R) (x : R),
  m s r i c k = Some x ->
  exists j c',
    (i <= j
     /\ (i <= String.length s -> j <= String.length s)
     /\ forall g, ~ In g (groupsOf r) -> getCap g c' = getCap g c)
    /\ k j c' = Some x.
Proof.
  intros s r. induction r as [| a | p | a IHa b IHb | a IHa b IHb | gr a IHa
                              | n a IHa | | a IHa]; intros R i c k x H;
    cbn [m groupsOf] in *.
  - exists i, c. repeat split; auto.
  - destruct (String.get i s) as [b |] eqn:Eg; [| discriminate].
    destruct (Ascii.eqb b a); [| discriminate].
    apply get_some_lt in Eg. exists (S i), c. repeat split; auto; lia.
  - destruct (String.get i s) as [b |] eqn:Eg; [| discriminate].
    destruct (p b); [| discriminate].
    apply get_some_lt in Eg. exists (S i), c. repeat split; auto; lia.
  - apply IHa in H. destruct H as [j [c' [[Hj [Hb Hc]] H]]].
    apply IHb in H. destruct H as [l [c'' [[Hl [Hb' Hc']] H]]].
    exists l, c''. split; [| exact H]. split; [lia |]. split; [intros; lia |].
    intros g Hg. rewrite Hc', Hc; [reflexivity | |];
      intros Hin; apply Hg, in_or_app; auto.
  - unfold orElse in H. destruct (m s a i c k) eqn:E.
    + rewrite <- H. apply IHa in E. destruct E as [j [c' [[Hj [Hb Hc]] E]]].
      exists j, c'. split; [| exact E]. repeat split; auto.
      intros g Hg. apply Hc. intros Hin. apply Hg, in_or_app. auto.
    + apply IHb in H. destruct H as [j [c' [[Hj [Hb Hc]] H]]].
      exists j, c'. split; [| exact H]. repeat split; auto.
      intros g Hg. apply Hc. intros Hin. apply Hg, in_or_app. auto.
  - apply (starLoop_inv R
             (fun i' c' k' => m s a i' (clearCaps (groupsOf a) c') k') gr k
             (fun i0 c0 j0 c1 =>
                i0 <= j0
                /\ (i0 <= String.length s -> j0 <= String.length s)
                /\ forall g, ~ In g (groupsOf a) -> getCap g c1 = getCap g c0)) in H.
    + exact H.
    + intros i0 c0. repeat split; auto.
    + intros i0 c0 j0 c1 l c2 [H1 [H2 H3]] [H4 [H5 H6]]. split; [lia |].
      split; [intros; lia |]. intros g Hg. now rewrite H6, H3.
    + intros i0 c0 k' y Hy. apply IHa in Hy.
      destruct Hy as [j [c' [[Hj [Hb Hc]] Hy]]].
      exists j, c'. split; [| exact Hy]. repeat split; auto.
      intros g Hg. rewrite (Hc g Hg). now apply getCap_clearCaps.
  - apply IHa in H. destruct H as [j [c' [[Hj [Hb Hc]] H]]].
    exists j, ((n, (i, j)) :: c'). split; [| exact H]. repeat split; auto.
    intros g Hg. cbn [getCap].
    destruct (Nat.eqb_spec n g) as [-> | Hne]; [exfalso; apply Hg; now left |].
    apply Hc. intros Hin. apply Hg. now right.
  - destruct (isWordBoundary s i); [| discriminate].
    exists i, c. repeat split; auto.
  - destruct (m s a i c (fun _ _ => Some tt)); [discriminate |].
    exists i, c. repeat split; auto.
Qed.

Lemma groupsOf_Lit : forall p, groupsOf (Lit p) = [].
Proof. induction p as [| a p IH]; [reflexivity | exact IH]. Qed.

Lemma searchFrom_bound : forall r s n i0 i e c,
  searchFrom r s n i0 = Some (i, e, c) -> i0 <= i <= i0 + n.
Proof.
  intros r s n. induction n as [| n IH]; intros i0 i e c H; simpl in H.
  - destruct (matchAt r s i0) as [[e0 c0] |]; [| discriminate].
    injection H as <- _ _. lia.
  - destruct (matchAt r s i0) as [[e0 c0] |].
    + injection H as <- _ _. lia.
    + apply IH in H. lia.
Qed.

(* ================================================================== *)
(** * The file being edited *)
(* ================================================================== *)

Lemma string_length_app : forall a b : string,
  String.length (a ++ b) = String.length a + String.length b.
Proof. induction a as [| x a IH]; intros b; simpl; [reflexivity | now rewrite IH]. Qed.

Lemma substring_whole : forall b : string, String.substring 0 (String.length b) b = b.
Proof. induction b as [| x b IH]; simpl; [reflexivity | now rewrite IH]. Qed.

Lemma substring_skip : forall (a b : string) n len,
  String.substring (String.length a + n) len (a ++ b) = String.substring n len b.
Proof. induction a as [| x a IH]; intros b n len; simpl; [reflexivity | apply IH]. Qed.

Lemma splitLoop_no_match : forall r s fuel p q acc,
  (forall q', q <= q' -> matchAt r s q' = None) ->
  splitLoop r s fuel p q acc = (acc ++ [slice s p (String.length s)])%list.
Proof.
  intros r s. induction fuel as [| fuel IH]; intros p q acc H; simpl; [reflexivity |].
  destruct (q <? String.length s); [| reflexivity].
  rewrite (H q) by lia. apply IH. intros q' Hq'. apply H. lia.
Qed.

(** The pattern of [exploredName] finds nothing where no separator
    follows. *)
Lemma matchAt_separator_unfold : forall s q,
  matchAt separatorPat s q
  = starLoop (fun i' c' k' =>
                m s (Cls JS.isNotLineTerminator) i'
                  (clearCaps (groupsOf (Cls JS.isNotLineTerminator)) c') k')
             true
             (fun j c' => m s (Cls isSeparator) j c' (fun j' c'' => Some (j', c'')))
             (S (String.length s)) q [].
Proof. reflexivity. Qed.

Lemma matchAt_separator_none : forall s q,
  (forall j b, q <= j -> String.get j s = Some b -> isSeparator b = false) ->
  matchAt separatorPat s q = None.
Proof.
  intros s q H. rewrite matchAt_separator_unfold.
  apply star_class_fail.
  intros j Hj. cbv beta. rewrite m_Cls.
  destruct (String.get j s) as [b |] eqn:Eg; [| reflexivity].
  now rewrite (H j b Hj Eg).
Qed.

(** From the start of a single-line prefix it matches up to the last
    separator, that separator included. *)
Lemma matchAt_separator_last : forall s j0 b0,
  String.get j0 s = Some b0 ->
  isSeparator b0 = true ->
  (forall t, t < j0 -> exists b, String.get t s = Some b /\ JS.isNotLineTerminator b = true) ->
  (forall j b, j0 < j -> String.get j s = Some b -> isSeparator b = false) ->
  matchAt separatorPat s 0 = Some (S j0, []).
Proof.
  intros s j0 b0 Hg Hsep Hrun Hlast. rewrite matchAt_separator_unfold.
  apply (star_class_first s JS.isNotLineTerminator _ _ (S (String.length s)) 0 [] j0).
  - lia.
  - apply get_some_lt in Hg. lia.
  - intros t Ht. apply Hrun. lia.
  - right. intros j Hj. cbv beta. rewrite m_Cls.
    destruct (String.get j s) as [b |] eqn:Eg; [| reflexivity].
    now rewrite (Hlast j b Hj Eg).
  - cbv beta. rewrite m_Cls, Hg. now rewrite Hsep.
Qed.

(** X12.  The name that the lookup scans leave out is the text of the
    edited file's path after its last slash, bar or backslash (the
    folder part being on one line); a path without any of the three
    gives no name, and then no file is left out. *)
Theorem exploredName_is_base_name :
  (forall (dir base : string) (c : ascii),
      isSeparator c = true ->
      singleLine dir = true ->
      forallChars (fun b => negb (isSeparator b)) base = true ->
      exploredName (dir ++ String c base) = Some base)
  /\ (forall explored : string,
         forallChars (fun b => negb (isSeparator b)) explored = true ->
         exploredName explored = None
         /\ forall file, notExplored explored file = true).
Proof.
  split.
  - intros dir base c Hc Hdir Hbase.
    set (s := dir ++ String c base).
    assert (HL : String.length s = String.length dir + S (String.length base))
      by (unfold s; now rewrite string_length_app).
    assert (Hgc : String.get (String.length dir) s = Some c).
    { unfold s. rewrite <- (Nat.add_0_l (String.length dir)).
      now rewrite <- String.append_correct2. }
    assert (Hafter : forall j b, String.length dir < j -> String.get j s = Some b ->
                                 isSeparator b = false).
    { intros j b Hj Hg. unfold s in Hg.
      replace j with ((j - String.length dir) + String.length dir) in Hg by lia.
      rewrite <- String.append_correct2 in Hg.
      destruct (j - String.length dir) as [| t] eqn:Et; [lia |].
      simpl in Hg.
      pose proof (get_forallChars_inv _ base t b Hbase Hg) as Hb.
      now apply negb_true_iff in Hb. }
    assert (Hm0 : matchAt separatorPat s 0 = Some (S (String.length dir), [])).
    { apply (matchAt_separator_last s (String.length dir) c Hgc Hc); [| exact Hafter].
      intros t Ht. unfold s. rewrite <- String.append_correct1 by exact Ht.
      now apply get_forallChars. }
    unfold exploredName, splitRe. fold s.
    destruct (Nat.eqb_spec (String.length s) 0) as [H0 | _]; [lia |].
    replace (2 * String.length s + 2) with (S (2 * String.length s + 1)) by lia.
    cbn [splitLoop].
    destruct (Nat.ltb_spec 0 (String.length s)) as [_ | H0]; [| lia].
    rewrite Hm0.
    replace (Nat.min (S (String.length dir)) (String.length s))
      with (S (String.length dir)) by lia.
    cbn [Nat.eqb].
    rewrite splitLoop_no_match.
    + cbn [app nth_error]. f_equal. unfold slice, s.
      replace (S (String.length dir)) with (String.length dir + 1) by lia.
      rewrite substring_skip. cbn [String.substring].
      replace (String.length (dir ++ String c base) - (String.length dir + 1))
        with (String.length base) by (fold s; lia).
      apply substring_whole.
    + intros q' Hq'. apply matchAt_separator_none.
      intros j b Hj Hg. apply (Hafter j b); [lia | exact Hg].
  - intros explored H.
    assert (Hnone : forall q, matchAt separatorPat explored q = None).
    { intros q. apply matchAt_separator_none. intros j b _ Hg.
      pose proof (get_forallChars_inv _ explored j b H Hg) as Hb.
      now apply negb_true_iff in Hb. }
    assert (E : exploredName explored = None).
    { unfold exploredName, splitRe.
      destruct (String.length explored =? 0).
      - now rewrite Hnone.
      - rewrite splitLoop_no_match by (intros; apply Hnone). reflexivity. }
    split; [exact E |]. intros file. unfold notExplored. now rewrite E.
Qed.

Lemma exploredName_is_base_name_witness :
  exploredName ("ws" ++ String (ascii_of_nat 92) "main.script") = Some "main.script".
Proof.
  apply (proj1 exploredName_is_base_name "ws" "main.script" (ascii_of_nat 92));
    reflexivity.
Defined.

(* ================================================================== *)
(** * Further properties of the lookup scans *)
(* ================================================================== *)

Lemma lookupFiles_inv : forall fs workspace explored f,
  In f (lookupFiles fs workspace explored) ->
  exists file,
    f = fsPath workspace ++ backslash ++ file
    /\ In file (readdirSync fs (fsPath workspace))
    /\ JS.endsWith ".script" file = true
    /\ exploredName explored <> Some file.
Proof.
  intros fs workspace explored f H. unfold lookupFiles in H.
  apply in_map_iff in H. destruct H as [file [<- H]].
  apply filter_In in H. destruct H as [Hin Hf].
  apply andb_true_iff in Hf. destruct Hf as [Hends Hnot].
  exists file. repeat split; try assumption.
  unfold notExplored in Hnot. intros E. rewrite E in Hnot.
  now rewrite String.eqb_refl in Hnot.
Qed.

Lemma locStep_records : forall (Q : Location -> Prop) fileName pat all pkgs st,
  (forall pkg raw li a,
      In pkg all -> pktLine pkg = Some raw ->
      fst (execG pat li raw) = Some a ->
      forall col, Q {| uri := fileName;
                       range := {| line := lineNo pkg; character := Z.of_nat col |} |}) ->
  (forall pkg, In pkg pkgs -> In pkg all) ->
  Forall Q (locColl st) ->
  Forall Q (locColl (fold_left (locStep fileName pat) pkgs st)).
Proof.
  intros Q fileName pat all pkgs st HQ. revert st.
  induction pkgs as [| pkg pkgs IH]; intros st Hall H; simpl; [exact H |].
  apply IH; [intros p Hp; apply Hall; now right |].
  unfold locStep. destruct (pktLine pkg) as [raw |] eqn:Ep; [| exact H].
  destruct (execG pat (mthdLastIndex st) raw) as [[a |] mi] eqn:Em; [| exact H].
  destruct (execG namePat (nameLastIndex st) (matched a)) as [[nameReg |] ni];
    [| exact H].
  cbn [locColl]. apply Forall_app. split; [exact H |].
  constructor; [| constructor].
  apply (HQ pkg raw (mthdLastIndex st) a); [apply Hall; now left | exact Ep |].
  now rewrite Em.
Qed.

(** X13.  The location scan of a workspace invents nothing: every record
    it returns names a script file of the folder other than the one
    being edited, and the number of a line which the reader delivered
    for that file and on which the declaration pattern matched. *)
Theorem location_records_come_from_scanned_lines :
  forall (fs : FileSystem) (workspace : WorkspaceFolder) (keyword explored : string)
         (loc : Location),
    In loc (getLocationFromWorkspace fs workspace keyword explored) ->
    exists file pkg raw lastIndex a,
      uri loc = fsPath workspace ++ backslash ++ file
      /\ In file (readdirSync fs (fsPath workspace))
      /\ JS.endsWith ".script" file = true
      /\ exploredName explored <> Some file
      /\ In pkg (ReadLinesSync fs (uri loc))
      /\ pktLine pkg = Some raw
      /\ line (range loc) = lineNo pkg
      /\ fst (execG (mthdPat keyword) lastIndex raw) = Some a.
Proof.
  intros fs workspace keyword explored loc H.
  rewrite getLocationFromWorkspace_flat_map in H.
  apply in_flat_map in H. destruct H as [f [Hf Hloc]].
  destruct (lookupFiles_inv fs workspace explored f Hf) as [file [-> [Hin [Hends Hne]]]].
  set (path := fsPath workspace ++ backslash ++ file) in *.
  assert (HF : Forall (fun l => uri l = path
                                /\ exists pkg raw lastIndex a,
                                     In pkg (ReadLinesSync fs path)
                                     /\ pktLine pkg = Some raw
                                     /\ line (range l) = lineNo pkg
                                     /\ fst (execG (mthdPat keyword) lastIndex raw) = Some a)
                      (getLocationFromFile fs path keyword)).
  { unfold getLocationFromFile.
    apply (locStep_records _ path (mthdPat keyword) (ReadLinesSync fs path)).
    - intros pkg raw li a Hp Hraw Hm col. split; [reflexivity |].
      exists pkg, raw, li, a. auto.
    - auto.
    - constructor. }
  rewrite Forall_forall in HF. destruct (HF loc Hloc) as [Huri [pkg [raw [li [a H]]]]].
  exists file, pkg, raw, li, a. rewrite Huri.
  destruct H as [H1 [H2 [H3 H4]]]. repeat split; assumption.
Qed.

Lemma location_records_come_from_scanned_lines_witness :
  exists file pkg raw lastIndex a,
    pathIn "b.script" = fsPath wsFolder ++ backslash ++ file
    /\ In file (readdirSync indentedFs (fsPath wsFolder))
    /\ JS.endsWith ".script" file = true
    /\ exploredName "" <> Some file
    /\ In pkg (ReadLinesSync indentedFs (pathIn "b.script"))
    /\ pktLine pkg = Some raw
    /\ 1 = lineNo pkg
    /\ fst (execG (mthdPat "move") lastIndex raw) = Some a.
Proof.
  apply (location_records_come_from_scanned_lines indentedFs wsFolder "move" ""
           {| uri := pathIn "b.script"; range := {| line := 1; character := 4 |} |}).
  vm_compute. left. reflexivity.
Defined.

Lemma firstResult_some : forall (F A : Type) (f : F -> option A) l r,
  firstResult f l = Some r -> exists x, In x l /\ f x = Some r.
Proof.
  intros F A f l r. induction l as [| y l IH]; simpl; [discriminate |].
  destruct (f y) as [r' |] eqn:E.
  - intros H. injection H as <-. exists y. auto.
  - intros H. destruct (IH H) as [x [Hx Hfx]]. exists x. auto.
Qed.

(** X14.  A signature found in the workspace always starts at the first
    parameter: it holds exactly one signature, active, with the
    active-parameter index 0; and it comes from a script file of the
    folder other than the one being edited. *)
Theorem workspace_signature_starts_at_first_parameter :
  forall (api : Collaborators) fs workspace keyword explored help,
    getSignatureFromWorkspace fs workspace keyword explored = Some help ->
    activeParameter help = 0%Z
    /\ activeSignature help = 0%Z
    /\ List.length (signatures help) = 1
    /\ exists file,
         In file (readdirSync fs (fsPath workspace))
         /\ JS.endsWith ".script" file = true
         /\ exploredName explored <> Some file
         /\ getSignatureFromFile fs (fsPath workspace ++ backslash ++ file) keyword
            = Some help.
Proof.
  intros api fs workspace keyword explored help H.
  unfold getSignatureFromWorkspace in H.
  apply firstResult_some in H. destruct H as [f [Hf Hsig]].
  destruct (lookupFiles_inv fs workspace explored f Hf) as [file [-> [Hin [Hends Hne]]]].
  assert (Hshape : activeParameter help = 0%Z /\ activeSignature help = 0%Z
                   /\ List.length (signatures help) = 1).
  { unfold getSignatureFromFile in Hsig. apply scanFirst_inv in Hsig.
    destruct Hsig as [pre [raw [n [post [_ [_ Hb]]]]]].
    apply parseSignature_inv in Hb. destruct Hb as [a [nameReg [doc [_ [_ [_ ->]]]]]].
    repeat split. }
  destruct Hshape as [H1 [H2 H3]]. repeat split; try assumption.
  exists file. auto.
Qed.

Lemma workspace_signature_starts_at_first_parameter_witness :
  exists help,
    getSignatureFromWorkspace (api := demoApi) documentedFs wsFolder "add" "" = Some help
    /\ activeParameter help = 0%Z
    /\ List.length (signatures help) = 1.
Proof.
  eexists. split; [vm_compute; reflexivity |].
  destruct (@workspace_signature_starts_at_first_parameter demoApi documentedFs wsFolder
              "add" "" _ eq_refl) as [H1 [_ [H3 _]]].
  split; [exact H1 | exact H3].
Defined.

(* ================================================================== *)
(** * A declaration match takes the rest of the line *)
(* ================================================================== *)

(** The part of the declaration pattern after the keyword:
    [.*(\(.*\):)*].  On a single line, from any index inside it, it
    succeeds at once with the whole rest of the line and no round of
    its group. *)
Lemma header_tail_to_end : forall s j c,
  singleLine s = true ->
  j <= String.length s ->
  m s (Seq (Star true anyChar) (headerTail 2)) j c (fun j' c' => Some (j', c'))
  = Some (String.length s, c).
Proof.
  intros s j c Hs Hj.
  change (m s (Seq (Star true anyChar) (headerTail 2)) j c (fun j' c' => Some (j', c')))
    with (starLoop (fun i' c' k' =>
                      m s (Cls JS.isNotLineTerminator) i'
                        (clearCaps (groupsOf (Cls JS.isNotLineTerminator)) c') k')
                   true
                   (fun j1 c1 => m s (headerTail 2) j1 c1 (fun j' c' => Some (j', c')))
                   (S (String.length s)) j c).
  apply (star_class_first s JS.isNotLineTerminator _ _ (S (String.length s)) j c
                          (String.length s)).
  - exact Hj.
  - lia.
  - intros t Ht. apply get_forallChars; [exact Hs | lia].
  - left. apply get_beyond. lia.
  - cbv beta. unfold headerTail. cbn [m Cat starLoop].
    rewrite (get_beyond s (String.length s)) by lia. reflexivity.
Qed.

(** The shape of every match of the declaration pattern on a single
    line: it ends at the end of the line and leaves group 2 unset. *)
Lemma mthdPat_match_shape : forall keyword s lastIndex a e,
  singleLine s = true ->
  execG (mthdPat keyword) lastIndex s = (Some a, e) ->
  e = String.length s
  /\ index a <= String.length s
  /\ elems a = [Some (slice s (index a) (String.length s));
                nth 1 (elems a) None; None].
Proof.
  intros keyword s lastIndex a e Hs H. unfold execG in H.
  destruct (Nat.ltb_spec (String.length s) lastIndex) as [| Hli]; [discriminate |].
  destruct (searchFrom (mthdPat keyword) s (String.length s - lastIndex) lastIndex)
    as [[[i e0] c] |] eqn:E; [| discriminate].
  injection H as <- <-.
  pose proof (searchFrom_bound _ _ _ _ _ _ _ E) as Hi.
  apply searchFrom_matchAt in E. unfold matchAt in E.
  change (m s (mthdPat keyword) i [] (fun j c => Some (j, c)))
    with (m s (Cat [WordB; Grp 1 keywords3; Plus (Cls JS.isWhiteSpace); Lit keyword]) i []
            (fun j c' => m s (Seq (Star true anyChar) (headerTail 2)) j c'
                           (fun j' c'' => Some (j', c'')))) in E.
  apply m_inv in E. destruct E as [j [c' [[Hj [Hb Hc]] E]]].
  rewrite header_tail_to_end in E by (try exact Hs; apply Hb; lia).
  injection E as <- <-.
  assert (H2 : getCap 2 c' = None).
  { rewrite (Hc 2); [reflexivity |].
    cbn [Cat groupsOf Plus app]. rewrite groupsOf_Lit. cbn [keywords3 groupsOf app].
    rewrite !groupsOf_Lit. simpl. intros [H | []]. discriminate. }
  split; [reflexivity |]. split; [cbn [index mkArray]; lia |].
  unfold mkArray. cbn [elems index].
  assert (Hg : groupsOf (mthdPat keyword) = [1; 2]).
  { unfold mthdPat, headerTail. cbn [Cat groupsOf Plus app keywords3].
    rewrite !groupsOf_Lit. reflexivity. }
  rewrite Hg. cbn [List.length seq map nth]. now rewrite H2.
Qed.

(** X15.  On a line (a string without line terminators) a match of the
    declaration pattern always runs to the end of the line, so that the
    pattern object's [lastIndex] becomes the length of the line, and
    the group written for the parameter list never captures anything:
    the result has exactly three elements, the third undefined. *)
Theorem declaration_match_takes_rest_of_line :
  forall (keyword s : string) (lastIndex : nat) (a : RegExpExecArray) (e : nat),
    wordKeyword keyword = true ->
    singleLine s = true ->
    execG (mthdPat keyword) lastIndex s = (Some a, e) ->
    e = String.length s
    /\ matched a = String.substring (index a) (String.length s - index a) s
    /\ List.length (elems a) = 3
    /\ nth_error (elems a) 2 = Some None.
Proof.
  intros keyword s lastIndex a e _ Hs H.
  destruct (mthdPat_match_shape keyword s lastIndex a e Hs H) as [He [Hi Hel]].
  split; [exact He |]. unfold matched. rewrite Hel.
  repeat split.
Qed.

Lemma declaration_match_takes_rest_of_line_witness :
  nth_error (elems {| elems := [Some "def foo(a, b):"; Some "def"; None]; index := 2 |}) 2
  = Some None.
Proof.
  apply (@declaration_match_takes_rest_of_line "foo" "  def foo(a, b):" 0
           {| elems := [Some "def foo(a, b):"; Some "def"; None]; index := 2 |} 16);
    reflexivity.
Defined.

Section ShadowedLine.
Context {api : Collaborators}.

Lemma cmpFileStep_lastIndex : forall pat pkgs st,
  cmpLastIndex (fold_left (cmpFileStep pat) pkgs st)
  = lastIndexAfter pat pkgs (cmpLastIndex st).
Proof.
  intros pat pkgs. induction pkgs as [| pkg pkgs IH]; intros st.
  - reflexivity.
  - unfold lastIndexAfter. simpl. fold (lastIndexAfter pat pkgs).
    rewrite IH. f_equal. unfold cmpFileStep.
    destruct (pktLine pkg) as [raw |]; [| reflexivity].
    now destruct (execG pat (cmpLastIndex st) (JS.trim raw)).
Qed.

End ShadowedLine.

(** X16.  In the file scan for completion the pattern object keeps its
    [lastIndex] from one line to the next.  A line that follows a line
    with a match and is shorter than it is therefore never examined:
    appending it to the file adds no entry, declaration or not. *)
Theorem line_after_match_is_not_examined :
  forall (api : Collaborators) (fs fs' : FileSystem) (file keyword : string)
         (items : list CompletionItem) (pre : list LinePacket)
         (p1 p2 : LinePacket) (raw1 raw2 : string),
    wordKeyword keyword = true ->
    fileLines fs file = Some (pre ++ [p1; p2])%list ->
    fileLines fs' file = Some (pre ++ [p1])%list ->
    pktLine p1 = Some raw1 ->
    pktLine p2 = Some raw2 ->
    singleLine (JS.trim raw1) = true ->
    fst (execG (mthdPat keyword) (lastIndexAfter (mthdPat keyword) pre 0) (JS.trim raw1))
    <> None ->
    String.length (JS.trim raw2) < String.length (JS.trim raw1) ->
    getCompletionItemsFromFile fs file keyword items
    = getCompletionItemsFromFile fs' file keyword items.
Proof.
  intros api fs fs' file keyword items pre p1 p2 raw1 raw2 _ Hfs Hfs' Hp1 Hp2 Hs Hm Hlen.
  unfold getCompletionItemsFromFile, cmpFileScan, ReadLinesSync.
  rewrite Hfs, Hfs'. rewrite !fold_left_app.
  set (st := fold_left (cmpFileStep (mthdPat keyword)) pre
                       {| cmpLastIndex := 0; cmpOldLines := []; cmpItems := items |}).
  assert (Hli : cmpLastIndex st = lastIndexAfter (mthdPat keyword) pre 0)
    by (unfold st; now rewrite cmpFileStep_lastIndex).
  cbn [fold_left].
  unfold cmpFileStep at 1. rewrite Hp2.
  set (st1 := cmpFileStep (mthdPat keyword) st p1).
  assert (H1 : cmpLastIndex st1 = String.length (JS.trim raw1)).
  { unfold st1, cmpFileStep. rewrite Hp1, Hli.
    destruct (execG (mthdPat keyword) (lastIndexAfter (mthdPat keyword) pre 0)
                    (JS.trim raw1)) as [[a |] e] eqn:E; [| now elim Hm].
    cbn [cmpLastIndex].
    now destruct (mthdPat_match_shape keyword (JS.trim raw1) _ a e Hs E). }
  rewrite H1, execG_beyond_end by exact Hlen.
  reflexivity.
Qed.

Lemma line_after_match_is_not_examined_witness :
  getCompletionItemsFromFile (api := demoApi)
    (mkFileSystem (fun _ => Some shadowedPackets) (fun _ => [])) "prog.script" "" []
  = getCompletionItemsFromFile (api := demoApi)
      (mkFileSystem (fun _ => Some [mkPacket (Some "def foo(a, b):") 0]) (fun _ => []))
      "prog.script" "" [].
Proof.
  apply (@line_after_match_is_not_examined demoApi _ _ "prog.script" "" [] []
           (mkPacket (Some "def foo(a, b):") 0) (mkPacket (Some "def bar():") 1)
           "def foo(a, b):" "def bar():");
    try reflexivity.
  - vm_compute. discriminate.
  - vm_compute. lia.
Defined.

(* ================================================================== *)
(** * First match wins; one record per line; the built catalog *)
(* ================================================================== *)

Lemma locStep_count : forall fileName pat pkgs st,
  List.length (locColl (fold_left (locStep fileName pat) pkgs st))
  <= List.length (locColl st) + List.length (fedLines pkgs).
Proof.
  intros fileName pat pkgs. induction pkgs as [| pkg pkgs IH]; intros st.
  - simpl. lia.
  - simpl fold_left. specialize (IH (locStep fileName pat st pkg)).
    assert (H : List.length (locColl (locStep fileName pat st pkg))
                + List.length (fedLines pkgs)
                <= List.length (locColl st) + List.length (fedLines (pkg :: pkgs))).
    { unfold locStep, fedLines. cbn [flat_map]. fold (fedLines pkgs).
      destruct (pktLine pkg) as [raw |]; [| simpl; lia].
      rewrite length_app. cbn [List.length].
      destruct (execG pat (mthdLastIndex st) raw) as [[a |] mi]; [| simpl; lia].
      destruct (execG namePat (nameLastIndex st) (matched a)) as [[nameReg |] ni];
        cbn [locColl]; [rewrite length_app; simpl; lia | lia]. }
    lia.
Qed.

(** X17.  The location scan of a file gives at most one record per line
    the reader delivers, however many declarations a line holds. *)
Theorem location_at_most_one_per_line :
  forall (fs : FileSystem) (file keyword : string),
    List.length (getLocationFromFile fs file keyword)
    <= List.length (fedLines (ReadLinesSync fs file)).
Proof.
  intros fs file keyword. unfold getLocationFromFile.
  apply (locStep_count file (mthdPat keyword) (ReadLinesSync fs file)
           {| mthdLastIndex := 0; nameLastIndex := 0; locColl := [] |}).
Qed.

(** X18.  The first answer wins: once the hover scan, or the signature
    scan, of a file has its answer, nothing that follows in the file
    changes it; a later declaration of the same name is never read. *)
Theorem first_declaration_wins :
  forall (api : Collaborators) (fs fs' : FileSystem) (file keyword : string)
         (pkgs post : list LinePacket),
    fileLines fs file = Some pkgs ->
    fileLines fs' file = Some (pkgs ++ post)%list ->
    (forall hover, getHoverFromFile fs file keyword = Some hover ->
                   getHoverFromFile fs' file keyword = Some hover)
    /\ (forall help, getSignatureFromFile fs file keyword = Some help ->
                     getSignatureFromFile fs' file keyword = Some help).
Proof.
  intros api fs fs' file keyword pkgs post Hfs Hfs'.
  unfold getHoverFromFile, getSignatureFromFile, ReadLinesSync.
  rewrite Hfs, Hfs'. split.
  - intros hover H. now rewrite scanFirst_app, H.
  - intros help H. now rewrite scanFirst_app, H.
Qed.

Lemma first_declaration_wins_witness :
  getHoverFromFile (api := demoApi)
    (mkFileSystem (fun _ => Some (packets ["def foo(a):"; "x = 1"; "def foo(a, b, c):"]))
                  (fun _ => []))
    "prog.script" "foo"
  = Some {| contents := [Markdown (mkMarkdown "*user function*");
                         Markdown (mkMarkdown "foo(a)")] |}.
Proof.
  apply (proj1 (@first_declaration_wins demoApi
                  (mkFileSystem (fun _ => Some (packets ["def foo(a):"])) (fun _ => []))
                  (mkFileSystem
                     (fun _ => Some (packets ["def foo(a):"; "x = 1"; "def foo(a, b, c):"]))
                     (fun _ => []))
                  "prog.script" "foo" (packets ["def foo(a):"])
                  [mkPacket (Some "x = 1") 1; mkPacket (Some "def foo(a, b, c):") 2]
                  eq_refl eq_refl)).
  vm_compute. reflexivity.
Defined.

Lemma find_newScriptSignature :
  forall (api : Collaborators) (word : string) (funcs : list ScriptMethod) mthd,
    find (fun f => String.eqb (Name f) word) funcs = Some mthd ->
    find (fun sig => String.eqb (sigName sig) word) (map newScriptSignature funcs)
    = Some (newScriptSignature mthd).
Proof.
  intros api word funcs mthd. induction funcs as [| f funcs IH]; simpl; [discriminate |].
  destruct (String.eqb (Name f) word); [intros H; now injection H as -> | exact IH].
Qed.

Lemma resetMatched_newScriptSignature :
  forall (api : Collaborators) (word : string) (funcs : list ScriptMethod),
    resetMatched word (map newScriptSignature funcs) = map newScriptSignature funcs.
Proof.
  intros api word funcs. induction funcs as [| f funcs IH]; simpl; [reflexivity |].
  destruct (String.eqb (Name f) word); [reflexivity | now rewrite IH].
Qed.

Lemma findIndex_newScriptSignature :
  forall (api : Collaborators) (word : string) (funcs : list ScriptMethod),
    findIndex (fun sig => String.eqb (sigName sig) word) (map newScriptSignature funcs)
    = findIndex (fun f => String.eqb (Name f) word) funcs.
Proof.
  intros api word funcs. induction funcs as [| f funcs IH]; simpl; [reflexivity |].
  destruct (String.eqb (Name f) word); [reflexivity | now rewrite IH].
Qed.

(** X19.  With the catalog as the provider's constructor builds it from
    the loaded methods, a fresh trigger for a word that names a method
    answers with the [Item] of the entry built from the first method of
    that name, which holds the signature built from that method, and
    the catalog stays as built. *)
Theorem built_catalog_answers_by_name :
  forall (api : Collaborators) wordBefore getSignatureFromDocument fs
         (funcs : list ScriptMethod) workspaceFolders document position line word mthd,
    lineAt document position = Some line ->
    (JS.indexOf "(" (text line) 0 <= character position)%Z ->
    (character position <= JS.indexOf ")" (text line) (JS.indexOf "(" (text line) 0))%Z ->
    wordBefore document (lineNumber line) (JS.indexOf "(" (text line) 0 - 1)%Z = Some word ->
    find (fun f => String.eqb (Name f) word) funcs = Some mthd ->
    let result := provideSignatureHelp wordBefore getSignatureFromDocument fs
                    (map newScriptSignature funcs) workspaceFolders document position
                    {| isRetrigger := false; activeSignatureHelp := None |} in
    result = (Some (ItemOf (findIndex (fun f => String.eqb (Name f) word) funcs)),
              map newScriptSignature funcs)
    /\ returnedHelp result = Some (signatureOf mthd)
    /\ nth_error funcs (findIndex (fun f => String.eqb (Name f) word) funcs) = Some mthd.
Proof.
  intros api wordBefore getSig fs funcs folders document position line word mthd
         Hline Hleft Hright Hword Hfind result.
  assert (E : result
              = (Some (ItemOf (findIndex (fun f => String.eqb (Name f) word) funcs)),
                 map newScriptSignature funcs)).
  { unfold result, provideSignatureHelp. rewrite Hline. cbv zeta.
    destruct (Z.ltb_spec (character position) (JS.indexOf "(" (text line) 0)); [lia |].
    destruct (Z.ltb_spec (JS.indexOf ")" (text line) (JS.indexOf "(" (text line) 0))
                         (character position)); [lia |].
    cbn [orb isRetrigger]. rewrite Hword.
    rewrite (find_newScriptSignature api word funcs mthd Hfind).
    now rewrite resetMatched_newScriptSignature, findIndex_newScriptSignature. }
  pose proof (find_findIndex _ _ _ _ Hfind) as Hnth.
  split; [exact E |]. split; [| exact Hnth].
  rewrite E. unfold returnedHelp. cbn [fst snd derefHelp].
  rewrite nth_error_map, Hnth. reflexivity.
Qed.

Lemma built_catalog_answers_by_name_witness :
  returnedHelp
    (provideSignatureHelp (api := demoApi) wordAdd noDocumentSignature emptyFs
       (map newScriptSignature
            [ {| infoName := "add"; infoReturnType := "number"; infoReturn := "sum";
                 infoDeprecated := ""; infoComment := "adds";
                 infoParameters := [] |} ])
       None callDocument (mkPosition 0 4)
       {| isRetrigger := false; activeSignatureHelp := None |})
  = Some {| activeParameter := 0; activeSignature := 0;
            signatures := [ {| siLabel := "add()"; parameters := [] |} ] |}.
Proof.
  refine (proj1 (proj2 (@built_catalog_answers_by_name demoApi wordAdd noDocumentSignature
                          emptyFs _ None callDocument (mkPosition 0 4)
                          (mkTextLine "add(1,2,)" 0) "add"
                          {| infoName := "add"; infoReturnType := "number";
                             infoReturn := "sum"; infoDeprecated := ""; infoComment := "adds";
                             infoParameters := [] |} _ _ _ _ _))).
  - reflexivity.
  - vm_compute; discriminate.
  - vm_compute; discriminate.
  - reflexivity.
  - reflexivity.
Defined.

(* ================================================================== *)
(** * A declared name gets its entry *)
(* ================================================================== *)































Section FirstDeclaration.
Context {api : Collaborators}.


End FirstDeclaration.



